(** * qemu_wms: the diagnostic-port bridge of the Feabhas washing machine GUI

    A shallow embedding of [qemu_wms.py]: the socket listener
    ([QEmuListener.read], [write], [listen]), the board state
    ([WmsBoard.update_device], [button_down], [button_up]) and the
    message dispatch and timers of [WmsGui].

    Python integers are unbounded, so they are embedded as [Z]; [bytes]
    and [bytearray] values are lists of [byte]; [str] values that come out
    of an ASCII decode are [string]s. *)

From Stdlib Require Import List ZArith Bool String Ascii Lia.
From Stdlib Require Import Strings.Byte.
Import ListNotations.
Local Open Scope Z_scope.

Set Implicit Arguments.

(** ** Exceptions and results *)

Inductive exn : Type :=
| UserWarning (msg : string)
| IndexError
| ValueError
| TypeError
| KeyError
| AttributeError
| OSError.

Inductive result (A : Type) : Type :=
| Ok (a : A)
| Raise (e : exn).
Arguments Ok {A} a.
Arguments Raise {A} e.

(** ** Python built-ins used by the listener *)

Module Py.

(** [bytes.isspace] on one byte: the six ASCII whitespace bytes. *)
Definition byte_isspace (b : byte) : bool :=
  match b with
  | x09 | x0a | x0b | x0c | x0d | x20 => true
  | _ => false
  end.

(** [str.isspace] on one character of the Latin-1 range. *)
Definition isspace (c : ascii) : bool :=
  match byte_of_ascii c with
  | x09 | x0a | x0b | x0c | x0d
  | x1c | x1d | x1e | x1f | x20
  | x85 | xa0 => true
  | _ => false
  end.

(** The bytes the ['ascii'] codec accepts. *)
Definition byte_is_ascii (b : byte) : bool :=
  (Byte.to_N b <? 128)%N.

(** [data.decode('ascii')]: [None] stands for [UnicodeDecodeError],
    a subclass of [ValueError]. *)
Definition decode_ascii (data : list byte) : option string :=
  if forallb byte_is_ascii data
  then Some (string_of_list_byte data)
  else None.

(** [str.split()] with no argument: maximal runs of non-whitespace.
    [word] is the run collected so far. *)
Fixpoint split_from (s word : string) : list string :=
  match s with
  | EmptyString =>
      match word with
      | EmptyString => []
      | _ => [word]
      end
  | String c rest =>
      if isspace c then
        match word with
        | EmptyString => split_from rest EmptyString
        | _ => word :: split_from rest EmptyString
        end
      else split_from rest (word ++ String c EmptyString)
  end.

Definition split (s : string) : list string := split_from s EmptyString.

(** [s.startswith(prefix)] *)
Definition startswith (s pre : string) : bool := String.prefix pre s.

(** [s.partition(sep)] for a two-character separator [a b]: the text
    before the first occurrence, whether it occurs, and the text after. *)
Fixpoint partition2 (a b : ascii) (s : string) : string * bool * string :=
  match s with
  | EmptyString => (EmptyString, false, EmptyString)
  | String c rest =>
      match rest with
      | String d rest' =>
          if (Ascii.eqb c a && Ascii.eqb d b)%bool
          then (EmptyString, true, rest')
          else
            match partition2 a b rest with
            | (before, true, after) => (String c before, true, after)
            | (_, false, _) => (s, false, EmptyString)
            end
      | EmptyString => (s, false, EmptyString)
      end
  end.

(** Value of a digit character, as [_PyLong_DigitValue]: 37 when the
    character is no digit in any base. *)
Definition digit_value (c : ascii) : Z :=
  let n := Z.of_N (N_of_ascii c) in
  if (48 <=? n) && (n <=? 57) then n - 48
  else if (97 <=? n) && (n <=? 122) then n - 97 + 10
  else if (65 <=? n) && (n <=? 90) then n - 65 + 10
  else 37.

(** [Py_ISSPACE] *)
Definition c_isspace (c : ascii) : bool :=
  match byte_of_ascii c with
  | x09 | x0a | x0b | x0c | x0d | x20 => true
  | _ => false
  end.

Fixpoint lstrip (s : string) : string :=
  match s with
  | String c rest => if c_isspace c then lstrip rest else s
  | EmptyString => EmptyString
  end.

Fixpoint all_space (s : string) : bool :=
  match s with
  | String c rest => c_isspace c && all_space rest
  | EmptyString => true
  end.

(** The digit scan of [int(s, 16)]: hexadecimal digits with single
    underscores between them, then only whitespace. [acc] is the value
    so far, [prev_us] tells whether the previous character was an
    underscore, [seen] whether a digit was read. *)
Fixpoint hex_digits (s : string) (acc : Z) (prev_us seen : bool) : option Z :=
  match s with
  | EmptyString => if prev_us || negb seen then None else Some acc
  | String c rest =>
      if Ascii.eqb c "_" then
        if prev_us then None else hex_digits rest acc true seen
      else if digit_value c <? 16 then
        hex_digits rest (acc * 16 + digit_value c) false true
      else if prev_us || negb seen then None
      else if all_space s then Some acc else None
  end.

(** [int(s, 16)]: surrounding whitespace, an optional sign, an optional
    [0x] prefix which one underscore may follow, then the digits.
    [None] stands for [ValueError]. *)
Definition int16 (s : string) : option Z :=
  let s := lstrip s in
  let '(sign, s) :=
    match s with
    | String "+" r => (1, r)
    | String "-" r => (-1, r)
    | _ => (1, s)
    end in
  let s :=
    match s with
    | String "0" (String "x" r) | String "0" (String "X" r) =>
        match r with
        | String "_" r' => r'
        | _ => r
        end
    | _ => s
    end in
  match s with
  | String "_" _ => None
  | _ =>
      match hex_digits s 0 false false with
      | Some v => Some (sign * v)
      | None => None
      end
  end.

(** [l[i]] for a list and an integer index: negative indices count
    from the end, [None] stands for [IndexError]. *)
Definition index {A : Type} (l : list A) (i : Z) : option A :=
  let n := Z.of_nat (List.length l) in
  if 0 <=? i then nth_error l (Z.to_nat i)
  else if - n <=? i then nth_error l (Z.to_nat (n + i))
  else None.

(** [l[i] = v], same conventions. *)
Fixpoint set_nth {A : Type} (l : list A) (n : nat) (v : A) : list A :=
  match l, n with
  | [], _ => []
  | _ :: t, O => v :: t
  | h :: t, S n' => h :: set_nth t n' v
  end.

Definition set_index {A : Type} (l : list A) (i : Z) (v : A) : option (list A) :=
  let n := Z.of_nat (List.length l) in
  if (0 <=? i) && (i <? n) then Some (set_nth l (Z.to_nat i) v)
  else if (- n <=? i) && (i <? 0) then Some (set_nth l (Z.to_nat (n + i)) v)
  else None.

(** [s[i]] for a string and a natural index. *)
Definition char_at (s : string) (i : nat) : option ascii := String.get i s.

(** [bool(n)] *)
Definition truthy (n : Z) : bool := negb (n =? 0).

(** A value of type [AnyStr]: a [str], kept as its code points, or a
    [bytes] value. *)
Inductive AnyStr : Type :=
| Str (code_points : list N)
| Bytes (data : list byte).

(** A [str] written as a literal. *)
Definition text (s : string) : AnyStr :=
  Str (map N_of_ascii (list_ascii_of_string s)).

(** [s.encode('ascii')]: [None] stands for [UnicodeEncodeError], a
    subclass of [ValueError], raised at a code point above 127. *)
Fixpoint encode_ascii (s : list N) : option (list byte) :=
  match s with
  | [] => Some []
  | c :: rest =>
      if (c <? 128)%N then
        match Byte.of_N c, encode_ascii rest with
        | Some b, Some data => Some (b :: data)
        | _, _ => None
        end
      else None
  end.

(** [if isinstance(message, str): message = message.encode('ascii')] *)
Definition as_bytes (message : AnyStr) : option (list byte) :=
  match message with
  | Str s => encode_ascii s
  | Bytes data => Some data
  end.

(** The digits of [\xhh] in the [repr] of a [bytes] value. *)
Definition hexdigit (n : N) : ascii :=
  nth (N.to_nat n) (list_ascii_of_string "0123456789abcdef") "0"%char.

(** One byte in the [repr] of a [bytes] value delimited by [quote]: the
    quote and the backslash are escaped, tab, newline and carriage
    return have their letter, the other bytes outside the printable
    ASCII range are written in hexadecimal. *)
Definition repr_byte (quote : ascii) (b : byte) : string :=
  let c := ascii_of_byte b in
  let n := Byte.to_N b in
  if (Ascii.eqb c quote || Ascii.eqb c "\")%bool then String "\" (String c "")
  else if (n =? 9)%N then "\t"
  else if (n =? 10)%N then "\n"
  else if (n =? 13)%N then "\r"
  else if ((n <? 32) || (127 <=? n))%N then
    String "\" (String "x"
      (String (hexdigit (n / 16)) (String (hexdigit (n mod 16)) "")))
  else String c "".

(** [repr(data)] for [bytes], which is also what an f-string makes of
    it: delimited by single quotes, or by double quotes when the value
    holds a single quote and no double quote. *)
Definition repr_bytes (data : list byte) : string :=
  let quote :=
    if (existsb (Byte.eqb x27) data && negb (existsb (Byte.eqb x22) data))%bool
    then ascii_of_byte x22
    else ascii_of_byte x27 in
  String "b" (String quote
    (String.concat "" (map (repr_byte quote) data) ++ String quote "")).

End Py.

(** ** Module constants and static tables *)

(** polling interval in ms *)
Definition POLL : Z := 100.
(** how often to check if devices are still enabled *)
Definition DEVICE_POLL : Z := 5000.
(** time to display warnings *)
Definition DISPLAY_WARN : Z := 5000.

(** Identifies different button behaviours *)
Module ButtonStyle.
Inductive t : Type := plain | latch | door.

Definition eqb (a b : t) : bool :=
  match a, b with
  | plain, plain | latch, latch | door, door => true
  | _, _ => false
  end.
End ButtonStyle.

(** [Button = namedtuple('Button', 'name pin, style down up x y radius')];
    [pin] is [None] for the reset button. *)
Record Button : Type := mkButton {
  name : string;
  pin : option Z;
  style : ButtonStyle.t;
  down : string;
  up : string;
  x : Z;
  y : Z;
  radius : Z
}.

(** [Overlay = namedtuple('Overlay', 'x y images')] *)
Record Overlay : Type := mkOverlay {
  overlay_x : Z;
  overlay_y : Z;
  images : list string
}.

Module Board.

Definition rcc_ahbenr : string := "M40023830? ".
Definition rcc_apb1enr : string := "M40023840? ".

Definition buttons : list Button := [
  mkButton "reset" None ButtonStyle.plain "" "reset " 32 200 8;
  mkButton "door" (Some 0) ButtonStyle.door "D0L0 " "D0d0 " 730 310 15;
  mkButton "PS1" (Some 1) ButtonStyle.latch "D0L1 " "D0d1 " 730 130 12;
  mkButton "PS2" (Some 2) ButtonStyle.latch "D0L2 " "D0d2 " 695 130 12;
  mkButton "PS3" (Some 3) ButtonStyle.latch "D0L3 " "D0d3 " 665 130 12;
  mkButton "cancel" (Some 4) ButtonStyle.latch "D0L4 " "D0d4 " 615 130 12;
  mkButton "accept" (Some 5) ButtonStyle.latch "D0L5 " "D0d5 " 575 130 12;
  mkButton "motor" (Some 6) ButtonStyle.plain "D0L6 " "D0d6 " 650 230 50
].

Definition overlays : list (string * Overlay) := [
  ("led", mkOverlay 207 298 ["led-0.png"; "led-1.png"]);
  ("PS1", mkOverlay 702 26 ["ps1-0.png"; "ps1-1.png"]);
  ("PS2", mkOverlay 667 26 ["ps2-0.png"; "ps2-1.png"]);
  ("PS3", mkOverlay 632 26 ["ps3-0.png"; "ps3-1.png"]);
  ("sseg", mkOverlay 550 289 [
      "sseg-0.png"; "sseg-1.png"; "sseg-2.png"; "sseg-3.png";
      "sseg-4.png"; "sseg-5.png"; "sseg-6.png"; "sseg-7.png";
      "sseg-8.png"; "sseg-9.png"; "sseg-10.png"; "sseg-11.png";
      "sseg-12.png"; "sseg-13.png"; "sseg-14.png"; "sseg-15.png"]);
  ("motor", mkOverlay 592 171 ["motor-00.png"; "motor-30.png"; "motor-60.png"]);
  ("spinner", mkOverlay 627 203 ["motor-stop.png"; "motor-cw.png"; "motor-acw.png"]);
  ("door", mkOverlay 711 301 ["door-closed.png"; "door-open.png"])
]%string.

Definition led_xy : list (Z * Z) := [(207, 298); (217, 298); (227, 298); (237, 298)].

(** [Board.overlays.get(tag)] *)
Fixpoint lookup (table : list (string * Overlay)) (tag : string) : option Overlay :=
  match table with
  | [] => None
  | (k, o) :: rest => if String.eqb k tag then Some o else lookup rest tag
  end.

Definition get (tag : string) : option Overlay := lookup overlays tag.

End Board.

(** Tags to identify response message types *)
Module QEmuTag.
Definition pin_low : Z := 0.
Definition pin_high : Z := 1.
Definition gpiod_enabled : Z := 11.
Definition command : Z := 12.
Definition moder : Z := 13.
Definition idr : Z := 14.
Definition warning : Z := 15.
Definition usart3_enabled : Z := 21.
Definition sr : Z := 22.
Definition cr1 : Z := 23.
End QEmuTag.

Definition REPLY_MAP : list (string * Z) := [
  ("=m40023830", QEmuTag.gpiod_enabled); ("=m40023840", QEmuTag.usart3_enabled);
  ("=d0", QEmuTag.moder); ("=d4", QEmuTag.idr);
  ("=u0", QEmuTag.sr); ("=u3", QEmuTag.cr1)
]%string.

Fixpoint REPLY_MAP_get (table : list (string * Z)) (cmd : string) : option Z :=
  match table with
  | [] => None
  | (k, tag) :: rest => if String.eqb k cmd then Some tag else REPLY_MAP_get rest cmd
  end.

(** The double quote character, for the messages that quote a token. *)
Definition dquote : string := String (ascii_of_nat 34) EmptyString.

(** ** QEmuListener: the socket listener on port 8888 *)

Module QEmuListener.

(** What [self.socket.recv(15)] can do: deliver bytes (at most 15 of
    them on the real socket), time out, or fail with an [OSError]. *)
Inductive Recv : Type :=
| Data (received : list byte)
| TimedOut
| Broken.

(** First loop of [read]:
    [while data and data[0] == 0xff: data = data[3:]].
    A slice past the end is empty. *)
Fixpoint strip_escape (data : list byte) : list byte :=
  match data with
  | b :: rest =>
      if Byte.eqb b xff then
        match rest with
        | _ :: _ :: rest' => strip_escape rest'
        | _ => []
        end
      else data
  | [] => []
  end.

(** A run of whole escape triplets: [0xFF] and two more bytes, each. *)
Inductive escapes : list byte -> Prop :=
| escapes_nil : escapes []
| escapes_triplet a b rest : escapes rest -> escapes (xff :: a :: b :: rest).

(** Second loop of [read]:
    [while data and not data[-1:].isspace():
         self.recv_buffer.insert(0, data.pop())].
    [stack] is [data] with its last byte on top. *)
Fixpoint pop_tail (stack recv_buffer : list byte) : list byte * list byte :=
  match stack with
  | [] => ([], recv_buffer)
  | b :: below =>
      if Py.byte_isspace b then (stack, recv_buffer)
      else pop_tail below (b :: recv_buffer)
  end.

(** A stack the second loop leaves alone: empty, or topped by a
    whitespace byte. *)
Inductive settled : list byte -> Prop :=
| settled_nil : settled []
| settled_space c below : Py.byte_isspace c = true -> settled (c :: below).

(** [read]: the new [recv_buffer] and the text returned, or the
    exception raised. A timeout leaves the buffer as it was; a decoding
    error is raised after the buffer has been rebuilt. *)
Definition read (recv_buffer : list byte) (r : Recv) : list byte * result string :=
  match r with
  | Data received =>
      let data := strip_escape (recv_buffer ++ received) in
      let '(stack, buffer) := pop_tail (rev data) [] in
      match Py.decode_ascii (rev stack) with
      | Some text => (buffer, Ok text)
      | None => (buffer, Raise (UserWarning "Warning: QEMU receiver timeout"))
      end
  | TimedOut => (recv_buffer, Raise (UserWarning "Warning: QEMU receiver timeout"))
  | Broken => (recv_buffer, Raise OSError)
  end.

(** Calls the listener thread makes on the GUI object. *)
Inductive GuiCall : Type :=
| event (tag value : Z)
| warning (msg : string).

(** [int(reply[2], 16)] *)
Definition hex_at_2 (reply : string) : result Z :=
  match Py.char_at reply 2 with
  | None => Raise IndexError
  | Some c =>
      match Py.int16 (String c EmptyString) with
      | Some v => Ok v
      | None => Raise ValueError
      end
  end.

(** Body of [for reply in replies] in [listen]. *)
Definition handle_reply (reply : string) : result (list GuiCall) :=
  if Py.startswith reply "?" then
    Ok [warning ("Invalid command response: " ++ reply)]
  else if Py.startswith reply "-" then
    match hex_at_2 reply with
    | Ok v => Ok [event QEmuTag.pin_low v]
    | Raise e => Raise e
    end
  else if Py.startswith reply "+" then
    match hex_at_2 reply with
    | Ok v => Ok [event QEmuTag.pin_high v]
    | Raise e => Raise e
    end
  else if Py.startswith reply "=" then
    let '(cmd, sep, value) := Py.partition2 "?" "/" reply in
    if negb sep then
      Ok [warning ("Memory query missing ?/ separator: " ++ dquote ++ reply ++ dquote)]
    else
      match REPLY_MAP_get REPLY_MAP cmd with
      | None =>
          Ok [warning ("Unknown command prefix in response: " ++ reply
                       ++ " " ++ dquote ++ cmd ++ dquote)]
      | Some tag =>
          match Py.int16 value with
          | Some v => Ok [event tag v]
          | None => Raise ValueError
          end
      end
  else Ok [].

(** The [for] loop: the calls made before the first exception, and
    that exception if there is one. *)
Fixpoint for_replies (replies : list string) : list GuiCall * option exn :=
  match replies with
  | [] => ([], None)
  | reply :: rest =>
      match handle_reply reply with
      | Ok calls =>
          let '(more, e) := for_replies rest in (calls ++ more, e)
      | Raise e => ([], Some e)
      end
  end.

(** How a run of [listen] stands after a finite script of socket
    results: still in its [while True], left by [break], or ended by
    an exception neither [except] clause names. *)
Inductive Status : Type :=
| Listening
| Closed
| Died (e : exn).

(** [listen], driven by the successive results of [recv]. *)
Fixpoint listen (script : list Recv) (recv_buffer : list byte)
  : list GuiCall * Status :=
  match script with
  | [] => ([], Listening)
  | r :: script' =>
      let '(buffer, text) := read recv_buffer r in
      let '(calls, raised) :=
        match text with
        | Ok s => for_replies (Py.split s)
        | Raise e => ([], Some e)
        end in
      match raised with
      | None =>
          let '(more, st) := listen script' buffer in (calls ++ more, st)
      | Some (UserWarning msg) =>
          let '(more, st) := listen script' buffer in
          (calls ++ warning msg :: more, st)
      | Some OSError =>
          (calls ++ [warning "Warning: QEMU connection closed"], Closed)
      | Some e => (calls, Died e)
      end
  end.

(** The token sequences of successive [read]s, as [listen] sees them:
    [self.read().split()] for each chunk received, a read that raises
    contributing no token. Returns the tokens and the final buffer. *)
Definition tokens_of (text : result string) : list string :=
  match text with
  | Ok s => Py.split s
  | Raise _ => []
  end.

Fixpoint feed (recv_buffer : list byte) (chunks : list (list byte))
  : list string * list byte :=
  match chunks with
  | [] => ([], recv_buffer)
  | chunk :: rest =>
      let '(buffer, text) := read recv_buffer (Data chunk) in
      let '(tokens, final) := feed buffer rest in
      (tokens_of text ++ tokens, final)
  end.

(** What [read] and [split] make of data that is ASCII throughout:
    the tokens before the last whitespace byte, and the bytes after it. *)
Definition frame (data : list byte) : list string * list byte :=
  let kept := pop_tail (rev data) [] in
  (Py.split (string_of_list_byte (rev (fst kept))), snd kept).

(** *** write *)

(** [self.socket.send(data)] as the loop sees it: the [k]-th call,
    offered [data], reports how many bytes it took, or raises (a
    timeout, a broken pipe, a connection reset: an [OSError] each). *)
Definition Socket : Type := nat -> list byte -> result nat.

(** A socket that takes whatever it is offered. *)
Definition accepting : Socket := fun _ offered => Ok (List.length offered).

Record WriteState : Type := mkWriteState {
  total : nat;
  calls : nat;
  wire : list byte;
  warnings : list string
}.

(** Before the first [send]. *)
Definition start : WriteState :=
  {| total := 0; calls := 0; wire := []; warnings := [] |}.

(** One turn of [while total < len(message)]: an exception of [send]
    leaves the loop, a [send] that took nothing is reported to the GUI
    and the loop goes on. *)
Definition write_step (send : Socket) (message : list byte) (st : WriteState)
  : result unit * WriteState :=
  let offered := skipn (total st) message in
  match send (calls st) offered with
  | Ok sent =>
      (Ok tt,
       {| total := total st + sent;
          calls := S (calls st);
          wire := wire st ++ firstn sent offered;
          warnings :=
            if Nat.eqb sent 0
            then warnings st ++
                 ["Warning: QEMU connection send error "
                  ++ Py.repr_bytes message]%string
            else warnings st |})
  | Raise e =>
      (Raise e,
       {| total := total st;
          calls := S (calls st);
          wire := wire st;
          warnings := warnings st |})
  end.

(** The loop of [write], run for at most [fuel] turns: [None] when it
    is still looping after [fuel] turns. *)
Fixpoint write_loop (fuel : nat) (send : Socket) (message : list byte)
    (st : WriteState) : option (result unit * WriteState) :=
  if (total st <? List.length message)%nat then
    match fuel with
    | O => None
    | S fuel' =>
        match write_step send message st with
        | (Ok _, st') => write_loop fuel' send message st'
        | (Raise e, st') => Some (Raise e, st')
        end
    end
  else Some (Ok tt, st).

(** [write]: a [str] is encoded first, which raises when it is not
    ASCII. *)
Definition write (fuel : nat) (send : Socket) (message : Py.AnyStr)
  : option (result unit * WriteState) :=
  match Py.as_bytes message with
  | None => Some (Raise ValueError, start)
  | Some data => write_loop fuel send data start
  end.

End QEmuListener.

(** ** A state and exception monad for the methods that mutate objects

    A computation receives the objects it may mutate and returns them as
    they are when it ends, whether it returns or raises: what a Python
    method has written before an exception stays written. *)

Definition M (S A : Type) : Type := S -> result A * S.

Definition ret {S A : Type} (a : A) : M S A := fun s => (Ok a, s).

Definition bind {S A B : Type} (c : M S A) (k : A -> M S B) : M S B :=
  fun s =>
    match c s with
    | (Ok a, s') => k a s'
    | (Raise e, s') => (Raise e, s')
    end.

Definition raise {S A : Type} (e : exn) : M S A := fun s => (Raise e, s).

Definition gets {S A : Type} (f : S -> A) : M S A := fun s => (Ok (f s), s).

Definition modify {S : Type} (f : S -> S) : M S unit := fun s => (Ok tt, f s).

(** A lookup that raises [e] when it finds nothing. *)
Definition orelse {S A : Type} (o : option A) (e : exn) : M S A :=
  match o with
  | Some a => ret a
  | None => raise e
  end.

Declare Scope monad_scope.
Delimit Scope monad_scope with monad.
Notation "x <- c ;; k" := (bind c (fun x => k))
  (at level 61, c at next level, right associativity) : monad_scope.
Notation "c ;; k" := (bind c (fun _ => k))
  (at level 61, right associativity) : monad_scope.

(** [for a in l: body(a)] *)
Fixpoint for_each {S A : Type} (l : list A) (body : A -> M S unit) : M S unit :=
  match l with
  | [] => ret tt
  | a :: rest => bind (body a) (fun _ => for_each rest body)
  end.

(** [if cond: body] *)
Definition when {S : Type} (cond : bool) (body : M S unit) : M S unit :=
  if cond then body else ret tt.

(** [try: body finally: cleanup]: the cleanup runs whether the body
    returns or raises, and the outcome of the body stands unless the
    cleanup raises. *)
Definition finally {S A : Type} (body : M S A) (cleanup : M S unit) : M S A :=
  fun s =>
    let '(r, s') := body s in
    match cleanup s' with
    | (Ok _, s'') => (r, s'')
    | (Raise e, s'') => (Raise e, s'')
    end.

(** ** WmsBoard: the state of the graphic board display *)

(** [canvas.create_image(x, y, image=..., anchor=tk.NW)]; the image is
    named by the file it was loaded from. *)
Inductive Draw : Type :=
| create_image (at_x at_y : Z) (image : string).

Record WmsBoard : Type := mkWmsBoard {
  canvas : list Draw;
  latch : bool;
  latched : list bool;
  sseg : Z;
  motor : bool;
  sprite : Z;
  direction : Z
}.

(** The objects a board method can mutate: the board itself and the
    listener passed as [qemu] ([None] when there is none), which is
    kept as the messages handed to its [write], oldest first. *)
Record Env : Type := mkEnv {
  self : WmsBoard;
  qemu : option (list string)
}.

Module WmsBoard.

(** [WmsBoard.__init__] *)
Definition init : WmsBoard :=
  {| canvas := [];
     latch := false;
     latched := repeat false (List.length Board.buttons);
     sseg := 0;
     motor := false;
     sprite := 0;
     direction := 0 |}.

(** What [__init__] establishes and every method keeps: a latched
    flag per button, a segment mask of four bits, a sprite frame that
    indexes the three motor images. *)
Definition valid (b : WmsBoard) : Prop :=
  List.length (latched b) = List.length Board.buttons
  /\ 0 <= sseg b < 16
  /\ 0 <= sprite b < 3.

(** The part of the board that [valid] reads. *)
Definition shape (b : WmsBoard) : nat * Z * Z :=
  (List.length (latched b), sseg b, sprite b).

Definition with_canvas (v : list Draw) (b : WmsBoard) : WmsBoard :=
  mkWmsBoard v (latch b) (latched b) (sseg b) (motor b) (sprite b) (direction b).
Definition with_latch (v : bool) (b : WmsBoard) : WmsBoard :=
  mkWmsBoard (canvas b) v (latched b) (sseg b) (motor b) (sprite b) (direction b).
Definition with_latched (v : list bool) (b : WmsBoard) : WmsBoard :=
  mkWmsBoard (canvas b) (latch b) v (sseg b) (motor b) (sprite b) (direction b).
Definition with_sseg (v : Z) (b : WmsBoard) : WmsBoard :=
  mkWmsBoard (canvas b) (latch b) (latched b) v (motor b) (sprite b) (direction b).
Definition with_motor (v : bool) (b : WmsBoard) : WmsBoard :=
  mkWmsBoard (canvas b) (latch b) (latched b) (sseg b) v (sprite b) (direction b).
Definition with_sprite (v : Z) (b : WmsBoard) : WmsBoard :=
  mkWmsBoard (canvas b) (latch b) (latched b) (sseg b) (motor b) v (direction b).
Definition with_direction (v : Z) (b : WmsBoard) : WmsBoard :=
  mkWmsBoard (canvas b) (latch b) (latched b) (sseg b) (motor b) (sprite b) v.

Definition on_self (f : WmsBoard -> WmsBoard) (env : Env) : Env :=
  mkEnv (f (self env)) (qemu env).

Local Open Scope monad_scope.

(** [self.canvas.create_image(x, y, image=image, anchor=tk.NW)] *)
Definition draw (px py : Z) (image : string) : M Env unit :=
  modify (on_self (fun b => with_canvas (canvas b ++ [create_image px py image]) b)).

(** [qemu.write(message)] on the listener that was passed *)
Definition qemu_write (message : string) : M Env unit :=
  modify (fun env => mkEnv (self env) (option_map (fun out => out ++ [message]) (qemu env))).

(** [Board.overlays[tag]] *)
Definition overlay_item (tag : string) : M Env Overlay :=
  orelse (Board.get tag) KeyError.

(** [overlay.images[i]] *)
Definition image_item (overlay : Overlay) (i : Z) : M Env string :=
  orelse (Py.index (images overlay) i) IndexError.

(** [self.latched[button.pin]]; subscripting with [None] is a
    [TypeError]. *)
Definition latched_item (button : Button) : M Env bool :=
  match pin button with
  | None => raise TypeError
  | Some p =>
      l <- gets (fun env => latched (self env)) ;;
      orelse (Py.index l p) IndexError
  end.

(** [self.latched[button.pin] = v] *)
Definition latched_assign (button : Button) (v : bool) : M Env unit :=
  match pin button with
  | None => raise TypeError
  | Some p =>
      l <- gets (fun env => latched (self env)) ;;
      l' <- orelse (Py.set_index l p v) IndexError ;;
      modify (on_self (with_latched l'))
  end.

Definition find_button (px py : Z) : option Button :=
  find (fun button =>
          (x button - radius button <=? px) && (px <=? x button + radius button)
          && ((y button - radius button <=? py) && (py <=? y button + radius button)))
       Board.buttons.

Definition update_device (pin level : Z) : M Env unit :=
  if (8 <=? pin) && (pin <=? 11) then
    overlay <- overlay_item "led" ;;
    xy <- orelse (Py.index Board.led_xy (pin - 8)) IndexError ;;
    image <- image_item overlay level ;;
    draw (fst xy) (snd xy) image ;;
    (if Py.truthy level
     then modify (on_self (fun b => with_sseg (Z.lor (sseg b) (Z.shiftl 1 (pin - 8))) b))
     else modify (on_self (fun b =>
            with_sseg (Z.land (sseg b) (Z.lnot (Z.shiftl 1 (pin - 8)))) b))) ;;
    overlay <- orelse (Board.get "sseg") AttributeError ;;
    segments <- gets (fun env => sseg (self env)) ;;
    image <- image_item overlay segments ;;
    draw (overlay_x overlay) (overlay_y overlay) image
  else if pin =? 12 then
    overlay <- overlay_item "motor" ;;
    frame <- gets (fun env => sprite (self env)) ;;
    image <- image_item overlay frame ;;
    draw (overlay_x overlay) (overlay_y overlay) image ;;
    running <- gets (fun env => motor (self env)) ;;
    when (running && negb (Py.truthy level))
      (overlay <- overlay_item "spinner" ;;
       image <- image_item overlay 0 ;;
       draw (overlay_x overlay) (overlay_y overlay) image) ;;
    modify (on_self (with_motor (Py.truthy level)))
  else if pin =? 13 then
    modify (on_self (with_direction level))
  else if pin =? 14 then
    modify (on_self (with_latch (Py.truthy level))) ;;
    enabled <- gets (fun env => latch (self env)) ;;
    when (negb enabled)
      (for_each Board.buttons (fun button =>
         if negb (ButtonStyle.eqb (style button) ButtonStyle.latch) then ret tt
         else
           latched_assign button false ;;
           has_qemu <- gets (fun env => match qemu env with Some _ => true | None => false end) ;;
           when has_qemu (qemu_write (up button))) ;;
       for_each ["PS1"; "PS2"; "PS3"]%string (fun ps =>
         overlay <- overlay_item ps ;;
         image <- image_item overlay 0 ;;
         draw (overlay_x overlay) (overlay_y overlay) image))
  else ret tt.

Definition animate : M Env unit :=
  running <- gets (fun env => motor (self env)) ;;
  when running
    (overlay <- overlay_item "motor" ;;
     frame <- gets (fun env => sprite (self env)) ;;
     image <- image_item overlay frame ;;
     draw (overlay_x overlay) (overlay_y overlay) image ;;
     modify (on_self (fun b =>
       with_sprite ((sprite b + 1) mod Z.of_nat (List.length (images overlay))) b)) ;;
     overlay <- overlay_item "spinner" ;;
     dir <- gets (fun env => direction (self env)) ;;
     image <- image_item overlay (dir + 1) ;;
     draw (overlay_x overlay) (overlay_y overlay) image).

Definition update_button (button : Button) (level : Z) : M Env unit :=
  match Board.get (name button) with
  | Some overlay =>
      image <- image_item overlay level ;;
      draw (overlay_x overlay) (overlay_y overlay) image
  | None => ret tt
  end.

(** The part of [button_down] after the style tests. *)
Definition press (button : Button) : M Env unit :=
  update_button button 1 ;;
  has_qemu <- gets (fun env => match qemu env with Some _ => true | None => false end) ;;
  when (has_qemu && negb (String.eqb (down button) ""))
    (qemu_write (down button)).

Definition button_down (button : Button) : M Env unit :=
  match style button with
  | ButtonStyle.latch =>
      enabled <- gets (fun env => latch (self env)) ;;
      held <- (if enabled then latched_item button else ret false) ;;
      if enabled && held then ret tt
      else
        enabled <- gets (fun env => latch (self env)) ;;
        latched_assign button enabled ;;
        press button
  | ButtonStyle.door =>
      held <- latched_item button ;;
      if held then latched_assign button false
      else
        latched_assign button true ;;
        press button
  | ButtonStyle.plain => press button
  end.

(** The part of [button_up] after the style tests. *)
Definition release (button : Button) : M Env unit :=
  update_button button 0 ;;
  has_qemu <- gets (fun env => match qemu env with Some _ => true | None => false end) ;;
  when (has_qemu && negb (String.eqb (up button) ""))
    (qemu_write (up button)).

Definition button_up (button : Button) : M Env unit :=
  match style button with
  | ButtonStyle.latch =>
      enabled <- gets (fun env => latch (self env)) ;;
      held <- (if enabled then latched_item button else ret false) ;;
      if enabled && held then ret tt else release button
  | ButtonStyle.door =>
      held <- latched_item button ;;
      if held then ret tt else release button
  | ButtonStyle.plain => release button
  end.

End WmsBoard.

(** ** WmsGui: the controller

    The Tk widgets are kept by what they hold: a label by the value it
    shows, a check box by its [IntVar], the warning field by its text, the
    [Text] widget of the serial console by its contents. [listener] is
    the listener object, kept as the messages handed to its [write] (the
    loop of [write] over the socket is [QEmuListener.write_loop]; a
    socket that takes each message whole puts it on the wire as it is);
    [serial] is the serial socket, kept as the chunks that wait to be
    received; [connected] is what [do_enable_buttons] was last given;
    [timers] are the calls of [root.after], [popups] the exceptions shown
    by [messagebox.showerror]. *)

(** Callbacks handed to [root.after]. *)
Inductive Callback : Type :=
| call_do_warning (value : string)
| call_on_timer_running
| call_do_connect
| call_do_connect_serial.

Record WmsGui : Type := mkWmsGui {
  stopping : bool;
  button : option Button;
  listener : option (list string);
  serial : option (list (list byte));
  device_ticks : Z;
  warn_ticks : Z;
  connecting : bool;
  host : string;
  warn_field : string;
  cursor : string;
  connected : bool;
  mode : Z;
  idr : Z;
  sr : Z;
  cr1 : Z;
  gpiod : Z;
  usart3 : Z;
  pins : list Z;
  board : WmsBoard;
  putty : string;
  timers : list (Z * Callback);
  popups : list exn
}.

Module WmsGui.

Definition set_stopping (v : bool) (g : WmsGui) : WmsGui :=
  mkWmsGui v (button g) (listener g) (serial g) (device_ticks g)
    (warn_ticks g) (connecting g) (host g) (warn_field g) (cursor g)
    (connected g) (mode g) (idr g) (sr g) (cr1 g) (gpiod g) (usart3 g)
    (pins g) (board g) (putty g) (timers g) (popups g).
Definition set_button (v : option Button) (g : WmsGui) : WmsGui :=
  mkWmsGui (stopping g) v (listener g) (serial g) (device_ticks g)
    (warn_ticks g) (connecting g) (host g) (warn_field g) (cursor g)
    (connected g) (mode g) (idr g) (sr g) (cr1 g) (gpiod g) (usart3 g)
    (pins g) (board g) (putty g) (timers g) (popups g).
Definition set_listener (v : option (list string)) (g : WmsGui) : WmsGui :=
  mkWmsGui (stopping g) (button g) v (serial g) (device_ticks g)
    (warn_ticks g) (connecting g) (host g) (warn_field g) (cursor g)
    (connected g) (mode g) (idr g) (sr g) (cr1 g) (gpiod g) (usart3 g)
    (pins g) (board g) (putty g) (timers g) (popups g).
Definition set_serial (v : option (list (list byte))) (g : WmsGui) : WmsGui :=
  mkWmsGui (stopping g) (button g) (listener g) v (device_ticks g)
    (warn_ticks g) (connecting g) (host g) (warn_field g) (cursor g)
    (connected g) (mode g) (idr g) (sr g) (cr1 g) (gpiod g) (usart3 g)
    (pins g) (board g) (putty g) (timers g) (popups g).
Definition set_device_ticks (v : Z) (g : WmsGui) : WmsGui :=
  mkWmsGui (stopping g) (button g) (listener g) (serial g) v
    (warn_ticks g) (connecting g) (host g) (warn_field g) (cursor g)
    (connected g) (mode g) (idr g) (sr g) (cr1 g) (gpiod g) (usart3 g)
    (pins g) (board g) (putty g) (timers g) (popups g).
Definition set_warn_ticks (v : Z) (g : WmsGui) : WmsGui :=
  mkWmsGui (stopping g) (button g) (listener g) (serial g)
    (device_ticks g) v (connecting g) (host g) (warn_field g) (cursor g)
    (connected g) (mode g) (idr g) (sr g) (cr1 g) (gpiod g) (usart3 g)
    (pins g) (board g) (putty g) (timers g) (popups g).
Definition set_connecting (v : bool) (g : WmsGui) : WmsGui :=
  mkWmsGui (stopping g) (button g) (listener g) (serial g)
    (device_ticks g) (warn_ticks g) v (host g) (warn_field g) (cursor g)
    (connected g) (mode g) (idr g) (sr g) (cr1 g) (gpiod g) (usart3 g)
    (pins g) (board g) (putty g) (timers g) (popups g).
Definition set_host (v : string) (g : WmsGui) : WmsGui :=
  mkWmsGui (stopping g) (button g) (listener g) (serial g)
    (device_ticks g) (warn_ticks g) (connecting g) v (warn_field g)
    (cursor g) (connected g) (mode g) (idr g) (sr g) (cr1 g) (gpiod g)
    (usart3 g) (pins g) (board g) (putty g) (timers g) (popups g).
Definition set_warn_field (v : string) (g : WmsGui) : WmsGui :=
  mkWmsGui (stopping g) (button g) (listener g) (serial g)
    (device_ticks g) (warn_ticks g) (connecting g) (host g) v (cursor g)
    (connected g) (mode g) (idr g) (sr g) (cr1 g) (gpiod g) (usart3 g)
    (pins g) (board g) (putty g) (timers g) (popups g).
Definition set_cursor (v : string) (g : WmsGui) : WmsGui :=
  mkWmsGui (stopping g) (button g) (listener g) (serial g)
    (device_ticks g) (warn_ticks g) (connecting g) (host g) (warn_field g) v
    (connected g) (mode g) (idr g) (sr g) (cr1 g) (gpiod g) (usart3 g)
    (pins g) (board g) (putty g) (timers g) (popups g).
Definition set_connected (v : bool) (g : WmsGui) : WmsGui :=
  mkWmsGui (stopping g) (button g) (listener g) (serial g)
    (device_ticks g) (warn_ticks g) (connecting g) (host g) (warn_field g)
    (cursor g) v (mode g) (idr g) (sr g) (cr1 g) (gpiod g) (usart3 g)
    (pins g) (board g) (putty g) (timers g) (popups g).
Definition set_mode (v : Z) (g : WmsGui) : WmsGui :=
  mkWmsGui (stopping g) (button g) (listener g) (serial g)
    (device_ticks g) (warn_ticks g) (connecting g) (host g) (warn_field g)
    (cursor g) (connected g) v (idr g) (sr g) (cr1 g) (gpiod g) (usart3 g)
    (pins g) (board g) (putty g) (timers g) (popups g).
Definition set_idr (v : Z) (g : WmsGui) : WmsGui :=
  mkWmsGui (stopping g) (button g) (listener g) (serial g)
    (device_ticks g) (warn_ticks g) (connecting g) (host g) (warn_field g)
    (cursor g) (connected g) (mode g) v (sr g) (cr1 g) (gpiod g) (usart3 g)
    (pins g) (board g) (putty g) (timers g) (popups g).
Definition set_sr (v : Z) (g : WmsGui) : WmsGui :=
  mkWmsGui (stopping g) (button g) (listener g) (serial g)
    (device_ticks g) (warn_ticks g) (connecting g) (host g) (warn_field g)
    (cursor g) (connected g) (mode g) (idr g) v (cr1 g) (gpiod g) (usart3 g)
    (pins g) (board g) (putty g) (timers g) (popups g).
Definition set_cr1 (v : Z) (g : WmsGui) : WmsGui :=
  mkWmsGui (stopping g) (button g) (listener g) (serial g)
    (device_ticks g) (warn_ticks g) (connecting g) (host g) (warn_field g)
    (cursor g) (connected g) (mode g) (idr g) (sr g) v (gpiod g) (usart3 g)
    (pins g) (board g) (putty g) (timers g) (popups g).
Definition set_gpiod (v : Z) (g : WmsGui) : WmsGui :=
  mkWmsGui (stopping g) (button g) (listener g) (serial g)
    (device_ticks g) (warn_ticks g) (connecting g) (host g) (warn_field g)
    (cursor g) (connected g) (mode g) (idr g) (sr g) (cr1 g) v (usart3 g)
    (pins g) (board g) (putty g) (timers g) (popups g).
Definition set_usart3 (v : Z) (g : WmsGui) : WmsGui :=
  mkWmsGui (stopping g) (button g) (listener g) (serial g)
    (device_ticks g) (warn_ticks g) (connecting g) (host g) (warn_field g)
    (cursor g) (connected g) (mode g) (idr g) (sr g) (cr1 g) (gpiod g) v
    (pins g) (board g) (putty g) (timers g) (popups g).
Definition set_pins (v : list Z) (g : WmsGui) : WmsGui :=
  mkWmsGui (stopping g) (button g) (listener g) (serial g)
    (device_ticks g) (warn_ticks g) (connecting g) (host g) (warn_field g)
    (cursor g) (connected g) (mode g) (idr g) (sr g) (cr1 g) (gpiod g)
    (usart3 g) v (board g) (putty g) (timers g) (popups g).
Definition set_board (v : WmsBoard) (g : WmsGui) : WmsGui :=
  mkWmsGui (stopping g) (button g) (listener g) (serial g)
    (device_ticks g) (warn_ticks g) (connecting g) (host g) (warn_field g)
    (cursor g) (connected g) (mode g) (idr g) (sr g) (cr1 g) (gpiod g)
    (usart3 g) (pins g) v (putty g) (timers g) (popups g).
Definition set_putty (v : string) (g : WmsGui) : WmsGui :=
  mkWmsGui (stopping g) (button g) (listener g) (serial g)
    (device_ticks g) (warn_ticks g) (connecting g) (host g) (warn_field g)
    (cursor g) (connected g) (mode g) (idr g) (sr g) (cr1 g) (gpiod g)
    (usart3 g) (pins g) (board g) v (timers g) (popups g).
Definition set_timers (v : list (Z * Callback)) (g : WmsGui) : WmsGui :=
  mkWmsGui (stopping g) (button g) (listener g) (serial g)
    (device_ticks g) (warn_ticks g) (connecting g) (host g) (warn_field g)
    (cursor g) (connected g) (mode g) (idr g) (sr g) (cr1 g) (gpiod g)
    (usart3 g) (pins g) (board g) (putty g) v (popups g).
Definition set_popups (v : list exn) (g : WmsGui) : WmsGui :=
  mkWmsGui (stopping g) (button g) (listener g) (serial g)
    (device_ticks g) (warn_ticks g) (connecting g) (host g) (warn_field g)
    (cursor g) (connected g) (mode g) (idr g) (sr g) (cr1 g) (gpiod g)
    (usart3 g) (pins g) (board g) (putty g) (timers g) v.

Local Open Scope monad_scope.

(** [WmsGui.__init__]; its closing call of [self.warning] is the timer
    it leaves. *)
Definition init : WmsGui :=
  {| stopping := false;
     button := None;
     listener := None;
     serial := None;
     device_ticks := 0;
     warn_ticks := 0;
     connecting := true;
     host := "localhost";
     warn_field := "";
     cursor := "";
     connected := false;
     mode := 0;
     idr := 0;
     sr := 0;
     cr1 := 0;
     gpiod := 0;
     usart3 := 0;
     pins := repeat 0 7;
     board := WmsBoard.init;
     putty := "";
     timers :=
       [(10, call_do_warning
               ("Use " ++ dquote ++ "Connect" ++ dquote ++ " or " ++ dquote
                ++ "Connect+Serial" ++ dquote ++ " to attach to QEMU/WMS"))];
     popups := [] |}.

(** Runs a board method on [self.board], passing [self.listener] as
    [qemu] when [pass_listener] and [None] otherwise. The listener
    object the method wrote to is the one the GUI holds. *)
Definition call_board (pass_listener : bool) (method : M Env unit)
  : M WmsGui unit :=
  fun g =>
    let env := mkEnv (board g) (if pass_listener then listener g else None) in
    let '(r, env') := method env in
    (r, set_board (self env')
          (if pass_listener then set_listener (qemu env') g else g)).

(** [self.listener.write(message)]; without a listener the attribute
    access fails. *)
Definition listener_write (message : string) : M WmsGui unit :=
  l <- gets listener ;;
  match l with
  | None => raise AttributeError
  | Some out => modify (set_listener (Some (out ++ [message])))
  end.

(** [self.root.after(ms, callback)] *)
Definition after (ms : Z) (callback : Callback) : M WmsGui unit :=
  modify (fun g => set_timers (timers g ++ [(ms, callback)]) g).

(** [do_warning]; [now] is [datetime.now()] formatted as [%H:%M:%S]. *)
Definition do_warning (now value : string) : M WmsGui unit :=
  if negb (String.eqb value "") then
    modify (set_warn_field (now ++ " " ++ value)) ;;
    modify (set_warn_ticks POLL)
  else
    modify (set_warn_field "") ;;
    modify (set_warn_ticks 0).

Definition warning (msg : string) : M WmsGui unit :=
  after 10 (call_do_warning msg).

(** The [catch()] decorator: a [UserWarning] becomes a warning, any
    other exception a popup unless the GUI is stopping. *)
Definition catch (handler : M WmsGui unit) : M WmsGui unit :=
  fun g =>
    match handler g with
    | (Ok tt, g') => (Ok tt, g')
    | (Raise (UserWarning msg), g') => warning msg g'
    | (Raise e, g') =>
        if stopping g' then (Ok tt, g')
        else (Ok tt, set_popups (popups g' ++ [e]) g')
    end.

Definition Button_eqb (a b : Button) : bool :=
  String.eqb (name a) (name b)
  && match pin a, pin b with
     | Some p, Some q => p =? q
     | None, None => true
     | _, _ => false
     end
  && ButtonStyle.eqb (style a) (style b)
  && String.eqb (down a) (down b) && String.eqb (up a) (up b)
  && (x a =? x b) && (y a =? y b) && (radius a =? radius b).

Definition on_move (px py : Z) : M WmsGui unit :=
  let found := WmsBoard.find_button px py in
  current <- gets button ;;
  let same :=
    match found, current with
    | Some a, Some b => Button_eqb a b
    | None, None => true
    | _, _ => false
    end in
  when (negb same)
    (modify (set_cursor (match found with Some _ => "hand2" | None => "" end)) ;;
     modify (set_button found)).

Definition on_b1_down : M WmsGui unit :=
  catch
    (current <- gets button ;;
     match current with
     | Some b => call_board true (WmsBoard.button_down b)
     | None => ret tt
     end).

Definition on_b1_up : M WmsGui unit :=
  catch
    (current <- gets button ;;
     match current with
     | Some b =>
         when (Py.startswith (up b) "reset") (modify (set_gpiod 0)) ;;
         call_board true (WmsBoard.button_up b)
     | None => ret tt
     end).

(** [do_check_status]. No handler calls it. Its two [write] calls pass
    two arguments to a method that takes one, which is a [TypeError]
    when there is a listener. *)
Definition do_check_status : M WmsGui unit :=
  ticks <- gets warn_ticks ;;
  when (Py.truthy ticks)
    (modify (fun g => set_warn_ticks (warn_ticks g + POLL) g) ;;
     ticks <- gets warn_ticks ;;
     when (DISPLAY_WARN <=? ticks) (warning "")) ;;
  modify (fun g => set_device_ticks (device_ticks g + POLL) g) ;;
  ticks <- gets device_ticks ;;
  let check_devices := DEVICE_POLL <=? ticks in
  when check_devices (modify (set_device_ticks 0)) ;;
  bad_write <- gets (fun g =>
    match listener g with Some _ => TypeError | None => AttributeError end) ;;
  on <- gets gpiod ;;
  when (check_devices || negb (Py.truthy on)) (raise bad_write) ;;
  on <- gets usart3 ;;
  when (check_devices || negb (Py.truthy on)) (raise bad_write).

(** The replay of [on_message] for the first [idr] value. *)
Definition resync (value : Z) : M WmsGui unit :=
  for_each [8; 9; 10; 11; 12; 13; 14] (fun pin =>
    when (Py.truthy (Z.land (Z.shiftr value pin) 1))
      (call_board true (WmsBoard.update_device pin 1))) ;;
  for_each Board.buttons (fun b =>
    match pin b with
    | None => ret tt
    | Some p =>
        when (Py.truthy (Z.land (Z.shiftr value p) 1))
          (call_board false (WmsBoard.button_down b) ;;
           call_board false (WmsBoard.button_up b))
    end).

Definition on_message (tag value : Z) : M WmsGui unit :=
  if tag =? QEmuTag.gpiod_enabled then
    let gpiod_on := Z.land (Z.shiftr value 3) 1 in
    modify (set_gpiod (if Py.truthy gpiod_on then 1 else 0))
  else if tag =? QEmuTag.moder then
    modify (set_mode value)
  else if tag =? QEmuTag.idr then
    modify (set_idr value) ;;
    pending <- gets connecting ;;
    when pending
      (modify (set_connecting false) ;;
       resync value) ;;
    modify (fun g =>
      set_pins (map (fun i => Z.land (Z.shiftr value (8 + Z.of_nat i)) 1)
                    (seq 0 (List.length (pins g)))) g)
  else if tag =? QEmuTag.pin_low then
    call_board true (WmsBoard.update_device value 0)
  else if tag =? QEmuTag.pin_high then
    call_board true (WmsBoard.update_device value 1)
  else if tag =? QEmuTag.usart3_enabled then
    let usart3_on := Z.land (Z.shiftr value 18) 1 in
    modify (set_usart3 (if Py.truthy usart3_on then 1 else 0))
  else if tag =? QEmuTag.sr then
    modify (set_sr value)
  else if tag =? QEmuTag.cr1 then
    modify (set_cr1 value)
  else ret tt.

Definition do_query_qemu : M WmsGui unit :=
  on <- gets gpiod ;;
  when (Py.truthy on)
    (listener_write "D0? " ;; listener_write "D4? ") ;;
  on <- gets usart3 ;;
  when (Py.truthy on)
    (listener_write "U0? " ;; listener_write "U3? ").

(** [QEmuSerial.read] on the chunk that waits first: [None] when the
    non-blocking [recv] has nothing, the decoded text otherwise. *)
Definition serial_read (data : list byte) : result string :=
  match Py.decode_ascii (QEmuListener.strip_escape data) with
  | Some text => Ok text
  | None => Raise ValueError
  end.

(** The loop of [do_poll_serial] over the chunks that wait. *)
Fixpoint poll_serial (waiting : list (list byte)) : M WmsGui unit :=
  match waiting with
  | [] => ret tt
  | data :: rest =>
      modify (set_serial (Some rest)) ;;
      match serial_read data with
      | Raise e => raise e
      | Ok text =>
          if String.eqb text "" then ret tt
          else
            modify (fun g => set_putty (putty g ++ text) g) ;;
            poll_serial rest
      end
  end.

Definition do_poll_serial : M WmsGui unit :=
  s <- gets serial ;;
  match s with
  | Some waiting => poll_serial waiting
  | None => ret tt
  end.

Definition on_timer_running : M WmsGui unit :=
  catch
    (do_poll_serial ;;
     do_query_qemu ;;
     call_board false WmsBoard.animate ;;
     l <- gets listener ;;
     when (match l with Some _ => true | None => false end)
       (listener_write Board.rcc_ahbenr ;;
        s <- gets serial ;;
        when (match s with Some _ => true | None => false end)
          (listener_write Board.rcc_apb1enr)) ;;
     halted <- gets stopping ;;
     when (negb halted) (after POLL call_on_timer_running)).

(** [close] *)
Definition close : M WmsGui unit := modify (set_stopping true).

(** Where [QEmuListener.__init__] stands when a socket call raises: in
    [socket.create_connection], or in one of its two calls of [write],
    which come after the listener thread was started. *)
Inductive Stage : Type :=
| AtConnect
| AtNoecho
| AtListen.

(** What [QEmuListener(self, host=self.host)] does. It returns, with
    the thread started and both commands written. Or a socket call raises
    an exception that [__init__] turns into [WmsError] with a message
    ([socket.gaierror] from [create_connection]; [socket.timeout],
    [ConnectionRefusedError] or [BrokenPipeError] from any of the
    calls). Or a socket call raises an [OSError] that no [except] clause
    of [__init__] names, [ConnectionResetError] for one, and that
    exception leaves the constructor. *)
Inductive Dial : Type :=
| Connected
| WmsError (stage : Stage) (err : string)
| Unhandled (stage : Stage).

(** Whether the constructor has started the listener thread, which
    then runs [listen] on the socket whether the constructor returns or
    raises. *)
Definition thread_started (dial : Dial) : bool :=
  match dial with
  | Connected => true
  | WmsError AtConnect _ | Unhandled AtConnect => false
  | WmsError _ _ | Unhandled _ => true
  end.

(** The commands the constructor has handed to [write] and seen
    written whole, when it returns or raises. *)
Definition written (dial : Dial) : list string :=
  match dial with
  | Connected => ["noecho "; "listen "]%string
  | WmsError AtListen _ | Unhandled AtListen => ["noecho "]%string
  | WmsError _ _ | Unhandled _ => []
  end.

(** [do_connect]; [ok] is the answer to the [askokcancel] dialog. The
    listener is assigned to [self.listener] only when the constructor
    returns; an exception other than [WmsError] leaves [do_connect]
    through its [finally] clause. *)
Definition do_connect (dial : Dial) (ok : bool) (now : string) : M WmsGui unit :=
  finally
    (match dial with
     | Connected =>
         modify (set_listener (Some (written dial))) ;;
         warning "Connected to QEMU" ;;
         modify (set_connected true) ;;
         after POLL call_on_timer_running
     | WmsError _ _ =>
         if negb ok then close
         else
           h <- gets host ;;
           do_warning now ("Cannot connect to QEMU on " ++ h)
     | Unhandled _ => raise OSError
     end)
    (halted <- gets stopping ;;
     when (negb halted) (modify (set_cursor ""))).

Definition on_connect (now : string) : M WmsGui unit :=
  catch
    (modify (set_cursor "watch") ;;
     do_warning now "Connecting to QEMU diagnostics..." ;;
     after 50 call_do_connect).

Definition on_halt : M WmsGui unit :=
  catch
    (l <- gets listener ;;
     when (match l with Some _ => true | None => false end)
       (listener_write "halt ") ;;
     modify (set_stopping true)).

(** What the Tk main loop can deliver to the GUI. *)
Inductive Input : Type :=
| Message (tag value : Z)
| DoWarning (now value : string)
| Move (px py : Z)
| B1Down
| B1Up
| TimerRunning
| SerialData (data : list byte)
| Connect (now : string)
| DoConnect (dial : Dial) (ok : bool) (now : string)
| Halt.

Definition handler (i : Input) : M WmsGui unit :=
  match i with
  | Message tag value => on_message tag value
  | DoWarning now value => do_warning now value
  | Move px py => on_move px py
  | B1Down => on_b1_down
  | B1Up => on_b1_up
  | TimerRunning => on_timer_running
  | SerialData data =>
      modify (fun g => set_serial (option_map (fun w => w ++ [data]) (serial g)) g)
  | Connect now => on_connect now
  | DoConnect dial ok now => do_connect dial ok now
  | Halt => on_halt
  end.

(** One turn of the main loop: an exception that leaves a handler is
    reported by Tk and the loop goes on. *)
Definition step (g : WmsGui) (i : Input) : WmsGui := snd (handler i g).

Definition run (g : WmsGui) (inputs : list Input) : WmsGui :=
  fold_left step inputs g.

(** The test [(value >> pin) & 1] of [on_message]. *)
Definition bit_set (value pin : Z) : bool :=
  Py.truthy (Z.land (Z.shiftr value pin) 1).

(** The latched flags after a press and a release of [b] with no
    listener, when the bit of its pin is set in [value]: the door
    toggles, a latch-style button takes the value of the latch flag
    [enabled], a plain button keeps its flag. *)
Definition seed (value : Z) (enabled : bool) (flags : list bool) (b : Button)
  : list bool :=
  match pin b with
  | None => flags
  | Some p =>
      if bit_set value p then
        let held := nth (Z.to_nat p) flags false in
        Py.set_nth flags (Z.to_nat p)
          match style b with
          | ButtonStyle.door => negb held
          | ButtonStyle.latch => enabled
          | ButtonStyle.plain => held
          end
      else flags
  end.


(** The number of calls of [root.after] so far with a callback that
    [select] picks. *)
Definition scheduled (select : Callback -> bool) (g : WmsGui) : nat :=
  List.length (filter (fun t => select (snd t)) (timers g)).

Definition is_do_connect (c : Callback) : bool :=
  match c with call_do_connect => true | _ => false end.

Definition is_on_timer_running (c : Callback) : bool :=
  match c with call_on_timer_running => true | _ => false end.

Definition is_do_warning (value : string) (c : Callback) : bool :=
  match c with call_do_warning v => String.eqb v value | _ => false end.

(** Whether the main loop can deliver [i] after it has delivered
    [history] to a new GUI. Nothing is delivered once the GUI is
    stopping. The [Connect] button delivers while [do_enable_buttons]
    has it enabled, the [Halt] button while it has that one enabled. A
    timer callback fires once for each time it was scheduled. A message
    needs a listener thread, a warning a timer or a listener thread,
    serial data a serial socket. The pointer is free. *)
Definition deliverable (history : list Input) (i : Input) : bool :=
  let g := run init history in
  let fired (same : Input -> bool) := List.length (filter same history) in
  let threads :=
    existsb (fun h => match h with
                      | DoConnect dial _ _ => thread_started dial
                      | _ => false
                      end) history in
  negb (stopping g)
  && match i with
     | Connect _ => negb (connected g)
     | Halt => connected g
     | DoConnect _ _ _ =>
         (fired (fun h => match h with DoConnect _ _ _ => true | _ => false end)
          <? scheduled is_do_connect g)%nat
     | TimerRunning =>
         (fired (fun h => match h with TimerRunning => true | _ => false end)
          <? scheduled is_on_timer_running g)%nat
     | Message _ _ => threads
     | DoWarning _ value =>
         threads
         || (fired (fun h => match h with
                             | DoWarning _ v => String.eqb v value
                             | _ => false
                             end)
             <? scheduled (is_do_warning value) g)%nat
     | SerialData _ => match serial g with Some _ => true | None => false end
     | Move _ _ | B1Down | B1Up => true
     end.

(** Whether the main loop can deliver [inputs], in this order, after
    [history]. *)
Fixpoint realizable_after (history inputs : list Input) : bool :=
  match inputs with
  | [] => true
  | i :: rest => deliverable history i && realizable_after (history ++ [i]) rest
  end.

(** The runs a new GUI can have. *)
Definition realizable (inputs : list Input) : bool := realizable_after [] inputs.

(** How the calls of the listener thread reach the main loop:
    [event] generates a [<<message>>] event, [warning] a timer that
    calls [do_warning]. *)
Definition deliver (now : string) (c : QEmuListener.GuiCall) : Input :=
  match c with
  | QEmuListener.event tag value => Message tag value
  | QEmuListener.warning msg => DoWarning now msg
  end.

End WmsGui.

(** A computation keeps [f] when [f] reads the same in the state it
    leaves, whether it returns or raises. *)
Definition keeps {X A : Type} (f : WmsGui -> X) (c : M WmsGui A) : Prop :=
  forall g, f (snd (c g)) = f g.

(** What holds of the GUI between two handlers: the board is valid
    and the button under the pointer, if any, is one of the table. *)
Definition sane (g : WmsGui) : Prop :=
  WmsBoard.valid (board g)
  /\ match button g with
     | Some b => In b Board.buttons
     | None => True
     end.

(** A computation preserves [P] when [P] holds of the state it leaves,
    whether it returns or raises, if it held of the state it found. *)
Definition preserves {A : Type} (P : WmsGui -> Prop) (c : M WmsGui A) : Prop :=
  forall g, P g -> P (snd (c g)).

(** ** QEmuSerial: the serial console on port 7777 *)

Module QEmuSerial.

(** What [self.socket.recv(12)] can do on the non-blocking socket:
    deliver bytes, or raise [BlockingIOError] or [socket.timeout]. *)
Inductive Recv : Type :=
| Data (received : list byte)
| WouldBlock.

(** [read]: the text, [None] when nothing waits; a decoding error is not
    caught. *)
Definition read (r : Recv) : result (option string) :=
  match r with
  | Data received =>
      match Py.decode_ascii (QEmuListener.strip_escape received) with
      | Some text => Ok (Some text)
      | None => Raise ValueError
      end
  | WouldBlock => Ok None
  end.

(** The loop of [write], run for at most [fuel] turns: an exception
    of [send] leaves the loop, a [send] that reports zero bytes raises
    [UserWarning]. [None] when the loop is still running after [fuel]
    turns. *)
Fixpoint write_loop (fuel : nat) (send : QEmuListener.Socket)
    (message : list byte) (st : QEmuListener.WriteState)
  : option (result unit * QEmuListener.WriteState) :=
  if (QEmuListener.total st <? List.length message)%nat then
    match fuel with
    | O => None
    | S fuel' =>
        let offered := skipn (QEmuListener.total st) message in
        match send (QEmuListener.calls st) offered with
        | Raise e =>
            Some (Raise e,
                  QEmuListener.mkWriteState
                    (QEmuListener.total st) (S (QEmuListener.calls st))
                    (QEmuListener.wire st) (QEmuListener.warnings st))
        | Ok sent =>
            if Nat.eqb sent 0 then
              Some (Raise (UserWarning ("Warning: QEMU usart send error "
                                        ++ Py.repr_bytes message)),
                    QEmuListener.mkWriteState
                      (QEmuListener.total st) (S (QEmuListener.calls st))
                      (QEmuListener.wire st) (QEmuListener.warnings st))
            else
              write_loop fuel' send message
                (QEmuListener.mkWriteState
                   (QEmuListener.total st + sent) (S (QEmuListener.calls st))
                   (QEmuListener.wire st ++ firstn sent offered)
                   (QEmuListener.warnings st))
        end
    end
  else Some (Ok tt, st).

(** [write]: a [str] is encoded first, which raises when it is not
    ASCII. *)
Definition write (fuel : nat) (send : QEmuListener.Socket)
    (message : Py.AnyStr)
  : option (result unit * QEmuListener.WriteState) :=
  match Py.as_bytes message with
  | None => Some (Raise ValueError, QEmuListener.start)
  | Some data => write_loop fuel send data QEmuListener.start
  end.

End QEmuSerial.

(** A computation is quiet when it never raises [UserWarning], the one
    exception the [catch] decorator turns into a warning. *)
Definition quiet {S A : Type} (c : M S A) : Prop :=
  forall s msg, fst (c s) <> Raise (UserWarning msg).

(** A board method keeps [f] when [f] reads the same of the board and
    the listener it leaves. *)
Definition env_keeps {X A : Type} (f : Env -> X) (c : M Env A) : Prop :=
  forall env, f (snd (c env)) = f env.

(** The test of [find_button]: the point lies in the square around the
    button. *)
Definition inside (b : Button) (px py : Z) : Prop :=
  x b - radius b <= px <= x b + radius b
  /\ y b - radius b <= py <= y b + radius b.

(** What [update_button(button, level)] draws: the image [level] of the
    overlay named like the button, nothing when there is no such overlay. *)
Definition overlay_draw (button : Button) (level : Z) : list Draw :=
  match Board.get (name button) with
  | Some overlay =>
      match Py.index (images overlay) level with
      | Some image => [create_image (overlay_x overlay) (overlay_y overlay) image]
      | None => []
      end
  | None => []
  end.

(** The direction of the board a method works on. *)
Definition env_direction (env : Env) : Z := direction (self env).

(** The direction is 0 or 1. *)
Definition turning (g : WmsGui) : Prop := 0 <= direction (board g) <= 1.

(** The part of the board that the pins drive. *)
Definition registers (b : WmsBoard) : bool * Z * bool * Z * Z :=
  (latch b, sseg b, motor b, sprite b, direction b).

(** The timers that would clear the warning field. *)
Definition clearing (t : Z * Callback) : Prop :=
  snd t = call_do_warning EmptyString.

(** No timer that would clear the warning field. *)
Definition none_clearing (g : WmsGui) : Prop :=
  Forall (fun t => ~ clearing t) (timers g).





(** * Properties *)

Unset Implicit Arguments.

(** ** Sanity checks of the embedding on the examples of the protocol *)

Example split_example : Py.split " ab  c d " = ["ab"; "c"; "d"]%string.
Proof. reflexivity. Qed.

Example int16_examples :
  Py.int16 "000f" = Some 15 /\ Py.int16 "0x_1F" = Some 31 /\
  Py.int16 "-a" = Some (-10) /\ Py.int16 "1__0" = None /\
  Py.int16 "g" = None /\ Py.int16 "" = None.
Proof. repeat split; reflexivity. Qed.

Example listen_example :
  QEmuListener.listen
    [QEmuListener.Data (list_byte_of_string "=d4?/000f -a3 +a");
     QEmuListener.TimedOut;
     QEmuListener.Data (list_byte_of_string "9 =zz?/01 =d0?01 ?x ")] []
  = ([QEmuListener.event 14 15; QEmuListener.event 0 3;
      QEmuListener.warning "Warning: QEMU receiver timeout";
      QEmuListener.event 1 9;
      QEmuListener.warning
        ("Unknown command prefix in response: =zz?/01 " ++ dquote ++ "=zz" ++ dquote);
      QEmuListener.warning
        ("Memory query missing ?/ separator: " ++ dquote ++ "=d0?01" ++ dquote);
      QEmuListener.warning "Invalid command response: ?x"],
     QEmuListener.Listening).
Proof. vm_compute. reflexivity. Qed.

(** ** The framer: [QEmuListener.read] *)

Section Framer.

Import QEmuListener.

Lemma strip_escape_ascii (data : list byte) :
  forallb Py.byte_is_ascii data = true -> strip_escape data = data.
Proof.
  destruct data as [|b rest]; simpl; [reflexivity|].
  intros H. apply andb_prop in H as [Hb _].
  destruct (Byte.eqb b xff) eqn:E; [|reflexivity].
  apply Byte.byte_dec_bl in E. subst b. discriminate Hb.
Qed.

Lemma strip_escape_escapes (esc rest : list byte) :
  escapes esc -> strip_escape (esc ++ rest) = strip_escape rest.
Proof.
  induction 1 as [|a b l _ IH]; simpl; auto.
Qed.

(** *** The second loop *)

Lemma pop_tail_no_space (a b buffer : list byte) :
  existsb Py.byte_isspace a = false ->
  pop_tail (a ++ b) buffer = pop_tail b (rev a ++ buffer).
Proof.
  revert buffer. induction a as [|c a IH]; intros buffer H; simpl in *.
  - reflexivity.
  - apply orb_false_iff in H as [Hc Ha]. rewrite Hc.
    rewrite IH by assumption. now rewrite <- app_assoc.
Qed.

Lemma pop_tail_space (a b buffer : list byte) :
  existsb Py.byte_isspace a = true ->
  pop_tail (a ++ b) buffer
  = (fst (pop_tail a buffer) ++ b, snd (pop_tail a buffer)).
Proof.
  revert buffer. induction a as [|c a IH]; intros buffer H; simpl in *.
  - discriminate.
  - destruct (Py.byte_isspace c) eqn:Hc; simpl in *.
    + reflexivity.
    + now apply IH.
Qed.

(** What the loop leaves on the stack is settled, and nothing is lost. *)
Lemma pop_tail_settled (stack buffer : list byte) :
  settled (fst (pop_tail stack buffer)).
Proof.
  revert buffer. induction stack as [|c below IH]; intros buffer; simpl.
  - constructor.
  - destruct (Py.byte_isspace c) eqn:Hc; simpl; [now constructor | apply IH].
Qed.

Lemma pop_tail_keeps (stack buffer : list byte) :
  rev (fst (pop_tail stack buffer)) ++ snd (pop_tail stack buffer)
  = rev stack ++ buffer.
Proof.
  revert buffer. induction stack as [|c below IH]; intros buffer; simpl.
  - reflexivity.
  - destruct (Py.byte_isspace c) eqn:Hc; simpl; [reflexivity|].
    rewrite IH. now rewrite <- app_assoc.
Qed.

Lemma pop_tail_settled_id (stack buffer : list byte) :
  settled stack -> pop_tail stack buffer = (stack, buffer).
Proof.
  destruct 1 as [|c below Hc]; simpl; [reflexivity | now rewrite Hc].
Qed.

(** Reading [data ++ more] at once settles like reading [data], then
    reading what was kept with [more] after it. *)
Lemma pop_tail_extend (data more : list byte) :
  let first := pop_tail (rev data) [] in
  let second := pop_tail (rev (snd first ++ more)) [] in
  pop_tail (rev (data ++ more)) [] = (fst second ++ fst first, snd second).
Proof.
  intros first second.
  assert (Hd : data = rev (fst first) ++ snd first).
  { pose proof (pop_tail_keeps (rev data) []) as K.
    rewrite rev_involutive, app_nil_r in K. now symmetry. }
  assert (Hs : settled (fst first)) by apply pop_tail_settled.
  assert (E : rev (data ++ more) = rev (snd first ++ more) ++ fst first).
  { rewrite Hd at 1. rewrite <- app_assoc, rev_app_distr.
    now rewrite rev_involutive. }
  rewrite E.
  destruct (existsb Py.byte_isspace (rev (snd first ++ more))) eqn:X.
  - now rewrite pop_tail_space.
  - rewrite pop_tail_no_space by assumption.
    rewrite pop_tail_settled_id by assumption.
    subst second.
    pose proof (pop_tail_no_space (rev (snd first ++ more)) [] [] X) as N.
    rewrite app_nil_r in N. rewrite N. simpl. reflexivity.
Qed.

(** *** Decoding and splitting *)

Lemma string_of_list_byte_app (a b : list byte) :
  string_of_list_byte (a ++ b)
  = (string_of_list_byte a ++ string_of_list_byte b)%string.
Proof.
  unfold string_of_list_byte.
  induction a as [|c a IH]; simpl; [reflexivity | now rewrite IH].
Qed.

Lemma append_assoc (a b c : string) :
  ((a ++ b) ++ c = a ++ (b ++ c))%string.
Proof. induction a as [|d a IH]; simpl; [reflexivity | now rewrite IH]. Qed.

Lemma byte_isspace_isspace (b : byte) :
  Py.byte_isspace b = true -> Py.isspace (ascii_of_byte b) = true.
Proof.
  unfold Py.isspace. rewrite byte_of_ascii_of_byte.
  destruct b; simpl; intros H; try discriminate H; reflexivity.
Qed.

Lemma split_from_space (a b word : string) (c : ascii) :
  Py.isspace c = true ->
  Py.split_from (a ++ String c b) word
  = Py.split_from (a ++ String c EmptyString) word ++ Py.split_from b EmptyString.
Proof.
  intros Hc. revert word.
  induction a as [|d a IH]; intros word; simpl.
  - rewrite Hc. destruct word; simpl; now rewrite ?app_nil_r.
  - destruct (Py.isspace d).
    + destruct word; simpl; now rewrite IH.
    + apply IH.
Qed.

(** Text that ends where the second loop stopped splits apart from
    whatever follows it. *)
Lemma split_settled (stack : list byte) (after : string) :
  settled stack ->
  Py.split (string_of_list_byte (rev stack) ++ after)
  = Py.split (string_of_list_byte (rev stack)) ++ Py.split after.
Proof.
  unfold Py.split. destruct 1 as [|c below Hc]; simpl.
  - reflexivity.
  - rewrite string_of_list_byte_app. simpl.
    change (string_of_list_byte [c]) with (String (ascii_of_byte c) EmptyString).
    rewrite append_assoc. simpl.
    apply split_from_space. now apply byte_isspace_isspace.
Qed.

Lemma decode_ascii_ok (data : list byte) :
  forallb Py.byte_is_ascii data = true ->
  Py.decode_ascii data = Some (string_of_list_byte data).
Proof. unfold Py.decode_ascii. now intros ->. Qed.

(** *** Reading ASCII *)

Lemma ascii_stack (data : list byte) :
  forallb Py.byte_is_ascii data = true ->
  forallb Py.byte_is_ascii (rev (fst (pop_tail (rev data) []))) = true
  /\ forallb Py.byte_is_ascii (snd (pop_tail (rev data) [])) = true.
Proof.
  intros H. pose proof (pop_tail_keeps (rev data) []) as K.
  rewrite rev_involutive, app_nil_r in K.
  rewrite <- K, forallb_app in H. now apply andb_prop in H.
Qed.

Lemma read_ascii (recv_buffer chunk data : list byte) :
  strip_escape (recv_buffer ++ chunk) = data ->
  forallb Py.byte_is_ascii data = true ->
  read recv_buffer (Data chunk)
  = (snd (pop_tail (rev data) []),
     Ok (string_of_list_byte (rev (fst (pop_tail (rev data) []))))).
Proof.
  intros E H. unfold read. rewrite E.
  destruct (ascii_stack data H) as [Hs _].
  destruct (pop_tail (rev data) []) as [stack buffer]; simpl in *.
  now rewrite decode_ascii_ok.
Qed.

Lemma frame_extend (data more : list byte) :
  frame (data ++ more)
  = (fst (frame data) ++ fst (frame (snd (frame data) ++ more)),
     snd (frame (snd (frame data) ++ more))).
Proof.
  unfold frame. simpl. rewrite pop_tail_extend. simpl.
  rewrite rev_app_distr, string_of_list_byte_app.
  rewrite split_settled by apply pop_tail_settled.
  reflexivity.
Qed.

Lemma feed_ascii (chunks : list (list byte)) (recv_buffer chunk : list byte) :
  forallb Py.byte_is_ascii (recv_buffer ++ chunk ++ List.concat chunks) = true ->
  feed recv_buffer (chunk :: chunks)
  = frame (recv_buffer ++ chunk ++ List.concat chunks).
Proof.
  revert recv_buffer chunk.
  induction chunks as [|next chunks IH]; intros recv_buffer chunk H.
  - simpl List.concat in *. rewrite app_nil_r in *.
    cbn [feed].
    rewrite (read_ascii recv_buffer chunk (recv_buffer ++ chunk))
      by (auto using strip_escape_ascii).
    unfold frame. cbn [tokens_of]. now rewrite app_nil_r.
  - assert (H1 : forallb Py.byte_is_ascii (recv_buffer ++ chunk) = true).
    { rewrite app_assoc, forallb_app in H. now apply andb_prop in H. }
    assert (H2 : forallb Py.byte_is_ascii (List.concat (next :: chunks)) = true).
    { rewrite app_assoc, forallb_app in H. now apply andb_prop in H. }
    change (feed recv_buffer (chunk :: next :: chunks))
      with (let '(buffer, text) := read recv_buffer (Data chunk) in
            let '(tokens, final) := feed buffer (next :: chunks) in
            (tokens_of text ++ tokens, final)).
    rewrite (read_ascii recv_buffer chunk (recv_buffer ++ chunk))
      by (auto using strip_escape_ascii).
    destruct (ascii_stack _ H1) as [_ Hk].
    set (kept := pop_tail (rev (recv_buffer ++ chunk)) []) in *.
    cbv beta iota.
    rewrite (IH (snd kept) next)
      by (simpl List.concat in H2; rewrite forallb_app, Hk; exact H2).
    rewrite (app_assoc recv_buffer chunk), (frame_extend (recv_buffer ++ chunk)).
    simpl List.concat. cbn [tokens_of].
    change (snd (frame (recv_buffer ++ chunk))) with (snd kept).
    change (fst (frame (recv_buffer ++ chunk)))
      with (Py.split (string_of_list_byte (rev (fst kept)))).
    now destruct (frame (snd kept ++ next ++ List.concat chunks)).
Qed.

(** C1, as amended. A byte sequence that is ASCII after a run of
    whole escape triplets which the first chunk holds complete, split
    in any way into one or more chunks for successive [read]s, yields
    the concatenation of the chunks' token sequences equal to the token
    sequence of a single [read] of the whole sequence, and leaves the
    same bytes in [recv_buffer]; a token cut by a chunk boundary is
    put together again. *)
Theorem read_split_invariant
    (recv_buffer chunk : list byte) (chunks : list (list byte))
    (esc body : list byte) :
  recv_buffer ++ chunk = esc ++ body ->
  escapes esc ->
  forallb Py.byte_is_ascii (body ++ List.concat chunks) = true ->
  feed recv_buffer (chunk :: chunks)
  = (tokens_of (snd (read recv_buffer (Data (chunk ++ List.concat chunks)))),
     fst (read recv_buffer (Data (chunk ++ List.concat chunks)))).
Proof.
  intros Hsplit Hesc Hascii.
  assert (Hbody : forallb Py.byte_is_ascii body = true).
  { rewrite forallb_app in Hascii. now apply andb_prop in Hascii. }
  assert (E1 : read recv_buffer (Data chunk) = read [] (Data body)).
  { rewrite (read_ascii recv_buffer chunk body); auto.
    - rewrite (read_ascii [] body body); auto.
      now apply strip_escape_ascii.
    - rewrite Hsplit, strip_escape_escapes by assumption.
      now apply strip_escape_ascii. }
  assert (E2 : feed recv_buffer (chunk :: chunks) = feed [] (body :: chunks)).
  { cbn [feed]. now rewrite E1. }
  rewrite E2, feed_ascii by exact Hascii.
  rewrite (read_ascii recv_buffer (chunk ++ List.concat chunks)
             (body ++ List.concat chunks)); auto.
  rewrite app_assoc, Hsplit, <- app_assoc, strip_escape_escapes by assumption.
  now apply strip_escape_ascii.
Qed.

Lemma read_split_invariant_witness :
  let esc := [xff; xfb; x01] in
  let body := list_byte_of_string "=d4?/0" in
  let chunks := [list_byte_of_string "00f -"; list_byte_of_string "a3 +a"] in
  ([] ++ (esc ++ body) = esc ++ body
   /\ escapes esc
   /\ forallb Py.byte_is_ascii (body ++ List.concat chunks) = true)
  /\ feed [] ((esc ++ body) :: chunks)
     = (tokens_of (snd (read [] (Data ((esc ++ body) ++ List.concat chunks)))),
        fst (read [] (Data ((esc ++ body) ++ List.concat chunks)))).
Proof.
  intros esc body chunks.
  assert (H1 : [] ++ (esc ++ body) = esc ++ body) by reflexivity.
  assert (H2 : escapes esc) by (repeat constructor).
  assert (H3 : forallb Py.byte_is_ascii (body ++ List.concat chunks) = true)
    by reflexivity.
  split; [auto | exact (read_split_invariant [] (esc ++ body) chunks esc body H1 H2 H3)].
Defined.

(** C1 as stated fails when a chunk boundary cuts an escape triplet:
    [FF | FB 01 "+a9 "] read in two chunks yields no token (the first
    [read] drops the lone [0xFF], the second cannot decode [0xFB]),
    read in one chunk it yields the token [+a9]. *)
Lemma split_escape_counterexample :
  let chunks := [[xff]; [xfb; x01] ++ list_byte_of_string "+a9 "] in
  fst (feed [] chunks) = []
  /\ tokens_of (snd (read [] (Data (List.concat chunks)))) = ["+a9"]%string
  /\ fst (feed [] chunks)
     <> tokens_of (snd (read [] (Data (List.concat chunks)))).
Proof. repeat split. discriminate. Qed.

(** The same without any non-ASCII byte after the [0xFF]: the two
    bytes that follow it in the next chunk are taken for text. *)
Example split_escape_text :
  fst (feed [] [[xff]; list_byte_of_string "xya "]) = ["xya"]%string
  /\ tokens_of (snd (read [] (Data (xff :: list_byte_of_string "xya "))))
     = ["a"]%string.
Proof. split; reflexivity. Qed.

(** The buffer between two reads holds no whitespace byte: no complete
    token waits in it. *)
Lemma recv_buffer_unterminated (recv_buffer : list byte) (r : Recv) :
  existsb Py.byte_isspace recv_buffer = false ->
  existsb Py.byte_isspace (fst (read recv_buffer r)) = false.
Proof.
  intros H. destruct r as [received| |]; simpl; try assumption.
  assert (G : forall stack buffer,
             existsb Py.byte_isspace buffer = false ->
             existsb Py.byte_isspace (snd (pop_tail stack buffer)) = false).
  { induction stack as [|c below IH]; intros buffer Hb; simpl; auto.
    destruct (Py.byte_isspace c) eqn:Hc; simpl; auto.
    apply IH. simpl. now rewrite Hc. }
  specialize (G (rev (strip_escape (recv_buffer ++ received))) [] eq_refl).
  destruct (pop_tail _ _) as [stack buffer]; simpl in *.
  now destruct (Py.decode_ascii (rev stack)).
Qed.

End Framer.

(** ** The decoder loop: [QEmuListener.listen] *)

Section Listen.

Import QEmuListener.

(** The replies [listen] answers with a warning do not stop the loop. *)
Lemma for_replies_continues (reply : string) (rest : list string)
    (calls : list GuiCall) :
  handle_reply reply = Ok calls ->
  for_replies (reply :: rest)
  = (calls ++ fst (for_replies rest), snd (for_replies rest)).
Proof.
  intros H. simpl. rewrite H. now destruct (for_replies rest).
Qed.

Example warnings_continue :
  listen [Data (list_byte_of_string "?x =zz?/01 =d0?01 +a9 ")] []
  = ([warning "Invalid command response: ?x";
      warning ("Unknown command prefix in response: =zz?/01 "
               ++ dquote ++ "=zz" ++ dquote);
      warning ("Memory query missing ?/ separator: "
               ++ dquote ++ "=d0?01" ++ dquote);
      event QEmuTag.pin_high 9], Listening).
Proof. vm_compute. reflexivity. Qed.

(** C2 fails on the code. A token too short for [reply[2]] raises
    [IndexError] and a token with bad hexadecimal digits raises
    [ValueError]; [listen] catches [UserWarning] and [OSError] only, so
    the exception ends the listener: no warning is issued and the
    tokens that follow, here a valid [+b3], are never handled. *)
Theorem listen_dies_on_malformed_token :
  listen [Data (list_byte_of_string "-a +b3 ")] [] = ([], Died IndexError)
  /\ listen [Data (list_byte_of_string "=d4?/zz +b3 ")] [] = ([], Died ValueError)
  /\ listen [Data (list_byte_of_string "+ag +b3 ")] [] = ([], Died ValueError)
  /\ listen [Data (list_byte_of_string "+b3 ")] [] = ([event QEmuTag.pin_high 3], Listening).
Proof. repeat split; vm_compute; reflexivity. Qed.

End Listen.

(** ** Sending: [QEmuListener.write] *)

Section Sending.

Import QEmuListener.

Lemma skipn_more {A : Type} (l : list A) (n : nat) :
  (n < List.length l)%nat -> skipn n l <> [].
Proof.
  intros H E. apply (f_equal (@List.length A)) in E.
  rewrite length_skipn in E. simpl in E. lia.
Qed.

Lemma firstn_plus {A : Type} (l : list A) (a b : nat) :
  firstn (a + b) l = firstn a l ++ firstn b (skipn a l).
Proof.
  revert l. induction a as [|a IH]; intros l; simpl; [reflexivity|].
  destruct l as [|h t]; simpl; [now rewrite firstn_nil | now rewrite IH].
Qed.

(** The loop on a socket whose [send], from the call the loop is at,
    takes at least one byte and at most what it is offered, or raises:
    it ends within as many turns as bytes are left, with the bytes
    taken so far on the wire, in order. It has taken them all when it
    returns; when it raises, the exception is the one its last [send]
    raised. *)
Lemma write_loop_ends (send : Socket) (message : list byte) :
  forall fuel st,
    (forall k offered, (calls st <= k)%nat -> offered <> [] ->
       match send k offered with
       | Ok n => (1 <= n <= List.length offered)%nat
       | Raise _ => True
       end) ->
    wire st = firstn (total st) message ->
    (total st <= List.length message)%nat ->
    (List.length message - total st <= fuel)%nat ->
    exists r st',
      write_loop fuel send message st = Some (r, st')
      /\ (calls st' <= calls st + fuel)%nat
      /\ warnings st' = warnings st
      /\ wire st' = firstn (total st') message
      /\ match r with
         | Ok _ => total st' = List.length message
         | Raise e =>
             (total st' < List.length message)%nat
             /\ send (pred (calls st')) (skipn (total st') message) = Raise e
         end.
Proof.
  induction fuel as [|fuel IH]; intros st Hsend Hw Hle Hfuel; simpl;
    destruct (Nat.ltb_spec (total st) (List.length message)) as [Hlt|Hge];
    try lia.
  - exists (Ok tt), st. repeat split; auto; lia.
  - pose proof (Hsend (calls st) _ (Nat.le_refl _) (skipn_more message _ Hlt))
      as Hs.
    unfold write_step.
    destruct (send (calls st) (skipn (total st) message)) as [n|e] eqn:E.
    + rewrite length_skipn in Hs.
      destruct (IH {| total := total st + n;
                      calls := S (calls st);
                      wire := wire st ++ firstn n (skipn (total st) message);
                      warnings :=
                        if Nat.eqb n 0
                        then warnings st ++
                             ["Warning: QEMU connection send error "
                              ++ Py.repr_bytes message]%string
                        else warnings st |})
        as (r & st' & L & C & W & X & R); simpl.
      * intros k offered Hk. apply Hsend. lia.
      * now rewrite Hw, firstn_plus.
      * lia.
      * lia.
      * exists r, st'. split; [exact L|]. split; [simpl in C; lia|].
        split; [|split; [exact X | exact R]].
        rewrite W. simpl. destruct (Nat.eqb_spec n 0); [lia | reflexivity].
    + exists (Raise e),
        {| total := total st; calls := S (calls st);
           wire := wire st; warnings := warnings st |}.
      simpl. repeat split; auto; lia.
  - exists (Ok tt), st. repeat split; auto; lia.
Qed.


(** A message the socket takes whole is on the wire after one [send]:
    what the GUI hands to [write] is what the peer receives. *)
Lemma write_accepting (data : list byte) :
  data <> [] ->
  write 1 accepting (Py.Bytes data)
  = Some (Ok tt,
          {| total := List.length data;
             calls := 1;
             wire := data;
             warnings := [] |}).
Proof.
  intros Hne. unfold write. cbn [Py.as_bytes].
  destruct data as [|b bytes]; [contradiction|].
  cbn -[Nat.ltb firstn]. unfold accepting. cbn -[Nat.ltb firstn].
  rewrite Nat.ltb_irrefl. change (0 <? S (List.length bytes))%nat with true.
  cbn -[firstn].
  change (S (List.length bytes)) with (List.length (b :: bytes)).
  now rewrite firstn_all.
Qed.



(** A socket that times out: the exception of [send] leaves [write],
    with what was taken before on the wire. *)
Example write_timeout :
  let send : Socket :=
    fun k _ => match k with O => Ok 3%nat | _ => Raise OSError end in
  write 7 send (Py.text "noecho ")
  = Some (Raise OSError,
          {| total := 3; calls := 2;
             wire := list_byte_of_string "noe"; warnings := [] |}).
Proof. reflexivity. Qed.

(** A [str] that is not ASCII is not sent. *)
Example write_not_ascii :
  write 0 accepting (Py.Str [104; 233]%N) = Some (Raise ValueError, start).
Proof. reflexivity. Qed.

End Sending.

(** ** The board: [WmsBoard.update_device] *)

Section UpdateDevice.

Lemma update_device_ignores (pin level : Z) (env : Env) :
  pin < 8 \/ 14 < pin ->
  WmsBoard.update_device pin level env = (Ok tt, env).
Proof.
  intros H. unfold WmsBoard.update_device.
  replace ((8 <=? pin) && (pin <=? 11)) with false
    by (symmetry; apply andb_false_iff; lia).
  destruct (Z.eqb_spec pin 12); [lia|].
  destruct (Z.eqb_spec pin 13); [lia|].
  destruct (Z.eqb_spec pin 14); [lia|].
  reflexivity.
Qed.

(** C10. For a pin below 8 or above 14 and any level, [update_device]
    returns without changing the board (segment mask, motor flag,
    sprite frame, direction, latch flag, latched flags, canvas) and
    without writing to the listener. *)
Theorem update_device_other_pins (pin level : Z) (env : Env) :
  pin < 8 \/ 14 < pin ->
  WmsBoard.update_device pin level env = (Ok tt, env).
Proof. exact (update_device_ignores pin level env). Qed.

Lemma update_device_other_pins_witness :
  (3 < 8 \/ 14 < 3)
  /\ WmsBoard.update_device 3 1 (mkEnv WmsBoard.init (Some []))
     = (Ok tt, mkEnv WmsBoard.init (Some [])).
Proof.
  assert (H : 3 < 8 \/ 14 < 3) by (left; lia).
  split; [exact H | exact (update_device_other_pins 3 1 _ H)].
Defined.

Example update_device_pin_15 :
  WmsBoard.update_device 15 0 (mkEnv WmsBoard.init (Some []))
  = (Ok tt, mkEnv WmsBoard.init (Some [])).
Proof. reflexivity. Qed.

(** The up commands of the latch-style buttons, in table order. *)
Lemma latch_up_commands :
  map up (filter (fun b => ButtonStyle.eqb (style b) ButtonStyle.latch) Board.buttons)
  = ["D0d1 "; "D0d2 "; "D0d3 "; "D0d4 "; "D0d5 "]%string.
Proof. reflexivity. Qed.

(** C7, as amended. [update_device(14, level)] sets [latch] to
    [bool(level)]. Whenever the level is 0, whether [latch] was set
    before or not, it clears the latched flag of every latch-style
    button (pins 1 to 5), writes their up commands to the listener if
    there is one, and draws the unlatched images of PS1, PS2 and PS3;
    the flags of the door and of the motor button stay. With a level
    other than 0 nothing else changes. *)
Theorem update_device_latch_pin
    (level : Z) (b : WmsBoard) (q : option (list string))
    (l0 l1 l2 l3 l4 l5 l6 l7 : bool) :
  latched b = [l0; l1; l2; l3; l4; l5; l6; l7] ->
  WmsBoard.update_device 14 level (mkEnv b q)
  = (Ok tt,
     if level =? 0 then
       mkEnv
         {| canvas := canvas b ++ [create_image 702 26 "ps1-0.png";
                                   create_image 667 26 "ps2-0.png";
                                   create_image 632 26 "ps3-0.png"];
            latch := false;
            latched := [l0; false; false; false; false; false; l6; l7];
            sseg := sseg b;
            motor := motor b;
            sprite := sprite b;
            direction := direction b |}
         (option_map
            (fun out => out ++ ["D0d1 "; "D0d2 "; "D0d3 "; "D0d4 "; "D0d5 "]%string)
            q)
     else mkEnv (WmsBoard.with_latch true b) q).
Proof.
  intros Hl. destruct b as [cv en ls sg mo sp di]. simpl in Hl. subst ls.
  unfold WmsBoard.update_device, Py.truthy.
  destruct (level =? 0); simpl.
  - destruct q as [out|]; cbv -[app];
      repeat (rewrite <- app_assoc; cbn [app]); reflexivity.
  - reflexivity.
Qed.

Lemma update_device_latch_pin_witness :
  latched WmsBoard.init = [false; false; false; false; false; false; false; false]
  /\ WmsBoard.update_device 14 0 (mkEnv WmsBoard.init (Some []))
     = (Ok tt,
        mkEnv
          {| canvas := [create_image 702 26 "ps1-0.png";
                        create_image 667 26 "ps2-0.png";
                        create_image 632 26 "ps3-0.png"];
             latch := false;
             latched := [false; false; false; false; false; false; false; false];
             sseg := 0;
             motor := false;
             sprite := 0;
             direction := 0 |}
          (Some ["D0d1 "; "D0d2 "; "D0d3 "; "D0d4 "; "D0d5 "]%string)).
Proof.
  assert (H : latched WmsBoard.init
              = [false; false; false; false; false; false; false; false])
    by reflexivity.
  split; [exact H|].
  exact (update_device_latch_pin 0 WmsBoard.init (Some []) _ _ _ _ _ _ _ _ H).
Defined.

(** C7 as stated fails on a 0-to-0 application: on a board whose latch
    is already off, with no button latched, a level 0 on pin 14 still
    writes the five up commands and draws the three overlays. *)
Lemma latch_low_twice_counterexample :
  latch WmsBoard.init = false
  /\ qemu (snd (WmsBoard.update_device 14 0 (mkEnv WmsBoard.init (Some []))))
     = Some ["D0d1 "; "D0d2 "; "D0d3 "; "D0d4 "; "D0d5 "]%string
  /\ canvas (self (snd (WmsBoard.update_device 14 0 (mkEnv WmsBoard.init (Some [])))))
     = [create_image 702 26 "ps1-0.png";
        create_image 667 26 "ps2-0.png";
        create_image 632 26 "ps3-0.png"]
  /\ snd (WmsBoard.update_device 14 0 (mkEnv WmsBoard.init (Some [])))
     <> mkEnv WmsBoard.init (Some []).
Proof. repeat split. discriminate. Qed.

End UpdateDevice.

(** ** The buttons: [WmsBoard.button_down] and [button_up] *)

Section Buttons.

Lemma door_button_is (button : Button) :
  In button Board.buttons -> style button = ButtonStyle.door ->
  button = mkButton "door" (Some 0) ButtonStyle.door "D0L0 " "D0d0 " 730 310 15.
Proof.
  intros Hin Hs. simpl in Hin.
  repeat (destruct Hin as [<-|Hin]; [try discriminate Hs; try reflexivity|]).
  contradiction.
Qed.

(** C6. A door-style button of the table whose latched flag is clear,
    pressed, released, pressed and released with a listener attached:
    the first press sets the flag, draws the open door and writes the
    down command; the first release changes nothing; the second press
    only clears the flag; the second release draws the closed door and
    writes the up command. Two commands are written in all and the flag
    ends clear. *)
Theorem door_press_release_twice
    (button : Button) (p : Z) (b : WmsBoard) (out : list string)
    (rest : list bool) :
  In button Board.buttons ->
  style button = ButtonStyle.door ->
  pin button = Some p ->
  latched b = false :: rest ->
  let opened :=
    WmsBoard.with_canvas (canvas b ++ [create_image 711 301 "door-open.png"])
      (WmsBoard.with_latched (true :: rest) b) in
  let closing := WmsBoard.with_latched (false :: rest) opened in
  let closed :=
    WmsBoard.with_canvas (canvas opened ++ [create_image 711 301 "door-closed.png"])
      closing in
  p = 0
  /\ WmsBoard.button_down button (mkEnv b (Some out))
     = (Ok tt, mkEnv opened (Some (out ++ [down button])))
  /\ WmsBoard.button_up button (mkEnv opened (Some (out ++ [down button])))
     = (Ok tt, mkEnv opened (Some (out ++ [down button])))
  /\ WmsBoard.button_down button (mkEnv opened (Some (out ++ [down button])))
     = (Ok tt, mkEnv closing (Some (out ++ [down button])))
  /\ WmsBoard.button_up button (mkEnv closing (Some (out ++ [down button])))
     = (Ok tt, mkEnv closed (Some (out ++ [down button; up button])))
  /\ down button = "D0L0 "%string /\ up button = "D0d0 "%string.
Proof.
  intros Hin Hs Hp Hl.
  rewrite (door_button_is button Hin Hs) in *.
  simpl in Hp. injection Hp as <-.
  destruct b as [cv en ls sg mo sp di]. simpl in Hl. subst ls.
  cbv -[app]. rewrite <- !app_assoc. cbn [app]. repeat split; reflexivity.
Qed.

Lemma door_press_release_twice_witness :
  let button := mkButton "door" (Some 0) ButtonStyle.door "D0L0 " "D0d0 " 730 310 15 in
  In button Board.buttons
  /\ style button = ButtonStyle.door
  /\ pin button = Some 0
  /\ latched WmsBoard.init = false :: repeat false 7
  /\ WmsBoard.button_down button (mkEnv WmsBoard.init (Some []))
     = (Ok tt,
        mkEnv (WmsBoard.with_canvas [create_image 711 301 "door-open.png"]
                 (WmsBoard.with_latched (true :: repeat false 7) WmsBoard.init))
              (Some ["D0L0 "%string])).
Proof.
  intros button.
  assert (H1 : In button Board.buttons) by (simpl; tauto).
  assert (H2 : style button = ButtonStyle.door) by reflexivity.
  assert (H3 : pin button = Some 0) by reflexivity.
  assert (H4 : latched WmsBoard.init = false :: repeat false 7) by reflexivity.
  repeat (split; [assumption|]).
  exact (proj1 (proj2 (door_press_release_twice button 0 WmsBoard.init []
                         (repeat false 7) H1 H2 H3 H4))).
Defined.

(** The same four steps without a listener write nothing. *)
Example door_sequence_unconnected :
  let button := mkButton "door" (Some 0) ButtonStyle.door "D0L0 " "D0d0 " 730 310 15 in
  let step op env := snd (op env) in
  qemu (step (WmsBoard.button_up button)
         (step (WmsBoard.button_down button)
           (step (WmsBoard.button_up button)
             (step (WmsBoard.button_down button)
                (mkEnv WmsBoard.init None))))) = None.
Proof. reflexivity. Qed.

(** C9, as amended. The reset button of the table is plain, has no
    pin, an empty down command and the up command ["reset "]: with a
    listener attached, pressing it writes nothing and releasing it
    writes ["reset "] and clears the GPIOD check box. The other buttons
    have the commands of the table. *)
Theorem reset_button_commands
    (b : Button) (g : WmsGui) (out : list string) :
  In b Board.buttons ->
  name b = "reset"%string ->
  button g = Some b ->
  listener g = Some out ->
  pin b = None /\ style b = ButtonStyle.plain
  /\ down b = ""%string /\ up b = "reset "%string
  /\ listener (WmsGui.step g WmsGui.B1Down) = Some out
  /\ button (WmsGui.step g WmsGui.B1Down) = Some b
  /\ listener (WmsGui.step (WmsGui.step g WmsGui.B1Down) WmsGui.B1Up)
     = Some (out ++ ["reset "%string])
  /\ gpiod (WmsGui.step (WmsGui.step g WmsGui.B1Down) WmsGui.B1Up) = 0
  /\ map (fun b => (name b, pin b, style b, down b, up b)) (tl Board.buttons)
     = [("door", Some 0, ButtonStyle.door, "D0L0 ", "D0d0 ");
        ("PS1", Some 1, ButtonStyle.latch, "D0L1 ", "D0d1 ");
        ("PS2", Some 2, ButtonStyle.latch, "D0L2 ", "D0d2 ");
        ("PS3", Some 3, ButtonStyle.latch, "D0L3 ", "D0d3 ");
        ("cancel", Some 4, ButtonStyle.latch, "D0L4 ", "D0d4 ");
        ("accept", Some 5, ButtonStyle.latch, "D0L5 ", "D0d5 ");
        ("motor", Some 6, ButtonStyle.plain, "D0L6 ", "D0d6 ")]%string.
Proof.
  intros Hin Hn Hb Hl.
  assert (E : b = mkButton "reset" None ButtonStyle.plain "" "reset " 32 200 8).
  { simpl in Hin.
    repeat (destruct Hin as [<-|Hin]; [try discriminate Hn; try reflexivity|]).
    contradiction. }
  subst b. destruct g. simpl in Hb, Hl. subst.
  cbv -[app]. repeat split; reflexivity.
Qed.

Lemma reset_button_commands_witness :
  let b := mkButton "reset" None ButtonStyle.plain "" "reset " 32 200 8 in
  let g := WmsGui.set_button (Some b) (WmsGui.set_listener (Some []) WmsGui.init) in
  In b Board.buttons /\ name b = "reset"%string
  /\ button g = Some b /\ listener g = Some []
  /\ listener (WmsGui.step g WmsGui.B1Down) = Some []
  /\ listener (WmsGui.step (WmsGui.step g WmsGui.B1Down) WmsGui.B1Up)
     = Some ["reset "%string].
Proof.
  intros b g.
  assert (H1 : In b Board.buttons) by (simpl; tauto).
  assert (H2 : name b = "reset"%string) by reflexivity.
  assert (H3 : button g = Some b) by reflexivity.
  assert (H4 : listener g = Some []) by reflexivity.
  pose proof (reset_button_commands b g [] H1 H2 H3 H4) as R.
  split; [exact H1|]. split; [exact H2|]. split; [exact H3|].
  split; [exact H4|]. split; [apply R | apply R].
Defined.

(** The commands of the other buttons, as the table has them. *)
Lemma button_command_table :
  map (fun b => (name b, pin b, style b, down b, up b)) Board.buttons
  = [("reset", None, ButtonStyle.plain, "", "reset ");
     ("door", Some 0, ButtonStyle.door, "D0L0 ", "D0d0 ");
     ("PS1", Some 1, ButtonStyle.latch, "D0L1 ", "D0d1 ");
     ("PS2", Some 2, ButtonStyle.latch, "D0L2 ", "D0d2 ");
     ("PS3", Some 3, ButtonStyle.latch, "D0L3 ", "D0d3 ");
     ("cancel", Some 4, ButtonStyle.latch, "D0L4 ", "D0d4 ");
     ("accept", Some 5, ButtonStyle.latch, "D0L5 ", "D0d5 ");
     ("motor", Some 6, ButtonStyle.plain, "D0L6 ", "D0d6 ")]%string.
Proof. reflexivity. Qed.

(** C9 as stated fails: the reset button's down command is empty, not
    ["reset "], and its up command is ["reset "], not empty; the press
    writes nothing and the release writes ["reset "]. *)
Lemma reset_command_counterexample :
  let b := mkButton "reset" None ButtonStyle.plain "" "reset " 32 200 8 in
  let g := WmsGui.set_button (Some b) (WmsGui.set_listener (Some []) WmsGui.init) in
  In b Board.buttons
  /\ down b <> "reset "%string
  /\ up b <> ""%string
  /\ listener (WmsGui.step g WmsGui.B1Down) <> Some ["reset "%string]
  /\ listener (WmsGui.step (WmsGui.step g WmsGui.B1Down) WmsGui.B1Up)
     <> listener (WmsGui.step g WmsGui.B1Down).
Proof.
  cbv zeta. split; [simpl; tauto|]. repeat split; discriminate.
Qed.

End Buttons.

(** ** Frame lemmas for the handlers of [WmsGui] *)

Section Keeps.

Context {X : Type} (f : WmsGui -> X).

Lemma keeps_ret {A : Type} (a : A) : keeps f (ret a).
Proof. intros g. reflexivity. Qed.

Lemma keeps_raise {A : Type} (e : exn) : keeps f (@raise WmsGui A e).
Proof. intros g. reflexivity. Qed.

Lemma keeps_gets {A : Type} (h : WmsGui -> A) : keeps f (gets h).
Proof. intros g. reflexivity. Qed.

Lemma keeps_orelse {A : Type} (o : option A) (e : exn) : keeps f (orelse o e).
Proof. intros g. destruct o; reflexivity. Qed.

Lemma keeps_modify (h : WmsGui -> WmsGui) :
  (forall g, f (h g) = f g) -> keeps f (modify h).
Proof. intros H g. apply H. Qed.

Lemma keeps_bind {A B : Type} (c : M WmsGui A) (k : A -> M WmsGui B) :
  keeps f c -> (forall a, keeps f (k a)) -> keeps f (bind c k).
Proof.
  intros Hc Hk g. unfold bind. specialize (Hc g).
  destruct (c g) as [[a|e] g1]; simpl in *.
  - now rewrite Hk.
  - exact Hc.
Qed.

Lemma keeps_when (cond : bool) (body : M WmsGui unit) :
  keeps f body -> keeps f (when cond body).
Proof. intros H. destruct cond; [exact H | apply keeps_ret]. Qed.

Lemma keeps_finally {A : Type} (body : M WmsGui A) (cleanup : M WmsGui unit) :
  keeps f body -> keeps f cleanup -> keeps f (finally body cleanup).
Proof.
  intros Hb Hc g. unfold finally. specialize (Hb g).
  destruct (body g) as [r g1]. specialize (Hc g1).
  destruct (cleanup g1) as [[[]|e] g2]; simpl in *; congruence.
Qed.

Lemma keeps_for_each {A : Type} (l : list A) (body : A -> M WmsGui unit) :
  (forall a, keeps f (body a)) -> keeps f (for_each l body).
Proof.
  intros H. induction l as [|a l IH]; simpl.
  - apply keeps_ret.
  - apply keeps_bind; auto.
Qed.

(** [f] does not read the board, the listener, the timers or the
    popups. *)
Hypothesis f_board : forall b g, f (WmsGui.set_board b g) = f g.
Hypothesis f_listener : forall l g, f (WmsGui.set_listener l g) = f g.
Hypothesis f_timers : forall t g, f (WmsGui.set_timers t g) = f g.
Hypothesis f_popups : forall p g, f (WmsGui.set_popups p g) = f g.

Lemma keeps_call_board (pass : bool) (method : M Env unit) :
  keeps f (WmsGui.call_board pass method).
Proof.
  intros g. unfold WmsGui.call_board.
  destruct (method _) as [r env]. simpl.
  rewrite f_board. destruct pass; [apply f_listener | reflexivity].
Qed.

Lemma keeps_listener_write (message : string) :
  keeps f (WmsGui.listener_write message).
Proof.
  intros g. unfold WmsGui.listener_write, bind, gets. simpl.
  destruct (listener g); simpl; [apply f_listener | reflexivity].
Qed.

Lemma keeps_after (ms : Z) (cb : Callback) : keeps f (WmsGui.after ms cb).
Proof. intros g. apply f_timers. Qed.

Lemma keeps_catch (handler : M WmsGui unit) :
  keeps f handler -> keeps f (WmsGui.catch handler).
Proof.
  intros H g. unfold WmsGui.catch. specialize (H g).
  destruct (handler g) as [[[]|e] g1]; simpl in *; [exact H|].
  destruct e; try (destruct (stopping g1); simpl; rewrite ?f_popups; exact H).
  unfold WmsGui.warning, WmsGui.after, modify. simpl.
  now rewrite f_timers.
Qed.

End Keeps.

Ltac keeps_step :=
  first
    [ apply keeps_ret | apply keeps_raise | apply keeps_gets | apply keeps_orelse
    | apply keeps_when
    | apply keeps_finally
    | apply keeps_for_each; intros
    | apply keeps_bind; [|intros]
    | apply keeps_call_board; intros; reflexivity
    | apply keeps_listener_write; intros; reflexivity
    | apply keeps_after; intros; reflexivity
    | apply keeps_catch; [intros; reflexivity | intros; reflexivity |]
    | apply keeps_modify; intros; reflexivity
    | match goal with
      | |- keeps _ (match ?x with _ => _ end) => destruct x
      end ].

Ltac keeps_all := repeat keeps_step.

(** ** Warnings and the timer: [do_warning], [on_timer_running] *)

Section Warnings.

Lemma poll_serial_keeps {X : Type} (f : WmsGui -> X) (waiting : list (list byte)) :
  (forall v g, f (WmsGui.set_serial v g) = f g) ->
  (forall v g, f (WmsGui.set_putty v g) = f g) ->
  keeps f (WmsGui.poll_serial waiting).
Proof.
  intros Hs Hp. induction waiting as [|data rest IH]; simpl.
  - apply keeps_ret.
  - apply keeps_bind; [apply keeps_modify; intros; apply Hs | intros _].
    destruct (WmsGui.serial_read data) as [text|e]; [|apply keeps_raise].
    destruct (String.eqb text ""); [apply keeps_ret|].
    apply keeps_bind; [apply keeps_modify; intros; apply Hp | intros _; exact IH].
Qed.

Lemma on_timer_running_keeps_warn_field :
  keeps warn_field WmsGui.on_timer_running.
Proof.
  unfold WmsGui.on_timer_running, WmsGui.do_poll_serial, WmsGui.do_query_qemu.
  keeps_all. apply poll_serial_keeps; reflexivity.
Qed.

Lemma on_timer_running_keeps_warn_ticks :
  keeps warn_ticks WmsGui.on_timer_running.
Proof.
  unfold WmsGui.on_timer_running, WmsGui.do_poll_serial, WmsGui.do_query_qemu.
  keeps_all. apply poll_serial_keeps; reflexivity.
Qed.

(** A warning overwrites the one displayed and starts its count at
    [POLL]. *)
Lemma do_warning_overwrites (now value : string) (g : WmsGui) :
  value <> ""%string ->
  warn_field (snd (WmsGui.do_warning now value g)) = (now ++ " " ++ value)%string
  /\ warn_ticks (snd (WmsGui.do_warning now value g)) = POLL.
Proof.
  intros H. unfold WmsGui.do_warning.
  destruct (String.eqb_spec value ""); [contradiction|]. split; reflexivity.
Qed.

(** What [do_check_status] would do for a warning if a timer called
    it: the 49th call after the warning was set asks for the field to
    be cleared. *)
Example do_check_status_would_expire :
  let warned := snd (WmsGui.do_warning "12:00:00" "Connected to QEMU"
                       (WmsGui.set_timers [] WmsGui.init)) in
  timers (Nat.iter 48 (fun g => snd (WmsGui.do_check_status g)) warned) = []
  /\ timers (Nat.iter 49 (fun g => snd (WmsGui.do_check_status g)) warned)
     = [(10, call_do_warning "")].
Proof. split; vm_compute; reflexivity. Qed.

(** C5 fails on the code. No number of timer ticks clears or ages a
    warning: [on_timer_running] leaves the warning field and
    [warn_ticks] as they are, because it never calls [do_check_status].
    The warning set below is still displayed, with [warn_ticks] still at
    [POLL], after the 50 ticks of its display time and after any number
    of further ticks. *)
Theorem warning_never_expires (n : nat) (g : WmsGui) :
  let tick := fun g => WmsGui.step g WmsGui.TimerRunning in
  let warned := snd (WmsGui.do_warning "12:00:00" "Connected to QEMU" g) in
  warn_field (Nat.iter n tick g) = warn_field g
  /\ warn_ticks (Nat.iter n tick g) = warn_ticks g
  /\ warn_field (Nat.iter n tick warned) = "12:00:00 Connected to QEMU"%string
  /\ warn_ticks (Nat.iter n tick warned) = POLL.
Proof.
  intros tick warned.
  assert (K : forall h, warn_field (Nat.iter n tick h) = warn_field h
                        /\ warn_ticks (Nat.iter n tick h) = warn_ticks h).
  { intros h. induction n as [|n [IH1 IH2]]; [split; reflexivity|].
    rewrite Nat.iter_succ. unfold tick at 1 3, WmsGui.step. simpl WmsGui.handler.
    rewrite on_timer_running_keeps_warn_field, on_timer_running_keeps_warn_ticks.
    now split. }
  destruct (K g) as [K1 K2]. destruct (K warned) as [K3 K4].
  repeat split; [exact K1 | exact K2 | rewrite K3 | rewrite K4]; reflexivity.
Qed.

End Warnings.

(** ** Resynchronisation: the first [idr] message *)

Section Resync.

Import WmsGui.

Lemma resync_keeps_connecting (value : Z) : keeps connecting (resync value).
Proof. unfold resync. keeps_all. Qed.


(** The [idr] branch of [on_message], in the two states of the flag. *)
Lemma on_message_idr_pending (value : Z) (g : WmsGui) :
  connecting g = true ->
  let replayed := snd (resync value (set_connecting false (set_idr value g))) in
  connecting (snd (on_message QEmuTag.idr value g)) = false
  /\ board (snd (on_message QEmuTag.idr value g)) = board replayed
  /\ listener (snd (on_message QEmuTag.idr value g)) = listener replayed.
Proof.
  intros H replayed.
  pose proof (resync_keeps_connecting value
                (set_connecting false (set_idr value g))) as K.
  fold replayed in K. simpl in K.
  unfold on_message. simpl (QEmuTag.idr =? _).
  unfold bind, gets, modify, when. simpl. rewrite H.
  fold replayed.
  destruct (resync value _) as [[[]|e] g1] eqn:E; subst replayed; simpl in *;
    auto.
Qed.




(** A constructor that raises in its second [write] has started its
    thread and written ["noecho "]; the GUI holds no listener for it and
    leaves the Connect buttons enabled, but what the thread receives
    still reaches [on_message]. *)
Example constructor_raises_late :
  let dial := WmsError AtListen "Cannot connect to QEMU WMS: timed out" in
  let run1 :=
    [Connect "12:00:00"; DoConnect dial true "12:00:02"]%string in
  thread_started dial = true
  /\ written dial = ["noecho "]%string
  /\ listener (run init run1) = None
  /\ connected (run init run1) = false
  /\ realizable (run1 ++ [Message QEmuTag.idr 256; Connect "12:00:09"%string])
     = true
  /\ connecting (run init (run1 ++ [Message QEmuTag.idr 256])) = false.
Proof. vm_compute. repeat split. Qed.

End Resync.

(** Splits a hypothesis [H : a = v \/ b = v \/ ... \/ False] into its
    cases, substituting [v] in each. *)
Ltac cases_of H :=
  repeat match type of H with
         | _ \/ _ => destruct H as [H|H]; [symmetry in H; subst|]
         end;
  try contradiction.

(** ** What the replay does to the latched flags *)

Section Seeding.

Import WmsGui.

Lemma bit_set_testbit (value p : Z) :
  0 <= p -> bit_set value p = Z.testbit value p.
Proof.
  intros Hp. unfold bit_set, Py.truthy.
  change 1 with (Z.ones 1) at 1. rewrite Z.land_ones by lia.
  change (2 ^ 1) with 2. rewrite <- Z.bit0_mod.
  rewrite Z.shiftr_spec by lia. simpl (0 + p).
  now destruct (Z.testbit value p).
Qed.

Lemma set_board_same (g : WmsGui) : set_board (board g) g = g.
Proof. now destruct g. Qed.

Lemma set_listener_same (g : WmsGui) : set_listener (listener g) g = g.
Proof. now destruct g. Qed.

Lemma set_board_twice (b b' : WmsBoard) (g : WmsGui) :
  set_board b' (set_board b g) = set_board b' g.
Proof. reflexivity. Qed.

Lemma between_cases (lo : Z) (n : nat) (v : Z) :
  lo <= v < lo + Z.of_nat n ->
  In v (map (fun i => lo + Z.of_nat i) (seq 0 n)).
Proof.
  intros H. replace v with (lo + Z.of_nat (Z.to_nat (v - lo))) by lia.
  apply (in_map (fun i => lo + Z.of_nat i)). apply in_seq. lia.
Qed.

(** A high level on one of the pins 8 to 14 touches no latched flag
    and writes nothing; pin 14 sets the latch flag. *)
Lemma update_device_high (pin : Z) (b : WmsBoard) (q : option (list string)) :
  8 <= pin <= 14 -> WmsBoard.valid b ->
  exists b',
    WmsBoard.update_device pin 1 (mkEnv b q) = (Ok tt, mkEnv b' q)
    /\ latched b' = latched b
    /\ latch b' = latch b || (pin =? 14)
    /\ WmsBoard.valid b'.
Proof.
  intros Hpin (Hlen & Hsseg & Hsprite).
  destruct b as [cv en ls sg mo sp di]. simpl in *.
  assert (P := between_cases 8 7 pin ltac:(simpl; lia)).
  assert (S := between_cases 0 16 sg ltac:(simpl; lia)).
  assert (F := between_cases 0 3 sp ltac:(simpl; lia)).
  simpl in P, S, F. clear Hpin Hsseg Hsprite.
  assert (Hlen' : List.length ls = 8%nat) by exact Hlen.
  destruct P as [P|[P|[P|[P|[P|[P|[P|[]]]]]]]]; subst pin.
  1-4: cases_of S;
    (eexists; split; [cbv -[app]; reflexivity|]);
    (split; [reflexivity|]); (split; [simpl; now rewrite orb_false_r|]);
    unfold WmsBoard.valid; simpl; repeat split; (assumption || lia).
  - cases_of F;
      destruct mo;
      (eexists; split; [cbv -[app]; reflexivity|]);
      (split; [reflexivity|]); (split; [simpl; now rewrite orb_false_r|]);
      unfold WmsBoard.valid; simpl; repeat split; (assumption || lia).
  - assert (0 <= sg < 16 /\ 0 <= sp < 3) as [Hsg Hsp].
    { clear - S F. simpl. split.
      - cases_of S; lia.
      - cases_of F; lia. }
    eexists; split; [cbv -[app]; reflexivity|].
    split; [reflexivity|]. split; [simpl; now rewrite orb_false_r|].
    unfold WmsBoard.valid; simpl; repeat split; (assumption || lia).
  - assert (0 <= sg < 16 /\ 0 <= sp < 3) as [Hsg Hsp].
    { clear - S F. simpl. split.
      - cases_of S; lia.
      - cases_of F; lia. }
    eexists; split; [cbv -[app]; reflexivity|].
    split; [reflexivity|]. split; [simpl; now rewrite orb_true_r|].
    unfold WmsBoard.valid; simpl; repeat split; (assumption || lia).
Qed.

(** The first loop of the replay. *)
Lemma replay_pins (value : Z) (pins : list Z) (g : WmsGui) :
  Forall (fun p => 8 <= p <= 14) pins -> WmsBoard.valid (board g) ->
  exists b',
    for_each pins (fun pin =>
      when (Py.truthy (Z.land (Z.shiftr value pin) 1))
        (call_board true (WmsBoard.update_device pin 1))) g
    = (Ok tt, set_board b' g)
    /\ latched b' = latched (board g)
    /\ latch b' = latch (board g)
                  || existsb (fun p => bit_set value p && (p =? 14)) pins
    /\ WmsBoard.valid b'.
Proof.
  intros Hpins. revert g.
  induction Hpins as [|p pins Hp _ IH]; intros g Hv.
  - exists (board g). rewrite set_board_same. simpl.
    rewrite orb_false_r. auto.
  - cbn [for_each existsb]. unfold bind at 1.
    fold (bit_set value p). destruct (bit_set value p); cbn [when andb].
    + destruct (update_device_high p (board g) (listener g) Hp Hv)
        as (b1 & E1 & L1 & A1 & V1).
      unfold call_board at 1. rewrite E1. cbn [self qemu].
      rewrite set_listener_same.
      destruct (IH (set_board b1 g) V1) as (b' & E & L & A & V).
      exists b'. rewrite E. unfold set_board in L, A. cbn [board] in L, A.
      split; [reflexivity|]. split; [congruence|]. split; [|exact V].
      rewrite A, A1. now rewrite orb_assoc.
    + cbn [ret]. destruct (IH g Hv) as (b' & E & L & A & V).
      exists b'. auto.
Qed.

(** A press and a release of a table button with no listener. *)
Lemma replay_button (value : Z) (b : Button) (p : Z) (g : WmsGui) :
  In b Board.buttons -> pin b = Some p ->
  List.length (latched (board g)) = 8%nat ->
  exists b',
    when (bit_set value p)
      (bind (call_board false (WmsBoard.button_down b))
            (fun _ => call_board false (WmsBoard.button_up b))) g
    = (Ok tt, set_board b' g)
    /\ latch b' = latch (board g)
    /\ latched b' = seed value (latch (board g)) (latched (board g)) b.
Proof.
  intros Hin Hp Hlen. unfold seed. rewrite Hp.
  destruct (bit_set value p); cbn [when].
  2:{ exists (board g). now rewrite set_board_same. }
  destruct g as [? ? ? ? ? ? ? ? ? ? ? ? ? ? ? ? ? ? bd ? ? ?].
  destruct bd as [cv en ls sg mo sp di]. cbn [board latched latch] in *.
  destruct ls as [|l0 [|l1 [|l2 [|l3 [|l4 [|l5 [|l6 [|l7 [|]]]]]]]]];
    try discriminate Hlen.
  simpl in Hin.
  destruct Hin as [<-|[<-|[<-|[<-|[<-|[<-|[<-|[<-|[]]]]]]]]];
    simpl in Hp; try discriminate Hp; injection Hp as <-.
  - destruct l0; eexists; (split; [cbv -[app]; reflexivity|]); split; reflexivity.
  - destruct en, l1; eexists; (split; [cbv -[app]; reflexivity|]); split; reflexivity.
  - destruct en, l2; eexists; (split; [cbv -[app]; reflexivity|]); split; reflexivity.
  - destruct en, l3; eexists; (split; [cbv -[app]; reflexivity|]); split; reflexivity.
  - destruct en, l4; eexists; (split; [cbv -[app]; reflexivity|]); split; reflexivity.
  - destruct en, l5; eexists; (split; [cbv -[app]; reflexivity|]); split; reflexivity.
  - eexists; (split; [cbv -[app]; reflexivity|]); split; reflexivity.
Qed.

Lemma seed_length (value : Z) (enabled : bool) (flags : list bool) (b : Button) :
  List.length (seed value enabled flags b) = List.length flags.
Proof.
  assert (L : forall (l : list bool) n v,
             List.length (Py.set_nth l n v) = List.length l).
  { induction l as [|h t IH]; intros [|n] v; simpl; auto. }
  unfold seed. destruct (pin b); [|reflexivity].
  destruct (bit_set value z); [apply L | reflexivity].
Qed.

(** The second loop of the replay, over any part of the table. *)
Lemma replay_buttons (value : Z) (bs : list Button) (g : WmsGui) :
  incl bs Board.buttons ->
  List.length (latched (board g)) = 8%nat ->
  exists b',
    for_each bs (fun b =>
      match pin b with
      | None => ret tt
      | Some p =>
          when (Py.truthy (Z.land (Z.shiftr value p) 1))
            (bind (call_board false (WmsBoard.button_down b))
                  (fun _ => call_board false (WmsBoard.button_up b)))
      end) g
    = (Ok tt, set_board b' g)
    /\ latch b' = latch (board g)
    /\ latched b' = fold_left (seed value (latch (board g))) bs (latched (board g)).
Proof.
  revert g. induction bs as [|b bs IH]; intros g Hin Hlen.
  - exists (board g). now rewrite set_board_same.
  - assert (Hb : In b Board.buttons) by (apply Hin; now left).
    assert (Hbs : incl bs Board.buttons)
      by (intros c Hc; apply Hin; now right).
    cbn [for_each fold_left]. unfold bind at 1.
    destruct (pin b) as [p|] eqn:Hp.
    + destruct (replay_button value b p g Hb Hp Hlen) as (b1 & E1 & A1 & L1).
      unfold bit_set in E1. rewrite E1.
      destruct (IH (set_board b1 g) Hbs) as (b' & E & A & L).
      { unfold set_board. cbn [board]. rewrite L1, seed_length. exact Hlen. }
      exists b'. rewrite E. unfold set_board in L, A. cbn [board] in L, A.
      split; [reflexivity|]. split; [congruence|].
      now rewrite L, A1, L1.
    + cbn [ret]. destruct (IH g Hbs Hlen) as (b' & E & A & L).
      exists b'. unfold seed at 2. rewrite Hp. auto.
Qed.

(** C4, as amended. An [idr] value that arrives while the replay is
    pending writes nothing to the listener. For every button whose pin
    bit is set it plays a press and a release with no listener, which
    toggles the latched flag of the door, gives a latch-style button the
    value the latch flag has after pin 14 was replayed (set only if
    bit 14 is set or the latch was on already), and leaves the flag of
    the plain motor button alone; the flags of buttons whose bit is
    clear stay as they were. *)
Theorem resync_seeds_latched
    (value : Z) (g : WmsGui) (l0 l1 l2 l3 l4 l5 l6 l7 : bool) :
  connecting g = true ->
  latched (board g) = [l0; l1; l2; l3; l4; l5; l6; l7] ->
  0 <= sseg (board g) < 16 ->
  0 <= sprite (board g) < 3 ->
  let g' := step g (Message QEmuTag.idr value) in
  let bit := Z.testbit value in
  let enabled := latch (board g) || bit 14 in
  listener g' = listener g
  /\ connecting g' = false
  /\ latch (board g') = enabled
  /\ latched (board g')
     = [xorb l0 (bit 0);
        if bit 1 then enabled else l1;
        if bit 2 then enabled else l2;
        if bit 3 then enabled else l3;
        if bit 4 then enabled else l4;
        if bit 5 then enabled else l5;
        l6; l7].
Proof.
  intros Hc Hl Hsseg Hsprite g' bit enabled.
  destruct (on_message_idr_pending value g Hc) as (C & B & L).
  subst g'. unfold step. cbn [handler]. rewrite L, B, C. clear L B C.
  set (g0 := set_connecting false (set_idr value g)).
  assert (V : WmsBoard.valid (board g0)).
  { unfold WmsBoard.valid. subst g0. cbn. rewrite Hl. auto. }
  assert (P : Forall (fun p => 8 <= p <= 14) [8; 9; 10; 11; 12; 13; 14])
    by (repeat constructor; lia).
  destruct (replay_pins value _ g0 P V) as (b1 & E1 & L1 & A1 & V1).
  assert (Hlen : List.length (latched (board (set_board b1 g0))) = 8%nat).
  { unfold set_board. cbn [board]. rewrite L1. subst g0. cbn. now rewrite Hl. }
  destruct (replay_buttons value Board.buttons (set_board b1 g0)
              (incl_refl _) Hlen) as (b2 & E2 & A2 & L2).
  assert (R : resync value g0 = (Ok tt, set_board b2 (set_board b1 g0))).
  { unfold resync. unfold bind at 1. rewrite E1. exact E2. }
  rewrite R.
  unfold set_board in A2, L2. cbn [board] in A2, L2.
  cbn [snd]. unfold set_board. cbn [board listener].
  assert (A : latch b1 = enabled).
  { rewrite A1. subst g0 enabled bit. cbn -[bit_set Z.testbit].
    rewrite !andb_false_r, andb_true_r. cbn [orb].
    rewrite orb_false_r. now rewrite bit_set_testbit by lia. }
  split; [reflexivity|]. split; [reflexivity|].
  split; [rewrite A2; exact A|].
  rewrite L2, A, L1. subst g0. cbn [board set_connecting set_idr]. rewrite Hl.
  subst bit. cbv beta.
  rewrite <- !(bit_set_testbit value) by lia.
  unfold seed. cbn -[bit_set].
  destruct (bit_set value 0), (bit_set value 1), (bit_set value 2),
    (bit_set value 3), (bit_set value 4), (bit_set value 5),
    (bit_set value 6); destruct l0; reflexivity.
Qed.

Lemma resync_seeds_latched_witness :
  let g := set_listener (Some ["noecho "; "listen "]%string) init in
  (connecting g = true
   /\ latched (board g) = [false; false; false; false; false; false; false; false]
   /\ 0 <= sseg (board g) < 16
   /\ 0 <= sprite (board g) < 3)
  /\ listener (step g (Message QEmuTag.idr 16451))
     = Some ["noecho "; "listen "]%string
  /\ latched (board (step g (Message QEmuTag.idr 16451)))
     = [true; true; false; false; false; false; false; false].
Proof.
  intros g.
  assert (H1 : connecting g = true) by reflexivity.
  assert (H2 : latched (board g)
               = [false; false; false; false; false; false; false; false])
    by reflexivity.
  assert (H3 : 0 <= sseg (board g) < 16) by (simpl; lia).
  assert (H4 : 0 <= sprite (board g) < 3) by (simpl; lia).
  pose proof (resync_seeds_latched 16451 g _ _ _ _ _ _ _ _ H1 H2 H3 H4) as R.
  split; [auto|]. split; [apply R | apply R].
Defined.

(** C4 as stated fails for a latch-style button when bit 14 is clear
    and for the plain motor button: with [idr = 0x42] (PS1 and motor
    bits set, latch bit clear) on the initial board no latched flag is
    set. *)
Lemma resync_unlatched_counterexample :
  let g := set_listener (Some ["noecho "; "listen "]%string) init in
  Z.testbit 66 1 = true /\ Z.testbit 66 6 = true
  /\ connecting g = true
  /\ latched (board (step g (Message QEmuTag.idr 66)))
     = [false; false; false; false; false; false; false; false]
  /\ Py.index (latched (board (step g (Message QEmuTag.idr 66)))) 1 <> Some true
  /\ Py.index (latched (board (step g (Message QEmuTag.idr 66)))) 6 <> Some true.
Proof. repeat split; discriminate. Qed.

End Seeding.


(** ** What every handler preserves *)

Section Invariant.

Import WmsGui.

(** Evaluates the board method under [snd] in the goal. *)
Ltac run_method :=
  match goal with
  | |- context [snd ?t] =>
      let v := eval cbv -[app] in t in change t with v
  end;
  cbn [snd self latched sseg sprite List.length].

Lemma update_device_valid (pin level : Z) (env : Env) :
  level = 0 \/ level = 1 ->
  WmsBoard.valid (self env) ->
  WmsBoard.valid (self (snd (WmsBoard.update_device pin level env))).
Proof.
  intros Hlevel V.
  destruct (Z.ltb_spec pin 8) as [Hlo|Hlo];
    [rewrite update_device_ignores by lia; exact V|].
  destruct (Z.ltb_spec 14 pin) as [Hhi|Hhi];
    [rewrite update_device_ignores by lia; exact V|].
  destruct env as [[cv en ls sg mo sp di] q].
  destruct V as (Hlen & Hsseg & Hsprite). cbn [self latched sseg sprite] in *.
  assert (P := between_cases 8 7 pin ltac:(simpl; lia)).
  assert (S := between_cases 0 16 sg ltac:(simpl; lia)).
  assert (F := between_cases 0 3 sp ltac:(simpl; lia)).
  simpl in P, S, F. clear Hlo Hhi.
  destruct ls as [|l0 [|l1 [|l2 [|l3 [|l4 [|l5 [|l6 [|l7 [|]]]]]]]]];
    try discriminate Hlen.
  unfold WmsBoard.valid.
  destruct P as [P|[P|[P|[P|[P|[P|[P|[]]]]]]]]; subst pin.
  1-4: clear Hsseg; cases_of S; destruct Hlevel; subst level;
    run_method; repeat split; (assumption || lia).
  - clear Hsprite. cases_of F; destruct mo, Hlevel; subst level;
      run_method; repeat split; (assumption || lia).
  - destruct Hlevel; subst level; run_method; repeat split; (assumption || lia).
  - destruct q, Hlevel; subst level; run_method; repeat split; (assumption || lia).
Qed.

Lemma animate_valid (env : Env) :
  WmsBoard.valid (self env) -> WmsBoard.valid (self (snd (WmsBoard.animate env))).
Proof.
  destruct env as [[cv en ls sg mo sp di] q].
  intros (Hlen & Hsseg & Hsprite). cbn [self latched sseg sprite] in *.
  assert (F := between_cases 0 3 sp ltac:(simpl; lia)). simpl in F.
  unfold WmsBoard.valid.
  destruct mo; [|cbn; auto].
  destruct (Py.index ["motor-stop.png"; "motor-cw.png"; "motor-acw.png"]%string
              (di + 1)) as [image|] eqn:E;
    cbv -[app] in E;
    clear Hsprite; cases_of F;
    match goal with
    | |- context [snd ?t] =>
        let v := eval cbv -[app] in t in change t with v
    end;
    rewrite E; cbn [snd self latched sseg sprite];
    repeat split; (assumption || lia).
Qed.

Lemma button_down_shape (b : Button) (env : Env) :
  In b Board.buttons ->
  List.length (latched (self env)) = 8%nat ->
  WmsBoard.shape (self (snd (WmsBoard.button_down b env)))
  = WmsBoard.shape (self env).
Proof.
  intros Hin Hlen. destruct env as [[cv en ls sg mo sp di] q].
  unfold WmsBoard.shape. cbn [self latched sseg sprite] in *.
  destruct ls as [|l0 [|l1 [|l2 [|l3 [|l4 [|l5 [|l6 [|l7 [|]]]]]]]]];
    try discriminate Hlen.
  simpl in Hin.
  destruct Hin as [<-|[<-|[<-|[<-|[<-|[<-|[<-|[<-|[]]]]]]]]];
    destruct q, en, l0, l1, l2, l3, l4, l5; reflexivity.
Qed.

Lemma button_up_shape (b : Button) (env : Env) :
  In b Board.buttons ->
  List.length (latched (self env)) = 8%nat ->
  WmsBoard.shape (self (snd (WmsBoard.button_up b env)))
  = WmsBoard.shape (self env).
Proof.
  intros Hin Hlen. destruct env as [[cv en ls sg mo sp di] q].
  unfold WmsBoard.shape. cbn [self latched sseg sprite] in *.
  destruct ls as [|l0 [|l1 [|l2 [|l3 [|l4 [|l5 [|l6 [|l7 [|]]]]]]]]];
    try discriminate Hlen.
  simpl in Hin.
  destruct Hin as [<-|[<-|[<-|[<-|[<-|[<-|[<-|[<-|[]]]]]]]]];
    destruct q, en, l0, l1, l2, l3, l4, l5; reflexivity.
Qed.

Lemma valid_of_shape (b b' : WmsBoard) :
  WmsBoard.shape b' = WmsBoard.shape b -> WmsBoard.valid b -> WmsBoard.valid b'.
Proof.
  unfold WmsBoard.shape. intros E. injection E as E1 E2 E3.
  unfold WmsBoard.valid.
  now rewrite E1, E2, E3.
Qed.

Lemma button_down_valid (b : Button) (env : Env) :
  In b Board.buttons -> WmsBoard.valid (self env) ->
  WmsBoard.valid (self (snd (WmsBoard.button_down b env))).
Proof.
  intros Hin V. apply (valid_of_shape (self env)); [|exact V].
  apply button_down_shape; [exact Hin | apply V].
Qed.

Lemma button_up_valid (b : Button) (env : Env) :
  In b Board.buttons -> WmsBoard.valid (self env) ->
  WmsBoard.valid (self (snd (WmsBoard.button_up b env))).
Proof.
  intros Hin V. apply (valid_of_shape (self env)); [|exact V].
  apply button_up_shape; [exact Hin | apply V].
Qed.

(** *** The handlers *)

Lemma preserves_ret {A : Type} (P : WmsGui -> Prop) (a : A) : preserves P (ret a).
Proof. intros g H. exact H. Qed.

Lemma preserves_raise {A : Type} (P : WmsGui -> Prop) (e : exn) :
  preserves P (@raise WmsGui A e).
Proof. intros g H. exact H. Qed.

Lemma preserves_gets {A : Type} (P : WmsGui -> Prop) (h : WmsGui -> A) :
  preserves P (gets h).
Proof. intros g H. exact H. Qed.

Lemma preserves_modify (P : WmsGui -> Prop) (h : WmsGui -> WmsGui) :
  (forall g, P g -> P (h g)) -> preserves P (modify h).
Proof. intros H g. apply H. Qed.

Lemma preserves_bind {A B : Type} (P : WmsGui -> Prop)
    (c : M WmsGui A) (k : A -> M WmsGui B) :
  preserves P c -> (forall a, preserves P (k a)) -> preserves P (bind c k).
Proof.
  intros Hc Hk g Hg. unfold bind. specialize (Hc g Hg).
  destruct (c g) as [[a|e] g1]; simpl in *; [now apply Hk | exact Hc].
Qed.

Lemma preserves_when (P : WmsGui -> Prop) (cond : bool) (body : M WmsGui unit) :
  preserves P body -> preserves P (when cond body).
Proof. intros H. destruct cond; [exact H | apply preserves_ret]. Qed.

Lemma preserves_finally {A : Type} (P : WmsGui -> Prop)
    (body : M WmsGui A) (cleanup : M WmsGui unit) :
  preserves P body -> preserves P cleanup -> preserves P (finally body cleanup).
Proof.
  intros Hb Hc g Hg. unfold finally. specialize (Hb g Hg).
  destruct (body g) as [r g1]. specialize (Hc g1 Hb).
  destruct (cleanup g1) as [[[]|e] g2]; exact Hc.
Qed.

Lemma preserves_for_each {A : Type} (P : WmsGui -> Prop)
    (l : list A) (body : A -> M WmsGui unit) :
  (forall a, In a l -> preserves P (body a)) -> preserves P (for_each l body).
Proof.
  induction l as [|a l IH]; intros H; simpl.
  - apply preserves_ret.
  - apply preserves_bind; [apply H; now left | intros _].
    apply IH. intros b Hb. apply H. now right.
Qed.

Lemma sane_call_board (pass : bool) (method : M Env unit) :
  (forall env, WmsBoard.valid (self env) ->
               WmsBoard.valid (self (snd (method env)))) ->
  preserves sane (call_board pass method).
Proof.
  intros H g [V B]. unfold call_board.
  specialize (H (mkEnv (board g) (if pass then listener g else None)) V).
  destruct (method _) as [r env]. simpl in *.
  split; [exact H|]. now destruct pass.
Qed.

Lemma sane_listener_write (message : string) :
  preserves sane (listener_write message).
Proof.
  intros g H. unfold listener_write, bind, gets. simpl.
  destruct (listener g); exact H.
Qed.

Lemma sane_catch (handler : M WmsGui unit) :
  preserves sane handler -> preserves sane (catch handler).
Proof.
  intros H g Hg. unfold catch. specialize (H g Hg).
  destruct (handler g) as [[[]|e] g1]; simpl in *; [exact H|].
  destruct e; try exact H; destruct (stopping g1); exact H.
Qed.

Lemma sane_poll_serial (waiting : list (list byte)) :
  preserves sane (poll_serial waiting).
Proof.
  induction waiting as [|data rest IH]; simpl.
  - apply preserves_ret.
  - apply preserves_bind; [apply preserves_modify; intros g H; exact H | intros _].
    destruct (serial_read data) as [text|e]; [|apply preserves_raise].
    destruct (String.eqb text ""); [apply preserves_ret|].
    apply preserves_bind;
      [apply preserves_modify; intros g H; exact H | intros _; exact IH].
Qed.

Ltac sane_step :=
  first
    [ apply preserves_ret | apply preserves_raise | apply preserves_gets
    | apply preserves_when
    | apply preserves_finally
    | apply preserves_bind; [|intros]
    | apply sane_listener_write
    | apply sane_poll_serial
    | apply sane_catch
    | apply preserves_modify; intros ? ?; assumption
    | match goal with
      | |- preserves _ (match ?x with _ => _ end) => destruct x
      end ].

Lemma find_button_in (px py : Z) (b : Button) :
  WmsBoard.find_button px py = Some b -> In b Board.buttons.
Proof. intros H. apply find_some in H. apply H. Qed.

Lemma resync_sane (value : Z) : preserves sane (resync value).
Proof.
  unfold resync. apply preserves_bind; [|intros _].
  - apply preserves_for_each. intros pin _. apply preserves_when.
    apply sane_call_board. intros env. apply update_device_valid. now right.
  - apply preserves_for_each. intros b Hb.
    destruct (pin b); [|apply preserves_ret].
    apply preserves_when. apply preserves_bind; [|intros _];
      apply sane_call_board; intros env;
      [now apply button_down_valid | now apply button_up_valid].
Qed.

Lemma handler_sane (i : Input) : preserves sane (handler i).
Proof.
  destruct i as [tag value|now value|px py| | | |data|now|dial ok now|];
    simpl.
  - unfold on_message.
    destruct (tag =? QEmuTag.gpiod_enabled); [repeat sane_step|].
    destruct (tag =? QEmuTag.moder); [repeat sane_step|].
    destruct (tag =? QEmuTag.idr).
    { apply preserves_bind; [repeat sane_step | intros _].
      apply preserves_bind; [apply preserves_gets | intros pending].
      apply preserves_bind; [|intros _; repeat sane_step].
      apply preserves_when.
      apply preserves_bind; [repeat sane_step | intros _; apply resync_sane]. }
    destruct (tag =? QEmuTag.pin_low);
      [apply sane_call_board; intros env; apply update_device_valid; auto|].
    destruct (tag =? QEmuTag.pin_high);
      [apply sane_call_board; intros env; apply update_device_valid; auto|].
    repeat match goal with
           | |- preserves _ (if ?c then _ else _) => destruct c
           end; repeat sane_step.
  - unfold do_warning. destruct (negb _); repeat sane_step.
  - intros g Hg.
    assert (H : forall c, sane (set_button (WmsBoard.find_button px py)
                                  (set_cursor c g))).
    { intros c. split; [apply Hg|]. simpl.
      destruct (WmsBoard.find_button px py) as [b|] eqn:E; [|exact I].
      now apply find_button_in in E. }
    unfold on_move, bind, gets, when, modify. cbv beta iota. cbn [snd].
    destruct (WmsBoard.find_button px py) as [b|], (button g) as [b0|];
      try destruct (Button_eqb b b0); cbn [negb snd ret];
      (exact Hg || apply H).
  - unfold on_b1_down. apply sane_catch. intros g Hg.
    unfold bind at 1. unfold gets. cbv beta iota.
    pose proof Hg as [V B].
    destruct (button g) as [b|]; [|exact Hg].
    apply sane_call_board; [intros env; now apply button_down_valid | exact Hg].
  - unfold on_b1_up. apply sane_catch. intros g Hg.
    unfold bind at 1. unfold gets. cbv beta iota.
    pose proof Hg as [V B].
    destruct (button g) as [b|]; [|exact Hg].
    apply preserves_bind; [repeat sane_step | intros _ | exact Hg].
    apply sane_call_board. intros env. now apply button_up_valid.
  - unfold on_timer_running, do_poll_serial, do_query_qemu, after.
    repeat sane_step.
    apply sane_call_board. intros env. apply animate_valid.
  - repeat sane_step.
  - unfold on_connect, do_warning, after. repeat sane_step.
  - unfold do_connect, close, warning, do_warning, after.
    destruct dial; [|destruct (negb ok)|]; repeat sane_step.
  - unfold on_halt. repeat sane_step.
Qed.

Lemma run_sane (inputs : list Input) (g : WmsGui) :
  sane g -> sane (run g inputs).
Proof.
  unfold run. revert g.
  induction inputs as [|i inputs IH]; intros g H; cbn [fold_left].
  - exact H.
  - apply IH. unfold step. now apply handler_sane.
Qed.

(** Whatever the main loop has delivered, the board has one latched
    flag per button, a segment mask of four bits and a sprite frame that
    names a motor image: the states the theorems on the replay and on
    pin 14 assume are the states the GUI can be in. *)
Lemma reachable_valid (inputs : list Input) :
  WmsBoard.valid (board (run init inputs)).
Proof.
  apply (run_sane inputs init).
  split; [|exact I]. unfold WmsBoard.valid. simpl. repeat split; lia.
Qed.

End Invariant.


(** * Further properties of the code *)

(** ** The escape filter and [read] *)

Section MoreFramer.

Import QEmuListener.

Lemma strip_escape_suffix (data : list byte) :
  exists dropped, data = dropped ++ strip_escape data.
Proof.
  assert (G : forall n data, (List.length data <= n)%nat ->
                exists dropped, data = dropped ++ strip_escape data).
  { induction n as [|n IH]; intros d Hn.
    - destruct d; [|simpl in Hn; lia]. now exists [].
    - destruct d as [|b rest]; [now exists []|]. simpl.
      destruct (Byte.eqb b xff); [|now exists []].
      destruct rest as [|c [|e rest']].
      + exists [b]. reflexivity.
      + exists [b; c]. reflexivity.
      + destruct (IH rest') as [dropped E]; [simpl in Hn; lia|].
        exists (b :: c :: e :: dropped). simpl. now rewrite <- E. }
  now apply (G (List.length data)).
Qed.

Lemma strip_escape_head (data : list byte) :
  match strip_escape data with
  | b :: _ => b <> xff
  | [] => True
  end.
Proof.
  assert (G : forall n data, (List.length data <= n)%nat ->
                match strip_escape data with
                | b :: _ => b <> xff
                | [] => True
                end).
  { induction n as [|n IH]; intros d Hn.
    - destruct d; [exact I | simpl in Hn; lia].
    - destruct d as [|b rest]; [exact I|]. simpl.
      destruct (Byte.eqb b xff) eqn:E.
      + destruct rest as [|c [|e rest']]; try exact I.
        apply IH. simpl in Hn. lia.
      + intros ->. discriminate E. }
  now apply (G (List.length data)).
Qed.

(** X1. The escape filter only drops bytes from the front, and what it
    leaves is empty or starts with a byte other than [0xFF]; filtering
    again changes nothing. *)
Theorem strip_escape_result (data : list byte) :
  (exists dropped, data = dropped ++ strip_escape data)
  /\ match strip_escape data with
     | b :: _ => b <> xff
     | [] => True
     end
  /\ strip_escape (strip_escape data) = strip_escape data.
Proof.
  split; [apply strip_escape_suffix|]. split; [apply strip_escape_head|].
  pose proof (strip_escape_head data) as H.
  destruct (strip_escape data) as [|b rest]; [reflexivity|]. simpl.
  destruct (Byte.eqb b xff) eqn:E; [|reflexivity].
  apply Byte.byte_dec_bl in E. contradiction.
Qed.

(** X2. When the buffer and the bytes received are all ASCII, [read]
    loses nothing: the text it returns followed by the bytes it keeps is
    the buffer followed by the bytes received. The text is empty or ends
    with a whitespace character, and the bytes kept hold no whitespace. *)
Theorem read_ascii_conserves (recv_buffer received : list byte) :
  forallb Py.byte_is_ascii (recv_buffer ++ received) = true ->
  exists text,
    snd (read recv_buffer (Data received)) = Ok text
    /\ list_byte_of_string text ++ fst (read recv_buffer (Data received))
       = recv_buffer ++ received
    /\ (text = EmptyString
        \/ exists before c, text = (before ++ String c EmptyString)%string
                             /\ Py.isspace c = true)
    /\ existsb Py.byte_isspace (fst (read recv_buffer (Data received))) = false.
Proof.
  intros H.
  rewrite (read_ascii recv_buffer received (recv_buffer ++ received))
    by (auto using strip_escape_ascii).
  set (data := recv_buffer ++ received).
  pose proof (pop_tail_keeps (rev data) []) as K.
  rewrite rev_involutive, app_nil_r in K.
  pose proof (pop_tail_settled (rev data) []) as S.
  assert (W : forall stack buffer,
             existsb Py.byte_isspace buffer = false ->
             existsb Py.byte_isspace (snd (pop_tail stack buffer)) = false).
  { induction stack as [|c below IH]; intros buffer Hb; simpl; auto.
    destruct (Py.byte_isspace c) eqn:Hc; simpl; auto.
    apply IH. simpl. now rewrite Hc. }
  specialize (W (rev data) [] eq_refl).
  destruct (pop_tail (rev data) []) as [stack buffer]. cbn [fst snd] in *.
  exists (string_of_list_byte (rev stack)).
  split; [reflexivity|]. split.
  - now rewrite list_byte_of_string_of_list_byte.
  - split; [|exact W]. destruct S as [|c below Hc]; [now left|right].
    exists (string_of_list_byte (rev below)), (ascii_of_byte c).
    split; [|now apply byte_isspace_isspace].
    simpl. now rewrite string_of_list_byte_app.
Qed.

Lemma read_ascii_conserves_witness :
  let recv_buffer := list_byte_of_string "=d" in
  let received := list_byte_of_string "4?/000f +a" in
  forallb Py.byte_is_ascii (recv_buffer ++ received) = true
  /\ exists text,
       snd (read recv_buffer (Data received)) = Ok text
       /\ list_byte_of_string text ++ fst (read recv_buffer (Data received))
          = recv_buffer ++ received
       /\ (text = EmptyString
           \/ exists before c, text = (before ++ String c EmptyString)%string
                                /\ Py.isspace c = true)
       /\ existsb Py.byte_isspace (fst (read recv_buffer (Data received))) = false.
Proof.
  intros recv_buffer received.
  assert (H : forallb Py.byte_is_ascii (recv_buffer ++ received) = true)
    by reflexivity.
  split; [exact H | exact (read_ascii_conserves recv_buffer received H)].
Defined.

(** X3. Whole escape triplets in front of the bytes received by a
    listener with an empty buffer, or by the serial console, are dropped
    whatever their second and third bytes are: the read returns what it
    returns without them. *)
Theorem reads_skip_escapes (esc rest : list byte) :
  escapes esc ->
  read [] (Data (esc ++ rest)) = read [] (Data rest)
  /\ QEmuSerial.read (QEmuSerial.Data (esc ++ rest))
     = QEmuSerial.read (QEmuSerial.Data rest).
Proof.
  intros H. unfold read, QEmuSerial.read. simpl app.
  now rewrite (strip_escape_escapes esc rest H).
Qed.

Lemma reads_skip_escapes_witness :
  escapes [xff; xfd; x03; xff; xff; xff]
  /\ read [] (Data ([xff; xfd; x03; xff; xff; xff] ++ list_byte_of_string "+a9 "))
     = read [] (Data (list_byte_of_string "+a9 ")).
Proof.
  assert (H : escapes [xff; xfd; x03; xff; xff; xff]) by (repeat constructor).
  split; [exact H|].
  exact (proj1 (reads_skip_escapes _ (list_byte_of_string "+a9 ") H)).
Defined.

End MoreFramer.

(** ** The decoder and the loop of [listen] *)

Section MoreListen.

Import QEmuListener.

(** X4. A reply made of a command of [REPLY_MAP], the separator [?/]
    and text that [int] reads in base 16 decodes to one event with the
    tag of the command and the value read. *)
Theorem register_reply_decodes (cmd value : string) (tag v : Z) :
  In (cmd, tag) REPLY_MAP ->
  Py.int16 value = Some v ->
  handle_reply (cmd ++ "?/" ++ value) = Ok [event tag v].
Proof.
  intros Hin Hv. simpl in Hin.
  repeat (destruct Hin as [Hin|Hin];
          [injection Hin as <- <-; unfold handle_reply; simpl; now rewrite Hv|]).
  contradiction.
Qed.

Lemma register_reply_decodes_witness :
  In ("=d4"%string, QEmuTag.idr) REPLY_MAP
  /\ Py.int16 "000f" = Some 15
  /\ handle_reply "=d4?/000f" = Ok [event QEmuTag.idr 15].
Proof.
  assert (H1 : In ("=d4"%string, QEmuTag.idr) REPLY_MAP) by (simpl; tauto).
  assert (H2 : Py.int16 "000f" = Some 15) by reflexivity.
  split; [exact H1|]. split; [exact H2|].
  exact (register_reply_decodes "=d4" "000f" QEmuTag.idr 15 H1 H2).
Defined.

Lemma int16_one_digit (c : ascii) (v : Z) :
  Py.int16 (String c EmptyString) = Some v -> 0 <= v <= 15.
Proof.
  destruct c as [[] [] [] [] [] [] [] []]; intros H; vm_compute in H;
    try discriminate H; injection H as <-; lia.
Qed.

(** X5. A token yields at most one call on the GUI, and a pin event it
    yields carries a pin number from 0 to 15. *)
Theorem pin_events_in_range (reply : string) (calls : list GuiCall) :
  handle_reply reply = Ok calls ->
  (List.length calls <= 1)%nat
  /\ Forall (fun c =>
              match c with
              | event tag v =>
                  tag = QEmuTag.pin_low \/ tag = QEmuTag.pin_high -> 0 <= v <= 15
              | warning _ => True
              end) calls.
Proof.
  unfold handle_reply, hex_at_2.
  destruct (Py.startswith reply "?");
    [intros H; injection H as <-; split; [simpl; lia | constructor; [exact I | constructor]]|].
  destruct (Py.startswith reply "-").
  { destruct (Py.char_at reply 2) as [c|]; [|discriminate].
    destruct (Py.int16 (String c EmptyString)) as [v|] eqn:E; [|discriminate].
    intros H; injection H as <-. split; [simpl; lia|].
    constructor; [|constructor]. intros _. now apply (int16_one_digit c). }
  destruct (Py.startswith reply "+").
  { destruct (Py.char_at reply 2) as [c|]; [|discriminate].
    destruct (Py.int16 (String c EmptyString)) as [v|] eqn:E; [|discriminate].
    intros H; injection H as <-. split; [simpl; lia|].
    constructor; [|constructor]. intros _. now apply (int16_one_digit c). }
  destruct (Py.startswith reply "=");
    [|intros H; injection H as <-; split; [simpl; lia | constructor]].
  destruct (Py.partition2 "?" "/" reply) as [[cmd sep] value].
  destruct sep; cbn [negb];
    [|intros H; injection H as <-; split; [simpl; lia | constructor; [exact I | constructor]]].
  destruct (REPLY_MAP_get REPLY_MAP cmd) as [tag|] eqn:T;
    [|intros H; injection H as <-; split; [simpl; lia | constructor; [exact I | constructor]]].
  destruct (Py.int16 value) as [v|]; [|discriminate].
  intros H; injection H as <-. split; [simpl; lia|].
  constructor; [|constructor]. intros Htag.
  assert (G : forall table, REPLY_MAP_get table cmd = Some tag ->
                            In tag (map snd table)).
  { induction table as [|[k t] table IH]; simpl; [discriminate|].
    destruct (String.eqb k cmd); [intros E; injection E as <-; now left|].
    intros E. right. now apply IH. }
  apply G in T. simpl in T. unfold QEmuTag.pin_low, QEmuTag.pin_high in Htag.
  unfold QEmuTag.gpiod_enabled, QEmuTag.usart3_enabled, QEmuTag.moder,
    QEmuTag.idr, QEmuTag.sr, QEmuTag.cr1 in T.
  lia.
Qed.

Lemma pin_events_in_range_witness :
  handle_reply "+De" = Ok [event QEmuTag.pin_high 14]
  /\ Forall (fun c =>
              match c with
              | event tag v =>
                  tag = QEmuTag.pin_low \/ tag = QEmuTag.pin_high -> 0 <= v <= 15
              | warning _ => True
              end) [event QEmuTag.pin_high 14].
Proof.
  assert (H : handle_reply "+De" = Ok [event QEmuTag.pin_high 14]) by reflexivity.
  split; [exact H | exact (proj2 (pin_events_in_range _ _ H))].
Defined.

(** X6. A receive timeout is recoverable: any number of timeouts in a
    row gives as many warnings, keeps the buffer, and [listen] goes on
    with what comes next as if they had not happened. *)
Theorem listen_survives_timeouts (n : nat) (script : list Recv)
    (recv_buffer : list byte) :
  listen (repeat TimedOut n ++ script) recv_buffer
  = (repeat (warning "Warning: QEMU receiver timeout") n
       ++ fst (listen script recv_buffer),
     snd (listen script recv_buffer)).
Proof.
  induction n as [|n IH].
  - simpl. now destruct (listen script recv_buffer).
  - cbn [repeat app listen read]. rewrite IH. reflexivity.
Qed.

(** X7. An [OSError] from [recv] ends the listener for good: one
    warning is issued, nothing that the socket delivers afterwards is
    read, and the listener is not listening any more. *)
Theorem listen_stops_at_oserror (before after : list Recv)
    (recv_buffer : list byte) :
  listen (before ++ Broken :: after) recv_buffer
  = listen (before ++ [Broken]) recv_buffer
  /\ snd (listen (before ++ [Broken]) recv_buffer) <> Listening.
Proof.
  revert recv_buffer.
  induction before as [|r before IH]; intros recv_buffer.
  - split; [reflexivity | discriminate].
  - cbn [app listen].
    destruct (read recv_buffer r) as [buffer text].
    destruct (match text with
              | Ok s => for_replies (Py.split s)
              | Raise e => ([], Some e)
              end) as [calls raised].
    destruct (IH buffer) as [E N]. rewrite E.
    destruct (listen (before ++ [Broken]) buffer) as [more st].
    cbn [snd] in N.
    destruct raised as [[]|]; cbn [snd]; (split; [reflexivity|]);
      (exact N || discriminate).
Qed.

End MoreListen.

(** ** Sending over a socket that takes a part of what it is offered *)

Section MoreSending.

Import QEmuListener.

(** X8. When every [send] takes at least one and at most all of the
    bytes it is offered, [QEmuListener.write] returns within as many
    turns as the message has bytes, the bytes taken are the message, in
    order and complete, and no warning is issued. The message is a
    [bytes] value, or a [str] that encodes to it. *)
Theorem write_delivers_message
    (send : Socket) (message : Py.AnyStr) (data : list byte) :
  (forall k offered, offered <> [] ->
     exists n, send k offered = Ok n /\ (1 <= n <= List.length offered)%nat) ->
  Py.as_bytes message = Some data ->
  exists st,
    write (List.length data) send message = Some (Ok tt, st)
    /\ wire st = data
    /\ warnings st = []
    /\ total st = List.length data.
Proof.
  intros Hsend Hdata. unfold write. rewrite Hdata.
  destruct (write_loop_ends send data (List.length data) start)
    as (r & st & L & C & W & X & R); simpl; try lia; try reflexivity.
  { intros k offered _ Hne. destruct (Hsend k offered Hne) as (n & -> & Hn).
    exact Hn. }
  destruct r as [[]|e].
  - exists st. split; [exact L|]. split; [|split; [exact W | exact R]].
    rewrite X, R. apply firstn_all.
  - destruct R as [Hlt R].
    destruct (Hsend (pred (calls st)) _ (skipn_more data _ Hlt)) as (n & E & _).
    rewrite E in R. discriminate R.
Qed.

Lemma write_delivers_message_witness :
  let send : Socket := fun _ offered => Ok (Nat.min 2 (List.length offered)) in
  let data := list_byte_of_string "M40023830? " in
  ((forall k offered, offered <> [] ->
      exists n, send k offered = Ok n /\ (1 <= n <= List.length offered)%nat)
   /\ Py.as_bytes (Py.Bytes data) = Some data)
  /\ exists st,
       write 11 send (Py.Bytes data) = Some (Ok tt, st)
       /\ wire st = data
       /\ warnings st = []
       /\ total st = 11%nat.
Proof.
  intros send data.
  assert (H : forall k offered, offered <> [] ->
                exists n, send k offered = Ok n
                          /\ (1 <= n <= List.length offered)%nat).
  { intros k [|b [|c offered]] Hne; [contradiction| |]; unfold send;
      eexists; (split; [reflexivity | simpl; lia]). }
  assert (E : Py.as_bytes (Py.Bytes data) = Some data) by reflexivity.
  split; [split; [exact H | exact E]|].
  exact (write_delivers_message send (Py.Bytes data) data H E).
Defined.

(** The same for a [str]: the constructor's ['noecho '] over a socket
    that takes three bytes at a time. *)
Example write_delivers_str :
  write 7 (fun _ offered => Ok (Nat.min 3 (List.length offered)))
    (Py.text "noecho ")
  = Some (Ok tt,
          {| total := 7; calls := 3;
             wire := list_byte_of_string "noecho "; warnings := [] |}).
Proof. reflexivity. Qed.



(** The keys of the serial console: a carriage return on a socket that
    takes nothing, a key that is not ASCII, and a socket that would
    block. *)
Example serial_write_examples :
  QEmuSerial.write 1 (fun _ _ => Ok 0%nat) (Py.Str [13]%N)
  = Some (Raise (UserWarning "Warning: QEMU usart send error b'\r'"),
          mkWriteState 0 1 [] [])
  /\ QEmuSerial.write 1 accepting (Py.Str [233]%N)
     = Some (Raise ValueError, start)
  /\ QEmuSerial.write 1 (fun _ _ => Raise OSError) (Py.text "x")
     = Some (Raise OSError, mkWriteState 0 1 [] []).
Proof. repeat split. Qed.

End MoreSending.

(** ** Finding the button under the pointer *)

Section MoreButtons.

Lemma find_unique {A : Type} (f : A -> bool) (l : list A) (a : A) :
  In a l -> f a = true ->
  (forall a', In a' l -> f a' = true -> a' = a) ->
  find f l = Some a.
Proof.
  induction l as [|h t IH]; intros Hin Hf Huniq; [contradiction|]. simpl.
  destruct (f h) eqn:E.
  - f_equal. apply Huniq; [now left | exact E].
  - apply IH.
    + destruct Hin as [->|Hin]; [congruence | exact Hin].
    + exact Hf.
    + intros a' Ha'. apply Huniq. now right.
Qed.

Lemma inside_test (b : Button) (px py : Z) :
  (x b - radius b <=? px) && (px <=? x b + radius b)
  && ((y b - radius b <=? py) && (py <=? y b + radius b)) = true
  <-> inside b px py.
Proof.
  unfold inside. rewrite !andb_true_iff, !Z.leb_le. tauto.
Qed.

(** The squares of two buttons of the table do not meet. *)
Lemma squares_disjoint (a b : Button) (px py : Z) :
  In a Board.buttons -> In b Board.buttons ->
  inside a px py -> inside b px py -> a = b.
Proof.
  intros Ha Hb. simpl in Ha, Hb.
  repeat (destruct Ha as [<-|Ha]; [|]); try contradiction;
    repeat (destruct Hb as [<-|Hb]; [|]); try contradiction;
    unfold inside; simpl; intros Ia Ib; (reflexivity || lia).
Qed.

(** X10. [find_button] returns a button exactly when the point lies in
    that button's square: the squares of the table do not overlap, so the
    first match is the only one, and a point in no square finds
    nothing. *)
Theorem find_button_spec (px py : Z) (b : Button) :
  WmsBoard.find_button px py = Some b
  <-> In b Board.buttons /\ inside b px py.
Proof.
  unfold WmsBoard.find_button. split.
  - intros H. apply find_some in H as [Hin Ht]. split; [exact Hin|].
    now apply inside_test.
  - intros [Hin Hi]. apply find_unique; [exact Hin | now apply inside_test|].
    intros a Ha Hta. apply inside_test in Hta.
    now apply (squares_disjoint a b px py).
Qed.

Example find_button_misses :
  WmsBoard.find_button 0 0 = None /\ WmsBoard.find_button 700 130 <> None.
Proof. split; [reflexivity | discriminate]. Qed.

End MoreButtons.

(** ** The pins of the display and of the motor *)

Section MorePins.

Lemma bit_of_shifted_one (n k : Z) :
  0 <= n -> 0 <= k -> Z.testbit (Z.shiftl 1 n) k = (k =? n).
Proof.
  intros Hn Hk. rewrite Z.shiftl_1_l, Z.pow2_bits_eqb by lia.
  apply Z.eqb_sym.
Qed.

(** X11. On a board whose segment mask has four bits, a level 0 or 1 on
    one of the pins 8 to 11 returns normally, clears or sets the bit of
    the pin in the mask and leaves the other bits, keeps the mask within
    four bits, draws the LED of the pin in its new state and then the
    seven-segment image of the new mask, and writes nothing. *)
Theorem segment_pin_updates
    (pin level : Z) (b : WmsBoard) (q : option (list string)) :
  8 <= pin <= 11 ->
  level = 0 \/ level = 1 ->
  0 <= sseg b < 16 ->
  let n := pin - 8 in
  let mask :=
    if level =? 1 then Z.lor (sseg b) (Z.shiftl 1 n)
    else Z.land (sseg b) (Z.lnot (Z.shiftl 1 n)) in
  exists overlay segments,
    Board.get "sseg" = Some overlay
    /\ Py.index (images overlay) mask = Some segments
    /\ WmsBoard.update_device pin level (mkEnv b q)
       = (Ok tt,
          mkEnv
            (WmsBoard.with_sseg mask
               (WmsBoard.with_canvas
                  (canvas b
                   ++ [create_image (207 + 10 * n) 298
                         (if level =? 1 then "led-1.png" else "led-0.png");
                       create_image 550 289 segments])
                  b))
            q)
    /\ 0 <= mask < 16
    /\ forall k, 0 <= k ->
         Z.testbit mask k
         = if k =? n then level =? 1 else Z.testbit (sseg b) k.
Proof.
  intros Hpin Hlevel Hsseg n mask.
  assert (Hbits : forall k, 0 <= k ->
             Z.testbit mask k
             = if k =? n then level =? 1 else Z.testbit (sseg b) k).
  { intros k Hk. subst mask n.
    destruct Hlevel; subst level.
    - change (0 =? 1) with false. cbv iota.
      rewrite Z.land_spec, Z.lnot_spec, bit_of_shifted_one by lia.
      destruct (k =? pin - 8); simpl; [apply andb_false_r | apply andb_true_r].
    - change (1 =? 1) with true. cbv iota.
      rewrite Z.lor_spec, bit_of_shifted_one by lia.
      destruct (k =? pin - 8); simpl; [apply orb_true_r | apply orb_false_r]. }
  destruct b as [cv en ls sg mo sp di]. cbn [sseg canvas] in *.
  assert (P := between_cases 8 4 pin ltac:(simpl; lia)).
  assert (S := between_cases 0 16 sg ltac:(simpl; lia)).
  simpl in P, S. clear Hpin Hsseg.
  eexists.
  cases_of P; cases_of S; destruct Hlevel; subst level; subst mask n;
    (eexists; split; [reflexivity|]; split; [reflexivity|];
     split; [cbv -[app]; rewrite <- app_assoc; reflexivity|];
     split; [simpl; lia | exact Hbits]).
Qed.

Lemma segment_pin_updates_witness :
  (8 <= 10 <= 11 /\ (1 = 0 \/ 1 = 1) /\ 0 <= sseg WmsBoard.init < 16)
  /\ exists overlay segments,
       Board.get "sseg" = Some overlay
       /\ Py.index (images overlay) (Z.lor 0 (Z.shiftl 1 2)) = Some segments
       /\ WmsBoard.update_device 10 1 (mkEnv WmsBoard.init None)
          = (Ok tt,
             mkEnv
               (WmsBoard.with_sseg (Z.lor 0 (Z.shiftl 1 2))
                  (WmsBoard.with_canvas
                     [create_image 227 298 "led-1.png";
                      create_image 550 289 segments]
                     WmsBoard.init))
               None).
Proof.
  assert (H1 : 8 <= 10 <= 11) by lia.
  assert (H2 : 1 = 0 \/ 1 = 1) by (right; reflexivity).
  assert (H3 : 0 <= sseg WmsBoard.init < 16) by (simpl; lia).
  split; [auto|].
  destruct (segment_pin_updates 10 1 WmsBoard.init None H1 H2 H3)
    as (overlay & segments & A & B & C & _).
  exists overlay, segments. auto.
Defined.

(** X12. On a board whose sprite frame names a motor image, any level
    on pin 12 returns normally, draws the motor at its current frame,
    draws the stopped spinner exactly when the motor was running and the
    level is 0, sets the motor flag to [bool(level)], and changes and
    writes nothing else. *)
Theorem motor_pin_updates (level : Z) (b : WmsBoard) (q : option (list string)) :
  0 <= sprite b < 3 ->
  exists frame,
    nth_error ["motor-00.png"; "motor-30.png"; "motor-60.png"]%string
      (Z.to_nat (sprite b)) = Some frame
    /\ WmsBoard.update_device 12 level (mkEnv b q)
       = (Ok tt,
          mkEnv
            (WmsBoard.with_motor (negb (level =? 0))
               (WmsBoard.with_canvas
                  (canvas b
                   ++ create_image 592 171 frame
                      :: (if motor b && (level =? 0)
                          then [create_image 627 203 "motor-stop.png"]
                          else []))
                  b))
            q).
Proof.
  intros Hsprite. destruct b as [cv en ls sg mo sp di]. cbn [sprite canvas motor] in *.
  assert (F := between_cases 0 3 sp ltac:(simpl; lia)). simpl in F.
  clear Hsprite. unfold WmsBoard.update_device, Py.truthy.
  cases_of F; destruct mo, (level =? 0);
    (eexists; split; [reflexivity|]);
    cbv -[app]; rewrite <- ?app_assoc; reflexivity.
Qed.

Lemma motor_pin_updates_witness :
  let b := WmsBoard.with_motor true WmsBoard.init in
  0 <= sprite b < 3
  /\ WmsBoard.update_device 12 0 (mkEnv b None)
     = (Ok tt,
        mkEnv
          (WmsBoard.with_motor false
             (WmsBoard.with_canvas
                [create_image 592 171 "motor-00.png";
                 create_image 627 203 "motor-stop.png"] b))
          None).
Proof.
  intros b.
  assert (H : 0 <= sprite b < 3) by (simpl; lia).
  split; [exact H|].
  destruct (motor_pin_updates 0 b None H) as (frame & F & E).
  injection F as <-. exact E.
Defined.

Ltac run_under_fst :=
  match goal with
  | |- context [fst ?t] =>
      let v := eval cbv -[app] in t in change t with v
  end;
  cbn [fst].

Lemma update_device_returns (pin level : Z) (env : Env) :
  level = 0 \/ level = 1 ->
  WmsBoard.valid (self env) ->
  fst (WmsBoard.update_device pin level env) = Ok tt.
Proof.
  intros Hlevel V.
  destruct (Z.ltb_spec pin 8) as [Hlo|Hlo];
    [now rewrite update_device_ignores by lia|].
  destruct (Z.ltb_spec 14 pin) as [Hhi|Hhi];
    [now rewrite update_device_ignores by lia|].
  destruct env as [[cv en ls sg mo sp di] q].
  destruct V as (Hlen & Hsseg & Hsprite). cbn [self latched sseg sprite] in *.
  assert (P := between_cases 8 7 pin ltac:(simpl; lia)).
  assert (S := between_cases 0 16 sg ltac:(simpl; lia)).
  assert (F := between_cases 0 3 sp ltac:(simpl; lia)).
  simpl in P, S, F. clear Hlo Hhi Hsseg Hsprite.
  destruct ls as [|l0 [|l1 [|l2 [|l3 [|l4 [|l5 [|l6 [|l7 [|]]]]]]]]];
    try discriminate Hlen.
  destruct P as [P|[P|[P|[P|[P|[P|[P|[]]]]]]]]; subst pin.
  1-4: cases_of S; destruct Hlevel; subst level; run_under_fst; reflexivity.
  - cases_of F; destruct mo, Hlevel; subst level; run_under_fst; reflexivity.
  - destruct Hlevel; subst level; run_under_fst; reflexivity.
  - destruct q, Hlevel; subst level; run_under_fst; reflexivity.
Qed.

(** X13. In every state the GUI can reach, a pin event is handled
    without an exception, whatever pin number it carries: no image
    index, LED position or latched flag is out of range. *)
Theorem pin_events_never_raise (inputs : list WmsGui.Input) (value : Z) :
  fst (WmsGui.on_message QEmuTag.pin_low value (WmsGui.run WmsGui.init inputs))
  = Ok tt
  /\ fst (WmsGui.on_message QEmuTag.pin_high value (WmsGui.run WmsGui.init inputs))
     = Ok tt.
Proof.
  assert (V : WmsBoard.valid (board (WmsGui.run WmsGui.init inputs))).
  { apply (run_sane inputs WmsGui.init).
    split; [|exact I]. unfold WmsBoard.valid. simpl. repeat split; lia. }
  set (g := WmsGui.run WmsGui.init inputs) in *.
  unfold WmsGui.on_message. simpl (QEmuTag.pin_low =? _).
  simpl (QEmuTag.pin_high =? _). cbv iota. unfold WmsGui.call_board.
  pose proof (update_device_returns value 0 (mkEnv (board g) (listener g))
                (or_introl eq_refl) V) as L.
  pose proof (update_device_returns value 1 (mkEnv (board g) (listener g))
                (or_intror eq_refl) V) as H.
  destruct (WmsBoard.update_device value 0 _) as [r0 e0].
  destruct (WmsBoard.update_device value 1 _) as [r1 e1].
  simpl in *. now subst.
Qed.

End MorePins.

(** ** Animation and the latch-style buttons *)

Section MoreBoard.

(** X14. With the motor off [animate] does nothing. With the motor on,
    a valid sprite frame and a direction of 0 or 1 it returns normally,
    draws the motor image of the current sprite frame and then the
    spinner image of the direction (clockwise for 0, anticlockwise for
    1), advances the frame by one modulo 3 and changes nothing else;
    three calls bring the frame back to where it was. *)
Theorem animate_cycles (b : WmsBoard) (q : option (list string)) :
  0 <= sprite b < 3 ->
  0 <= direction b <= 1 ->
  let step env := snd (WmsBoard.animate env) in
  (motor b = false -> WmsBoard.animate (mkEnv b q) = (Ok tt, mkEnv b q))
  /\ (motor b = true ->
      exists frame spinner,
        nth_error ["motor-00.png"; "motor-30.png"; "motor-60.png"]%string
          (Z.to_nat (sprite b)) = Some frame
        /\ spinner = (if direction b =? 0 then "motor-cw.png"%string
                      else "motor-acw.png"%string)
        /\ WmsBoard.animate (mkEnv b q)
        = (Ok tt,
           mkEnv
             (WmsBoard.with_sprite ((sprite b + 1) mod 3)
                (WmsBoard.with_canvas
                   (canvas b ++ [create_image 592 171 frame;
                                 create_image 627 203 spinner])
                   b))
             q)
        /\ sprite (self (step (step (step (mkEnv b q))))) = sprite b
        /\ qemu (step (step (step (mkEnv b q)))) = q).
Proof.
  intros Hsprite Hdir step.
  destruct b as [cv en ls sg mo sp di]. cbn [sprite direction motor canvas] in *.
  assert (F := between_cases 0 3 sp ltac:(simpl; lia)).
  assert (D := between_cases 0 2 di ltac:(simpl; lia)).
  simpl in F, D. clear Hsprite Hdir. split; intros ->.
  - reflexivity.
  - subst step.
    cases_of F; cases_of D;
      (do 2 eexists; split; [reflexivity|]; split; [reflexivity|]; split;
       [cbv -[app]; rewrite <- ?app_assoc; reflexivity|]; split; reflexivity).
Qed.

Lemma animate_cycles_witness :
  let b := WmsBoard.with_sprite 2 (WmsBoard.with_motor true WmsBoard.init) in
  (0 <= sprite b < 3 /\ 0 <= direction b <= 1)
  /\ sprite (self (snd (WmsBoard.animate (mkEnv b None)))) = 0.
Proof.
  intros b.
  assert (H1 : 0 <= sprite b < 3) by (simpl; lia).
  assert (H2 : 0 <= direction b <= 1) by (simpl; lia).
  split; [split; assumption|].
  destruct (proj2 (animate_cycles b None H1 H2) eq_refl)
    as (frame & spinner & _ & _ & E & _).
  rewrite E. reflexivity.
Defined.

(** X15. A latch-style button of the table while the latch is on, its
    flag clear: the press sets its flag, draws it pressed if it has an
    overlay and writes its down command; after that neither a release
    nor another press changes, draws or writes anything. *)
Theorem latch_button_stays_down
    (button : Button) (p : Z) (b : WmsBoard) (out : list string) :
  In button Board.buttons ->
  style button = ButtonStyle.latch ->
  pin button = Some p ->
  latch b = true ->
  List.length (latched b) = 8%nat ->
  Py.index (latched b) p = Some false ->
  let pressed :=
    mkEnv
      (WmsBoard.with_canvas (canvas b ++ overlay_draw button 1)
         (WmsBoard.with_latched (Py.set_nth (latched b) (Z.to_nat p) true) b))
      (Some (out ++ [down button])) in
  WmsBoard.button_down button (mkEnv b (Some out)) = (Ok tt, pressed)
  /\ WmsBoard.button_up button pressed = (Ok tt, pressed)
  /\ WmsBoard.button_down button pressed = (Ok tt, pressed).
Proof.
  intros Hin Hs Hp Hen Hlen Hflag.
  destruct b as [cv en ls sg mo sp di]. cbn [latch latched canvas] in *. subst en.
  destruct ls as [|l0 [|l1 [|l2 [|l3 [|l4 [|l5 [|l6 [|l7 [|]]]]]]]]];
    try discriminate Hlen.
  simpl in Hin.
  destruct Hin as [<-|[<-|[<-|[<-|[<-|[<-|[<-|[<-|[]]]]]]]]];
    try discriminate Hs; simpl in Hp; injection Hp as <-;
    cbv in Hflag; injection Hflag as ->;
    cbv -[app]; rewrite ?app_nil_r; repeat split; reflexivity.
Qed.

Lemma latch_button_stays_down_witness :
  let button := mkButton "PS2" (Some 2) ButtonStyle.latch "D0L2 " "D0d2 " 695 130 12 in
  let b := WmsBoard.with_latch true WmsBoard.init in
  (In button Board.buttons /\ style button = ButtonStyle.latch
   /\ pin button = Some 2 /\ latch b = true
   /\ List.length (latched b) = 8%nat /\ Py.index (latched b) 2 = Some false)
  /\ WmsBoard.button_down button (mkEnv b (Some []))
     = (Ok tt,
        mkEnv
          (WmsBoard.with_canvas [create_image 667 26 "ps2-1.png"]
             (WmsBoard.with_latched (Py.set_nth (latched b) 2 true) b))
          (Some ["D0L2 "%string])).
Proof.
  intros button b.
  assert (H1 : In button Board.buttons) by (simpl; tauto).
  assert (H2 : style button = ButtonStyle.latch) by reflexivity.
  assert (H3 : pin button = Some 2) by reflexivity.
  assert (H4 : latch b = true) by reflexivity.
  assert (H5 : List.length (latched b) = 8%nat) by reflexivity.
  assert (H6 : Py.index (latched b) 2 = Some false) by reflexivity.
  split; [repeat split; assumption|].
  exact (proj1 (latch_button_stays_down button 2 b [] H1 H2 H3 H4 H5 H6)).
Defined.

(** X16. A latch-style button of the table while the latch is off is
    momentary: the press writes its down command, the release its up
    command, both draw it if it has an overlay, and its flag is clear
    afterwards whatever it was before; no other flag changes. *)
Theorem latch_button_momentary
    (button : Button) (p : Z) (b : WmsBoard) (out : list string) :
  In button Board.buttons ->
  style button = ButtonStyle.latch ->
  pin button = Some p ->
  latch b = false ->
  List.length (latched b) = 8%nat ->
  let flags := Py.set_nth (latched b) (Z.to_nat p) false in
  let pressed :=
    mkEnv (WmsBoard.with_canvas (canvas b ++ overlay_draw button 1)
             (WmsBoard.with_latched flags b))
          (Some (out ++ [down button])) in
  WmsBoard.button_down button (mkEnv b (Some out)) = (Ok tt, pressed)
  /\ WmsBoard.button_up button pressed
     = (Ok tt,
        mkEnv (WmsBoard.with_canvas
                 (canvas b ++ overlay_draw button 1 ++ overlay_draw button 0)
                 (WmsBoard.with_latched flags b))
              (Some (out ++ [down button; up button]))).
Proof.
  intros Hin Hs Hp Hen Hlen.
  destruct b as [cv en ls sg mo sp di]. cbn [latch latched canvas] in *. subst en.
  destruct ls as [|l0 [|l1 [|l2 [|l3 [|l4 [|l5 [|l6 [|l7 [|]]]]]]]]];
    try discriminate Hlen.
  simpl in Hin.
  destruct Hin as [<-|[<-|[<-|[<-|[<-|[<-|[<-|[<-|[]]]]]]]]];
    try discriminate Hs; simpl in Hp; injection Hp as <-;
    cbv -[app]; rewrite <- ?app_assoc; cbn [app]; rewrite ?app_nil_r;
    split; reflexivity.
Qed.

Lemma latch_button_momentary_witness :
  let button := mkButton "accept" (Some 5) ButtonStyle.latch "D0L5 " "D0d5 " 575 130 12 in
  (In button Board.buttons /\ style button = ButtonStyle.latch
   /\ pin button = Some 5 /\ latch WmsBoard.init = false
   /\ List.length (latched WmsBoard.init) = 8%nat)
  /\ WmsBoard.button_down button (mkEnv WmsBoard.init (Some []))
     = (Ok tt,
        mkEnv (WmsBoard.with_canvas []
                 (WmsBoard.with_latched (Py.set_nth (latched WmsBoard.init) 5 false)
                    WmsBoard.init))
              (Some ["D0L5 "%string])).
Proof.
  intros button.
  assert (H1 : In button Board.buttons) by (simpl; tauto).
  assert (H2 : style button = ButtonStyle.latch) by reflexivity.
  assert (H3 : pin button = Some 5) by reflexivity.
  assert (H4 : latch WmsBoard.init = false) by reflexivity.
  assert (H5 : List.length (latched WmsBoard.init) = 8%nat) by reflexivity.
  split; [repeat split; assumption|].
  exact (proj1 (latch_button_momentary button 5 WmsBoard.init [] H1 H2 H3 H4 H5)).
Defined.

(** X17. Pressing or releasing a button of the table on a board with
    its eight latched flags never raises and never changes what the pins
    drive (latch flag, segment mask, motor flag, sprite frame,
    direction). A release changes no latched flag at all; a press changes
    at most the flag of the button's own pin. Without a listener nothing
    is written. *)
Theorem button_ops_frame (button : Button) (env : Env) :
  In button Board.buttons ->
  List.length (latched (self env)) = 8%nat ->
  let pressed := WmsBoard.button_down button env in
  let released := WmsBoard.button_up button env in
  fst pressed = Ok tt /\ fst released = Ok tt
  /\ registers (self (snd pressed)) = registers (self env)
  /\ registers (self (snd released)) = registers (self env)
  /\ latched (self (snd released)) = latched (self env)
  /\ match pin button with
     | Some p =>
         exists v, latched (self (snd pressed))
                   = Py.set_nth (latched (self env)) (Z.to_nat p) v
     | None => latched (self (snd pressed)) = latched (self env)
     end
  /\ (qemu env = None ->
      qemu (snd pressed) = None /\ qemu (snd released) = None).
Proof.
  intros Hin Hlen. destruct env as [[cv en ls sg mo sp di] q].
  cbn [self latched] in *.
  destruct ls as [|l0 [|l1 [|l2 [|l3 [|l4 [|l5 [|l6 [|l7 [|]]]]]]]]];
    try discriminate Hlen.
  simpl in Hin.
  destruct Hin as [<-|[<-|[<-|[<-|[<-|[<-|[<-|[<-|[]]]]]]]]];
    [> destruct q | destruct q, l0 | destruct q, en, l1 | destruct q, en, l2
     | destruct q, en, l3 | destruct q, en, l4 | destruct q, en, l5
     | destruct q ];
    cbv zeta; (split; [reflexivity|]); (split; [reflexivity|]);
    (split; [reflexivity|]); (split; [reflexivity|]);
    (split; [reflexivity|]);
    (split; [cbn [pin]; try (eexists; reflexivity); reflexivity|]);
    intros Hq; try discriminate Hq; split; reflexivity.
Qed.

Lemma button_ops_frame_witness :
  let button := mkButton "motor" (Some 6) ButtonStyle.plain "D0L6 " "D0d6 " 650 230 50 in
  let env := mkEnv WmsBoard.init None in
  (In button Board.buttons /\ List.length (latched (self env)) = 8%nat)
  /\ fst (WmsBoard.button_down button env) = Ok tt
  /\ fst (WmsBoard.button_up button env) = Ok tt.
Proof.
  intros button env.
  assert (H1 : In button Board.buttons) by (simpl; tauto).
  assert (H2 : List.length (latched (self env)) = 8%nat) by reflexivity.
  pose proof (button_ops_frame button env H1 H2) as R.
  split; [split; assumption|]. split; apply R.
Defined.

End MoreBoard.

(** ** What the board methods write and raise *)

Section EnvFrames.

Context {X : Type} (f : Env -> X).

Lemma env_keeps_ret {A : Type} (a : A) : env_keeps f (ret a).
Proof. intros env. reflexivity. Qed.

Lemma env_keeps_raise {A : Type} (e : exn) : env_keeps f (@raise Env A e).
Proof. intros env. reflexivity. Qed.

Lemma env_keeps_gets {A : Type} (h : Env -> A) : env_keeps f (gets h).
Proof. intros env. reflexivity. Qed.

Lemma env_keeps_orelse {A : Type} (o : option A) (e : exn) :
  env_keeps f (orelse o e).
Proof. intros env. destruct o; reflexivity. Qed.

Lemma env_keeps_modify (h : Env -> Env) :
  (forall env, f (h env) = f env) -> env_keeps f (modify h).
Proof. intros H env. apply H. Qed.

Lemma env_keeps_bind {A B : Type} (c : M Env A) (k : A -> M Env B) :
  env_keeps f c -> (forall a, env_keeps f (k a)) -> env_keeps f (bind c k).
Proof.
  intros Hc Hk env. unfold bind. specialize (Hc env).
  destruct (c env) as [[a|e] env1]; simpl in *; [now rewrite Hk | exact Hc].
Qed.

Lemma env_keeps_when (cond : bool) (body : M Env unit) :
  env_keeps f body -> env_keeps f (when cond body).
Proof. intros H. destruct cond; [exact H | apply env_keeps_ret]. Qed.

Lemma env_keeps_for_each {A : Type} (l : list A) (body : A -> M Env unit) :
  (forall a, env_keeps f (body a)) -> env_keeps f (for_each l body).
Proof.
  intros H. induction l as [|a l IH]; simpl;
    [apply env_keeps_ret | apply env_keeps_bind; auto].
Qed.

End EnvFrames.

Ltac env_keeps_step :=
  first
    [ apply env_keeps_ret | apply env_keeps_raise | apply env_keeps_gets
    | apply env_keeps_orelse | apply env_keeps_when
    | apply env_keeps_for_each; intros
    | apply env_keeps_bind; [|intros]
    | apply env_keeps_modify; intros; reflexivity
    | match goal with
      | |- env_keeps _ (match ?x with _ => _ end) => destruct x
      end ].

Section Writes.

Import WmsGui.

(** Only a low level on pin 14 makes [update_device] write. *)
Lemma update_device_writes_nothing (pin level : Z) :
  pin <> 14 \/ level = 1 ->
  env_keeps qemu (WmsBoard.update_device pin level).
Proof.
  intros H. unfold WmsBoard.update_device.
  destruct ((8 <=? pin) && (pin <=? 11)).
  { unfold WmsBoard.overlay_item, WmsBoard.image_item, WmsBoard.draw.
    repeat env_keeps_step. }
  destruct (pin =? 12).
  { unfold WmsBoard.overlay_item, WmsBoard.image_item, WmsBoard.draw.
    repeat env_keeps_step. }
  destruct (pin =? 13); [repeat env_keeps_step|].
  destruct (Z.eqb_spec pin 14) as [E|E]; [|apply env_keeps_ret].
  destruct H as [H|H]; [contradiction|]. subst level.
  intros [b q]. reflexivity.
Qed.

Lemma listener_call_board_quiet (method : M Env unit) :
  env_keeps qemu method -> keeps listener (call_board true method).
Proof.
  intros H g. unfold call_board.
  specialize (H (mkEnv (board g) (listener g))).
  destruct (method _) as [r env]. simpl in *. exact H.
Qed.

Lemma listener_call_board_detached (method : M Env unit) :
  keeps listener (call_board false method).
Proof.
  intros g. unfold call_board. destruct (method _) as [r env]. reflexivity.
Qed.

Lemma resync_writes_nothing (value : Z) : keeps listener (resync value).
Proof.
  unfold resync. apply keeps_bind; [|intros _].
  - apply keeps_for_each. intros pin. apply keeps_when.
    apply listener_call_board_quiet, update_device_writes_nothing. now right.
  - apply keeps_for_each. intros b. destruct (pin b); [|apply keeps_ret].
    apply keeps_when.
    apply keeps_bind; [|intros _]; apply listener_call_board_detached.
Qed.

(** X18. Whatever state the GUI is in, handling a message writes
    nothing to the listener unless the message is a low level on pin 14:
    register values, the replay of the first [idr] value and every other
    pin event are taken in without sending a command back. *)
Theorem messages_write_only_on_latch_release (tag value : Z) (g : WmsGui) :
  ~ (tag = QEmuTag.pin_low /\ value = 14) ->
  listener (snd (on_message tag value g)) = listener g.
Proof.
  intros H. revert g. change (keeps listener (on_message tag value)).
  unfold on_message.
  destruct (tag =? QEmuTag.gpiod_enabled); [keeps_all|].
  destruct (tag =? QEmuTag.moder); [keeps_all|].
  destruct (tag =? QEmuTag.idr).
  { apply keeps_bind; [keeps_all | intros _].
    apply keeps_bind; [apply keeps_gets | intros pending].
    apply keeps_bind; [|intros _; keeps_all].
    apply keeps_when.
    apply keeps_bind; [keeps_all | intros _; apply resync_writes_nothing]. }
  destruct (Z.eqb_spec tag QEmuTag.pin_low) as [E|E].
  { apply listener_call_board_quiet, update_device_writes_nothing.
    left. intros V. apply H. now split. }
  destruct (tag =? QEmuTag.pin_high).
  { apply listener_call_board_quiet, update_device_writes_nothing. now right. }
  repeat match goal with
         | |- keeps _ (if ?c then _ else _) => destruct c
         end; keeps_all.
Qed.

Lemma messages_write_only_on_latch_release_witness :
  let g := set_listener (Some ["noecho "; "listen "]%string) init in
  ~ (QEmuTag.idr = QEmuTag.pin_low /\ 65535 = 14)
  /\ listener (snd (on_message QEmuTag.idr 65535 g)) = listener g.
Proof.
  intros g.
  assert (H : ~ (QEmuTag.idr = QEmuTag.pin_low /\ 65535 = 14))
    by (intros [E _]; discriminate E).
  split; [exact H | exact (messages_write_only_on_latch_release _ _ g H)].
Defined.

End Writes.

(** ** No handler raises [UserWarning] *)

Section Quiet.

Context {S : Type}.

Lemma quiet_ret {A : Type} (a : A) : quiet (@ret S A a).
Proof. intros s msg. discriminate. Qed.

Lemma quiet_gets {A : Type} (h : S -> A) : quiet (gets h).
Proof. intros s msg. discriminate. Qed.

Lemma quiet_modify (h : S -> S) : quiet (modify h).
Proof. intros s msg. discriminate. Qed.

Lemma quiet_raise {A : Type} (e : exn) :
  (forall msg, e <> UserWarning msg) -> quiet (@raise S A e).
Proof. intros H s msg E. injection E as E. now apply (H msg). Qed.

Lemma quiet_orelse {A : Type} (o : option A) (e : exn) :
  (forall msg, e <> UserWarning msg) -> quiet (@orelse S A o e).
Proof. intros H. destruct o; [apply quiet_ret | now apply quiet_raise]. Qed.

Lemma quiet_bind {A B : Type} (c : M S A) (k : A -> M S B) :
  quiet c -> (forall a, quiet (k a)) -> quiet (bind c k).
Proof.
  intros Hc Hk s msg. unfold bind. specialize (Hc s msg).
  destruct (c s) as [[a|e] s1]; simpl in *; [apply Hk|].
  intros E. apply Hc. injection E as ->. reflexivity.
Qed.

Lemma quiet_when (cond : bool) (body : M S unit) :
  quiet body -> quiet (when cond body).
Proof. intros H. destruct cond; [exact H | apply quiet_ret]. Qed.

Lemma quiet_for_each {A : Type} (l : list A) (body : A -> M S unit) :
  (forall a, quiet (body a)) -> quiet (for_each l body).
Proof.
  intros H. induction l as [|a l IH]; simpl;
    [apply quiet_ret | apply quiet_bind; auto].
Qed.

End Quiet.

Ltac quiet_step :=
  first
    [ apply quiet_ret | apply quiet_gets | apply quiet_modify
    | apply quiet_raise; intros; discriminate
    | apply quiet_orelse; intros; discriminate
    | apply quiet_when
    | apply quiet_for_each; intros
    | apply quiet_bind; [|intros]
    | match goal with
      | |- quiet (match ?x with _ => _ end) => destruct x
      end ].

Section QuietHandlers.

Import WmsGui.

Lemma update_device_quiet (pin level : Z) : quiet (WmsBoard.update_device pin level).
Proof.
  unfold WmsBoard.update_device, WmsBoard.overlay_item, WmsBoard.image_item,
    WmsBoard.draw, WmsBoard.latched_assign, WmsBoard.qemu_write.
  repeat quiet_step.
Qed.

Lemma animate_quiet : quiet WmsBoard.animate.
Proof.
  unfold WmsBoard.animate, WmsBoard.overlay_item, WmsBoard.image_item,
    WmsBoard.draw.
  repeat quiet_step.
Qed.

Lemma button_down_quiet (b : Button) : quiet (WmsBoard.button_down b).
Proof.
  unfold WmsBoard.button_down, WmsBoard.press, WmsBoard.update_button,
    WmsBoard.latched_item, WmsBoard.latched_assign, WmsBoard.image_item,
    WmsBoard.draw, WmsBoard.qemu_write.
  repeat quiet_step.
Qed.

Lemma button_up_quiet (b : Button) : quiet (WmsBoard.button_up b).
Proof.
  unfold WmsBoard.button_up, WmsBoard.release, WmsBoard.update_button,
    WmsBoard.latched_item, WmsBoard.image_item, WmsBoard.draw,
    WmsBoard.qemu_write.
  repeat quiet_step.
Qed.

Lemma call_board_quiet (pass : bool) (method : M Env unit) :
  quiet method -> quiet (call_board pass method).
Proof.
  intros H g msg. unfold call_board.
  specialize (H (mkEnv (board g) (if pass then listener g else None)) msg).
  now destruct (method _) as [r env].
Qed.

Lemma listener_write_quiet (message : string) : quiet (listener_write message).
Proof. unfold listener_write. repeat quiet_step. Qed.

Lemma poll_serial_quiet (waiting : list (list byte)) : quiet (poll_serial waiting).
Proof.
  induction waiting as [|data rest IH]; simpl; [apply quiet_ret|].
  apply quiet_bind; [apply quiet_modify | intros _].
  unfold serial_read. destruct (Py.decode_ascii _) as [text|];
    [|apply quiet_raise; intros; discriminate].
  destruct (String.eqb text ""); [apply quiet_ret|].
  apply quiet_bind; [apply quiet_modify | intros _; exact IH].
Qed.

Lemma timer_body_quiet :
  quiet (bind do_poll_serial (fun _ =>
         bind do_query_qemu (fun _ =>
         bind (call_board false WmsBoard.animate) (fun _ =>
         bind (gets listener) (fun l =>
         bind (when (match l with Some _ => true | None => false end)
                 (bind (listener_write Board.rcc_ahbenr) (fun _ =>
                  bind (gets serial) (fun s =>
                  when (match s with Some _ => true | None => false end)
                    (listener_write Board.rcc_apb1enr))))) (fun _ =>
         bind (gets stopping) (fun halted =>
         when (negb halted) (after POLL call_on_timer_running)))))))).
Proof.
  unfold do_poll_serial, do_query_qemu, after.
  repeat first
    [ apply poll_serial_quiet | apply listener_write_quiet
    | apply call_board_quiet, animate_quiet | quiet_step ].
Qed.

End QuietHandlers.

(** ** Timers, popups and the stop flag *)

Section Scheduling.

Import WmsGui.

Section Insensitive.

Variable P : WmsGui -> Prop.
Hypothesis P_board : forall b g, P g -> P (set_board b g).
Hypothesis P_listener : forall l g, P g -> P (set_listener l g).
Hypothesis P_serial : forall s g, P g -> P (set_serial s g).
Hypothesis P_putty : forall t g, P g -> P (set_putty t g).

Lemma preserves_orelse {A : Type} (o : option A) (e : exn) :
  preserves P (orelse o e).
Proof. intros g H. destruct o; exact H. Qed.

Lemma preserves_call_board (pass : bool) (method : M Env unit) :
  preserves P (call_board pass method).
Proof.
  intros g H. unfold call_board. destruct (method _) as [r env]. simpl.
  apply P_board. destruct pass; [now apply P_listener | exact H].
Qed.

Lemma preserves_listener_write (message : string) :
  preserves P (listener_write message).
Proof.
  intros g H. unfold listener_write, bind, gets. simpl.
  destruct (listener g); simpl; [now apply P_listener | exact H].
Qed.

Lemma preserves_poll_serial (waiting : list (list byte)) :
  preserves P (poll_serial waiting).
Proof.
  induction waiting as [|data rest IH]; simpl; [apply preserves_ret|].
  apply preserves_bind;
    [apply preserves_modify; intros g H; now apply P_serial | intros _].
  destruct (serial_read data) as [text|e]; [|apply preserves_raise].
  destruct (String.eqb text ""); [apply preserves_ret|].
  apply preserves_bind;
    [apply preserves_modify; intros g H; now apply P_putty | intros _; exact IH].
Qed.

(** Under [catch], a quiet handler leaves either the state it reached
    or that state with one more popup. *)
Lemma preserves_catch (h : M WmsGui unit) :
  preserves P h -> quiet h ->
  (forall g e, P g -> P (if stopping g then g
                         else set_popups (popups g ++ [e]) g)) ->
  preserves P (catch h).
Proof.
  intros Hp Hq Hpop g Hg. unfold catch.
  specialize (Hp g Hg). specialize (Hq g).
  destruct (h g) as [[[]|e] g1]; simpl in *; [exact Hp|].
  pose proof (Hpop g1 e Hp) as Hx.
  destruct e as [msg| | | | | |];
    [exfalso; now apply (Hq msg) | ..];
    destruct (stopping g1); exact Hx.
Qed.

End Insensitive.

(** The last step of [on_timer_running]. *)
Lemma reschedule_unless_stopping (P : WmsGui -> Prop) :
  (forall g, P g -> stopping g = true) ->
  preserves P (bind (gets stopping) (fun halted =>
                 when (negb halted) (after POLL call_on_timer_running))).
Proof.
  intros H g Hg. unfold bind, gets. simpl. rewrite (H g Hg). exact Hg.
Qed.

Lemma stopped_tick (T : list (Z * Callback)) (E : list exn) :
  preserves (fun g => stopping g = true /\ timers g = T /\ popups g = E)
    on_timer_running.
Proof.
  unfold on_timer_running.
  apply preserves_catch; [|apply timer_body_quiet|].
  - unfold do_poll_serial, do_query_qemu.
    repeat first
      [ apply reschedule_unless_stopping; intros g H; apply H
      | apply preserves_poll_serial; intros; assumption
      | apply preserves_listener_write; intros; assumption
      | apply preserves_call_board; intros; assumption
      | apply preserves_ret | apply preserves_gets | apply preserves_when
      | apply preserves_bind; [|intros]
      | match goal with
        | |- preserves _ (match ?x with _ => _ end) => destruct x
        end ].
  - intros g e (Hs & Ht & He). rewrite Hs. auto.
Qed.

(** X19. [on_halt] writes ["halt "] if there is a listener and sets the
    stop flag; from then on no timer tick schedules another tick or
    shows a popup, however many ticks are still delivered. *)
Theorem no_tick_after_halt (g : WmsGui) (n : nat) :
  let halted := step g Halt in
  let tick := fun g => step g TimerRunning in
  stopping halted = true
  /\ listener halted = option_map (fun out => out ++ ["halt "%string]) (listener g)
  /\ timers (Nat.iter n tick halted) = timers halted
  /\ popups (Nat.iter n tick halted) = popups halted
  /\ stopping (Nat.iter n tick halted) = true.
Proof.
  intros halted tick.
  assert (H : stopping halted = true
              /\ listener halted
                 = option_map (fun out => out ++ ["halt "%string]) (listener g)).
  { subst halted. unfold step. simpl handler.
    unfold on_halt, catch, listener_write, bind, gets, when, modify.
    destruct g. cbn [listener snd fst]. destruct listener0; split; reflexivity. }
  destruct H as [Hs Hl]. split; [exact Hs|]. split; [exact Hl|].
  assert (K : stopping (Nat.iter n tick halted) = true
              /\ timers (Nat.iter n tick halted) = timers halted
              /\ popups (Nat.iter n tick halted) = popups halted).
  { induction n as [|n IH]; [auto|].
    rewrite Nat.iter_succ. unfold tick at 1 3 5, step. simpl handler.
    apply (stopped_tick (timers halted) (popups halted)). exact IH. }
  destruct K as (K1 & K2 & K3). auto.
Qed.

Lemma none_clearing_after (ms : Z) (cb : Callback) :
  cb <> call_do_warning EmptyString ->
  preserves none_clearing (after ms cb).
Proof.
  intros H g Hg. unfold none_clearing, after, modify in *. simpl.
  apply Forall_app. split; [exact Hg|]. constructor; [|constructor].
  unfold clearing. simpl. exact H.
Qed.

Ltac none_clearing_step :=
  first
    [ apply none_clearing_after; discriminate
    | apply preserves_poll_serial; intros; assumption
    | apply preserves_listener_write; intros; assumption
    | apply preserves_call_board; intros; assumption
    | apply preserves_ret | apply preserves_raise | apply preserves_gets
    | apply preserves_when
    | apply preserves_finally
    | apply preserves_bind; [|intros]
    | apply preserves_for_each; intros
    | apply preserves_modify; intros ? ?; assumption
    | match goal with
      | |- preserves _ (match ?x with _ => _ end) => destruct x
      end ].

Lemma none_clearing_catch (h : M WmsGui unit) :
  preserves none_clearing h -> quiet h -> preserves none_clearing (catch h).
Proof.
  intros Hp Hq. apply preserves_catch; [exact Hp | exact Hq|].
  intros g e Hg. destruct (stopping g); exact Hg.
Qed.

Lemma handler_none_clearing (i : Input) : preserves none_clearing (handler i).
Proof.
  destruct i as [tag value|now value|px py| | | |data|now|dial ok now|];
    simpl.
  - unfold on_message, resync.
    repeat match goal with
           | |- preserves _ (if ?c then _ else _) => destruct c
           end; repeat none_clearing_step.
  - unfold do_warning. destruct (negb _); repeat none_clearing_step.
  - unfold on_move. repeat none_clearing_step.
  - unfold on_b1_down. apply none_clearing_catch.
    + repeat none_clearing_step.
    + repeat first [apply call_board_quiet, button_down_quiet | quiet_step].
  - unfold on_b1_up. apply none_clearing_catch.
    + repeat none_clearing_step.
    + repeat first [apply call_board_quiet, button_up_quiet | quiet_step].
  - unfold on_timer_running. apply none_clearing_catch; [|apply timer_body_quiet].
    unfold do_poll_serial, do_query_qemu. repeat none_clearing_step.
  - repeat none_clearing_step.
  - unfold on_connect. apply none_clearing_catch.
    + unfold do_warning. repeat none_clearing_step.
    + unfold do_warning, after. repeat quiet_step.
  - unfold do_connect, close, warning, do_warning.
    destruct dial; [|destruct (negb ok)|]; repeat none_clearing_step.
  - unfold on_halt. apply none_clearing_catch.
    + repeat none_clearing_step.
    + repeat first [apply listener_write_quiet | quiet_step].
Qed.

(** X20. Whatever the main loop delivers, no handler ever schedules
    [do_warning] with an empty text: the timers the GUI has set never
    hold the call that would clear the warning field. *)
Theorem clearing_never_scheduled (inputs : list Input) :
  Forall (fun t => snd t <> call_do_warning EmptyString)
    (timers (run init inputs)).
Proof.
  assert (G : forall g, none_clearing g -> none_clearing (run g inputs)).
  { unfold run. induction inputs as [|i inputs IH]; intros g H;
      cbn [fold_left]; [exact H|].
    apply IH. unfold step. now apply handler_none_clearing. }
  apply (G init). unfold none_clearing, init. simpl.
  constructor; [|constructor]. unfold clearing. simpl. discriminate.
Qed.

End Scheduling.

(** ** The timer tick, the serial console and the pointer *)

Section MoreHandlers.

Import WmsGui.

(** X21. A timer tick of a connected GUI without a serial console, on
    a board with a valid sprite frame and direction: it writes the two
    register queries if GPIOD is known to be enabled, the two USART
    queries if USART3 is, and then always the GPIOD enable probe, in that
    order, and schedules the next tick unless the GUI is stopping. *)
Theorem tick_queries (g : WmsGui) (out : list string) :
  listener g = Some out ->
  serial g = None ->
  0 <= sprite (board g) < 3 ->
  0 <= direction (board g) <= 1 ->
  let g' := step g TimerRunning in
  listener g'
  = Some (out
          ++ (if Py.truthy (gpiod g) then ["D0? "; "D4? "]%string else [])
          ++ (if Py.truthy (usart3 g) then ["U0? "; "U3? "]%string else [])
          ++ ["M40023830? "%string])
  /\ timers g'
     = timers g ++ (if stopping g then [] else [(POLL, call_on_timer_running)])
  /\ popups g' = popups g.
Proof.
  intros Hl Hs Hsprite Hdir.
  destruct g as [st bt li se dt wt co ho wf cu cn mo ir sr_ c1 gp us pn bd pu ti po].
  destruct bd as [cv en ls sg mt sp di].
  cbn [listener serial board sprite direction gpiod usart3 stopping timers popups]
    in *. subst li se.
  assert (F := between_cases 0 3 sp ltac:(simpl; lia)).
  assert (D := between_cases 0 2 di ltac:(simpl; lia)).
  simpl in F, D. clear Hsprite Hdir.
  unfold step, handler, on_timer_running, do_poll_serial, do_query_qemu.
  cases_of F; cases_of D; destruct mt, st;
    cbv -[app Py.truthy];
    destruct (Py.truthy gp), (Py.truthy us);
    cbv -[app]; rewrite <- ?app_assoc; rewrite ?app_nil_r;
    repeat split; reflexivity.
Qed.

Lemma tick_queries_witness :
  let g := set_gpiod 1 (set_listener (Some ["noecho "; "listen "]%string) init) in
  (listener g = Some ["noecho "; "listen "]%string
   /\ serial g = None
   /\ 0 <= sprite (board g) < 3
   /\ 0 <= direction (board g) <= 1)
  /\ listener (step g TimerRunning)
     = Some ["noecho "; "listen "; "D0? "; "D4? "; "M40023830? "]%string.
Proof.
  intros g.
  assert (H1 : listener g = Some ["noecho "; "listen "]%string) by reflexivity.
  assert (H2 : serial g = None) by reflexivity.
  assert (H3 : 0 <= sprite (board g) < 3) by (simpl; lia).
  assert (H4 : 0 <= direction (board g) <= 1) by (simpl; lia).
  split; [repeat split; assumption || (simpl; lia)|].
  exact (proj1 (tick_queries g _ H1 H2 H3 H4)).
Defined.

(** X22. When every chunk that waits on the serial socket is ASCII and
    not empty, [do_poll_serial] appends them all to the console, in the
    order they arrived, and leaves nothing waiting. *)
Theorem do_poll_serial_drains (waiting : list (list byte)) (g : WmsGui) :
  serial g = Some waiting ->
  Forall (fun data => data <> [] /\ forallb Py.byte_is_ascii data = true) waiting ->
  do_poll_serial g
  = (Ok tt,
     set_putty (putty g ++ String.concat "" (map string_of_list_byte waiting))
       (set_serial (Some []) g)).
Proof.
  intros Hs Hall. unfold do_poll_serial, bind, gets. cbn [fst snd].
  rewrite Hs. revert g Hs.
  assert (A : forall a b c : string, ((a ++ b) ++ c = a ++ b ++ c)%string).
  { induction a as [|ch a IH]; intros b c; simpl; [reflexivity | now rewrite IH]. }
  assert (N : forall a : string, (a ++ "")%string = a).
  { induction a as [|ch a IH]; simpl; [reflexivity | now rewrite IH]. }
  induction Hall as [|data rest [Hne Hascii] _ IH]; intros g Hs.
  - simpl. rewrite N. destruct g. simpl in Hs. subst. reflexivity.
  - cbn [poll_serial]. unfold bind at 1. unfold modify at 1.
    unfold serial_read. rewrite strip_escape_ascii by exact Hascii.
    unfold Py.decode_ascii. rewrite Hascii.
    destruct data as [|b data]; [contradiction|].
    change (string_of_list_byte (b :: data))
      with (String (ascii_of_byte b) (string_of_list_byte data)).
    cbn [String.eqb]. unfold bind at 1. unfold modify at 1.
    rewrite IH by reflexivity. f_equal. destruct g.
    unfold set_putty, set_serial. cbn.
    f_equal. destruct rest as [|next rest].
    + simpl. now rewrite !N.
    + cbn [map String.concat]. rewrite A. reflexivity.
Qed.

Lemma do_poll_serial_drains_witness :
  let waiting := [list_byte_of_string "WMS "; list_byte_of_string "ready"] in
  let g := set_serial (Some waiting) init in
  (serial g = Some waiting
   /\ Forall (fun data => data <> [] /\ forallb Py.byte_is_ascii data = true)
        waiting)
  /\ do_poll_serial g
     = (Ok tt, set_putty "WMS ready" (set_serial (Some []) g)).
Proof.
  intros waiting g.
  assert (H1 : serial g = Some waiting) by reflexivity.
  assert (H2 : Forall (fun data => data <> [] /\ forallb Py.byte_is_ascii data = true)
                 waiting).
  { repeat constructor; discriminate. }
  split; [split; assumption|].
  exact (do_poll_serial_drains waiting g H1 H2).
Defined.

Lemma Button_eqb_eq (a b : Button) : Button_eqb a b = true -> a = b.
Proof.
  unfold Button_eqb. destruct a as [n1 p1 s1 d1 u1 x1 y1 r1].
  destruct b as [n2 p2 s2 d2 u2 x2 y2 r2]. simpl.
  rewrite !andb_true_iff. intros [[[[[[[Hn Hp] Hs] Hd] Hu] Hx] Hy] Hr].
  apply String.eqb_eq in Hn, Hd, Hu. apply Z.eqb_eq in Hx, Hy, Hr.
  subst. f_equal.
  - destruct p1, p2; try discriminate Hp; [|reflexivity].
    apply Z.eqb_eq in Hp. now subst.
  - destruct s1, s2; try discriminate Hs; reflexivity.
Qed.

(** X23. After a pointer move the GUI remembers exactly the button
    [find_button] finds under the pointer, or none; the cursor is
    touched only when that button changed, and a second move to the same
    point changes nothing. *)
Theorem on_move_tracks_pointer (px py : Z) (g : WmsGui) :
  let g' := step g (Move px py) in
  button g' = WmsBoard.find_button px py
  /\ (button g = WmsBoard.find_button px py -> g' = g)
  /\ step g' (Move px py) = g'
  /\ (cursor g' = cursor g
      \/ cursor g' = match WmsBoard.find_button px py with
                     | Some _ => "hand2"%string
                     | None => ""%string
                     end).
Proof.
  assert (R : forall b, Button_eqb b b = true).
  { intros [n p s d u bx by_ r]. unfold Button_eqb. simpl.
    rewrite !String.eqb_refl, !Z.eqb_refl.
    destruct p as [p|]; [rewrite Z.eqb_refl|]; destruct s; reflexivity. }
  assert (G : forall h,
             button (step h (Move px py)) = WmsBoard.find_button px py
             /\ (button h = WmsBoard.find_button px py -> step h (Move px py) = h)
             /\ (cursor (step h (Move px py)) = cursor h
                 \/ cursor (step h (Move px py))
                    = match WmsBoard.find_button px py with
                      | Some _ => "hand2"%string
                      | None => ""%string
                      end)).
  { intros h. unfold step, handler, on_move, bind, gets, when, modify.
    cbv beta iota. cbn [snd].
    destruct (WmsBoard.find_button px py) as [b|] eqn:F;
      destruct (button h) as [b0|] eqn:B.
    - destruct (Button_eqb b b0) eqn:E; cbn [negb snd ret].
      + apply Button_eqb_eq in E. subst b0. auto.
      + split; [reflexivity|]. split; [|now right].
        intros E'. injection E' as ->. now rewrite R in E.
    - cbn [negb snd ret]. split; [reflexivity|]. split; [discriminate | now right].
    - cbn [negb snd ret]. split; [reflexivity|]. split; [discriminate | now right].
    - cbn [negb snd ret]. auto. }
  intros g'. destruct (G g) as (G1 & G2 & G3).
  split; [exact G1|]. split; [exact G2|]. split; [|exact G3].
  apply (G g'). exact G1.
Qed.

End MoreHandlers.

(** ** The states the GUI can reach *)

Section Reachable.

Import WmsGui.

Lemma update_device_keeps_direction (pin level : Z) :
  pin <> 13 -> env_keeps env_direction (WmsBoard.update_device pin level).
Proof.
  intros H. unfold WmsBoard.update_device, WmsBoard.overlay_item,
    WmsBoard.image_item, WmsBoard.draw, WmsBoard.latched_assign,
    WmsBoard.qemu_write.
  destruct ((8 <=? pin) && (pin <=? 11)); [repeat env_keeps_step|].
  destruct (pin =? 12); [repeat env_keeps_step|].
  destruct (Z.eqb_spec pin 13); [contradiction|].
  repeat env_keeps_step.
Qed.

Lemma animate_keeps_direction : env_keeps env_direction WmsBoard.animate.
Proof.
  unfold WmsBoard.animate, WmsBoard.overlay_item, WmsBoard.image_item,
    WmsBoard.draw.
  repeat env_keeps_step.
Qed.

Lemma button_down_keeps_direction (b : Button) :
  env_keeps env_direction (WmsBoard.button_down b).
Proof.
  unfold WmsBoard.button_down, WmsBoard.press, WmsBoard.update_button,
    WmsBoard.latched_item, WmsBoard.latched_assign, WmsBoard.image_item,
    WmsBoard.draw, WmsBoard.qemu_write.
  repeat env_keeps_step.
Qed.

Lemma button_up_keeps_direction (b : Button) :
  env_keeps env_direction (WmsBoard.button_up b).
Proof.
  unfold WmsBoard.button_up, WmsBoard.release, WmsBoard.update_button,
    WmsBoard.latched_item, WmsBoard.image_item, WmsBoard.draw,
    WmsBoard.qemu_write.
  repeat env_keeps_step.
Qed.

Lemma turning_call_board (pass : bool) (method : M Env unit) :
  (forall env, 0 <= direction (self env) <= 1 ->
               0 <= direction (self (snd (method env))) <= 1) ->
  preserves turning (call_board pass method).
Proof.
  intros H g Hg. unfold call_board, turning in *.
  specialize (H (mkEnv (board g) (if pass then listener g else None)) Hg).
  now destruct (method _) as [r env].
Qed.

Lemma turning_kept (pass : bool) (method : M Env unit) :
  env_keeps env_direction method -> preserves turning (call_board pass method).
Proof.
  intros H. apply turning_call_board. intros env Hd.
  specialize (H env). unfold env_direction in H. now rewrite H.
Qed.

Lemma turning_update_device (pin level : Z) :
  level = 0 \/ level = 1 ->
  preserves turning (call_board true (WmsBoard.update_device pin level)).
Proof.
  intros Hl. destruct (Z.eq_dec pin 13) as [->|Hp].
  - apply turning_call_board. intros [b q] _. simpl. lia.
  - now apply turning_kept, update_device_keeps_direction.
Qed.

Ltac turning_step :=
  first
    [ apply turning_update_device; auto
    | apply turning_kept, animate_keeps_direction
    | apply turning_kept, button_down_keeps_direction
    | apply turning_kept, button_up_keeps_direction
    | apply preserves_poll_serial; intros; assumption
    | apply preserves_listener_write; intros; assumption
    | apply preserves_ret | apply preserves_raise | apply preserves_gets
    | apply preserves_when
    | apply preserves_finally
    | apply preserves_bind; [|intros]
    | apply preserves_for_each; intros
    | apply preserves_modify; intros ? ?; assumption
    | match goal with
      | |- preserves _ (match ?x with _ => _ end) => destruct x
      end ].

Lemma turning_catch (h : M WmsGui unit) :
  preserves turning h -> preserves turning (catch h).
Proof.
  intros H g Hg. unfold catch. specialize (H g Hg).
  destruct (h g) as [[[]|e] g1]; simpl in *; [exact H|].
  destruct e; try exact H; destruct (stopping g1); exact H.
Qed.

Lemma handler_turning (i : Input) : preserves turning (handler i).
Proof.
  destruct i as [tag value|now value|px py| | | |data|now|dial ok now|];
    simpl.
  - unfold on_message, resync.
    repeat match goal with
           | |- preserves _ (if ?c then _ else _) => destruct c
           end; repeat turning_step.
  - unfold do_warning. destruct (negb _); repeat turning_step.
  - unfold on_move. repeat turning_step.
  - unfold on_b1_down. apply turning_catch. repeat turning_step.
  - unfold on_b1_up. apply turning_catch. repeat turning_step.
  - unfold on_timer_running, do_poll_serial, do_query_qemu, after.
    apply turning_catch. repeat turning_step.
  - repeat turning_step.
  - unfold on_connect, do_warning, after. apply turning_catch.
    repeat turning_step.
  - unfold do_connect, close, warning, do_warning, after.
    destruct dial; [|destruct (negb ok)|]; repeat turning_step.
  - unfold on_halt. apply turning_catch. repeat turning_step.
Qed.

(** X24. Whatever the main loop has delivered since the GUI was built,
    the board has one latched flag for each of the eight buttons, a
    segment mask from 0 to 15, a sprite frame from 0 to 2 and a direction
    of 0 or 1, and the button remembered under the pointer, if any, is
    one of the table. *)
Theorem reachable_in_range (inputs : list Input) :
  let g := run init inputs in
  List.length (latched (board g)) = 8%nat
  /\ 0 <= sseg (board g) < 16
  /\ 0 <= sprite (board g) < 3
  /\ 0 <= direction (board g) <= 1
  /\ match button g with
     | Some b => In b Board.buttons
     | None => True
     end.
Proof.
  assert (G : forall h, turning h -> turning (run h inputs)).
  { unfold run. induction inputs as [|i inputs IH]; intros h H;
      cbn [fold_left]; [exact H|].
    apply IH. unfold step. now apply handler_turning. }
  intros g.
  assert (S : sane g).
  { apply (run_sane inputs init).
    split; [|exact I]. unfold WmsBoard.valid. simpl. repeat split; lia. }
  assert (T : turning g).
  { apply (G init). unfold turning. simpl. lia. }
  destruct S as [(V1 & V2 & V3) B]. auto.
Qed.

(** X25. A chunk on the serial socket that does not decode as ASCII
    ends the polling: the tick that reads it shows the [ValueError] in a
    popup, writes no query and schedules no further tick; the chunk is
    consumed and the chunks behind it stay waiting. *)
Theorem tick_aborts_on_bad_serial
    (g : WmsGui) (data : list byte) (rest : list (list byte)) :
  serial g = Some (data :: rest) ->
  Py.decode_ascii (QEmuListener.strip_escape data) = None ->
  stopping g = false ->
  step g TimerRunning
  = set_popups (popups g ++ [ValueError]) (set_serial (Some rest) g).
Proof.
  intros Hs Hd Hst. destruct g. simpl in Hs, Hst. subst.
  unfold step, handler, on_timer_running, catch, do_poll_serial, bind, gets.
  cbn [serial fst snd poll_serial]. unfold bind, modify, serial_read.
  rewrite Hd. reflexivity.
Qed.

Lemma tick_aborts_on_bad_serial_witness :
  let g := set_serial (Some [[xe9]; list_byte_of_string "ok"])
             (set_listener (Some []) init) in
  (serial g = Some [[xe9]; list_byte_of_string "ok"]
   /\ Py.decode_ascii (QEmuListener.strip_escape [xe9]) = None
   /\ stopping g = false)
  /\ step g TimerRunning
     = set_popups [ValueError] (set_serial (Some [list_byte_of_string "ok"]) g).
Proof.
  intros g.
  assert (H1 : serial g = Some [[xe9]; list_byte_of_string "ok"]) by reflexivity.
  assert (H2 : Py.decode_ascii (QEmuListener.strip_escape [xe9]) = None)
    by reflexivity.
  assert (H3 : stopping g = false) by reflexivity.
  split; [repeat split; assumption|].
  exact (tick_aborts_on_bad_serial g [xe9] _ H1 H2 H3).
Defined.

(** *** The listener the GUI holds *)

Section Greeted.

Variable shown : bool.










End Greeted.














(** X27. The listener does not notice the end of the stream: receives
    that deliver no byte, as a closed peer gives them, produce no call
    and no error, and leave the buffer and the loop as they are. *)
Theorem listen_ignores_end_of_stream (n : nat) (recv_buffer : list byte) :
  existsb Py.byte_isspace recv_buffer = false ->
  forallb Py.byte_is_ascii recv_buffer = true ->
  QEmuListener.listen (repeat (QEmuListener.Data []) n) recv_buffer
  = ([], QEmuListener.Listening)
  /\ fst (QEmuListener.read recv_buffer (QEmuListener.Data [])) = recv_buffer.
Proof.
  intros Hw Ha.
  assert (R : QEmuListener.read recv_buffer (QEmuListener.Data [])
              = (recv_buffer, Ok EmptyString)).
  { unfold QEmuListener.read. rewrite app_nil_r.
    rewrite strip_escape_ascii by exact Ha.
    pose proof (pop_tail_no_space (rev recv_buffer) [] []) as P.
    rewrite app_nil_r, rev_involutive, app_nil_r in P.
    rewrite P; [reflexivity|].
    clear - Hw. induction recv_buffer as [|b l IH]; [reflexivity|].
    simpl in *. apply orb_false_iff in Hw as [Hb Hl].
    rewrite existsb_app, IH by exact Hl. simpl. now rewrite Hb. }
  split; [|now rewrite R].
  induction n as [|n IH]; [reflexivity|].
  cbn [repeat QEmuListener.listen]. rewrite R. cbn. now rewrite IH.
Qed.

Lemma listen_ignores_end_of_stream_witness :
  (existsb Py.byte_isspace (list_byte_of_string "=d4?/0") = false
   /\ forallb Py.byte_is_ascii (list_byte_of_string "=d4?/0") = true)
  /\ QEmuListener.listen (repeat (QEmuListener.Data []) 3)
       (list_byte_of_string "=d4?/0")
     = ([], QEmuListener.Listening).
Proof.
  assert (H1 : existsb Py.byte_isspace (list_byte_of_string "=d4?/0") = false)
    by reflexivity.
  assert (H2 : forallb Py.byte_is_ascii (list_byte_of_string "=d4?/0") = true)
    by reflexivity.
  split; [split; assumption|].
  exact (proj1 (listen_ignores_end_of_stream 3 _ H1 H2)).
Defined.

End Reachable.
